(** * PushUp: submission capture, repository synchronisation and statistics

    A shallow embedding of the TypeScript sources of the PushUp browser
    extension (content script, GitHub service, streak and daily-submission
    bookkeeping), followed by the properties established about them.

    Conventions of the embedding:
    - JavaScript strings are [string]s of 8-bit characters (ASCII text);
    - JavaScript numbers that hold counters and timestamps are [Z];
    - a value that may be [undefined] is an [option];
    - reading the clock, the document or the remote repository is an
      explicit argument or an explicit state. *)

From Stdlib Require Import ZArith Lia List Ascii String Bool Sorted.
From stdpp Require Import base option list gmap strings pretty.

Import ListNotations.
Open Scope string_scope.
Open Scope Z_scope.

(* ================================================================== *)
(** * Part I: definitions                                              *)
(* ================================================================== *)

(** ** Text primitives *)

Module Text.

Definition code (c : ascii) : N := N_of_ascii c.

Definition in_range (lo hi : N) (c : ascii) : bool :=
  ((lo <=? code c) && (code c <=? hi))%N.

Definition is_upper : ascii -> bool := in_range 65 90.    (* [A-Z] *)
Definition is_lower : ascii -> bool := in_range 97 122.   (* [a-z] *)
Definition is_digit : ascii -> bool := in_range 48 57.    (* [0-9] *)

Definition hyphen : ascii := "-"%char.
Definition underscore : ascii := "_"%char.
Definition slash : ascii := "/"%char.

Definition is_hyphen (c : ascii) : bool := Ascii.eqb c hyphen.

(** [String.prototype.toLowerCase], on ASCII letters. *)
Definition lower_char (c : ascii) : ascii :=
  if is_upper c then ascii_of_N (code c + 32) else c.

Fixpoint toLowerCase (s : string) : string :=
  match s with
  | EmptyString => EmptyString
  | String c s' => String (lower_char c) (toLowerCase s')
  end.

(** White space in the sense of [String.prototype.trim], ASCII part:
    TAB, LF, VT, FF, CR and SPACE. *)
Definition is_white (c : ascii) : bool :=
  in_range 9 13 c || Ascii.eqb c " "%char.

Fixpoint drop_while (p : ascii -> bool) (s : string) : string :=
  match s with
  | EmptyString => EmptyString
  | String c s' => if p c then drop_while p s' else s
  end.

Fixpoint take_while (p : ascii -> bool) (s : string) : string :=
  match s with
  | EmptyString => EmptyString
  | String c s' => if p c then String c (take_while p s') else EmptyString
  end.

(** Removes the longest suffix made of characters satisfying [p]. *)
Fixpoint drop_while_end (p : ascii -> bool) (s : string) : string :=
  match s with
  | EmptyString => EmptyString
  | String c s' =>
      match drop_while_end p s' with
      | EmptyString => if p c then EmptyString else String c EmptyString
      | r => String c r
      end
  end.

Definition trim (s : string) : string :=
  drop_while_end is_white (drop_while is_white s).

(** JavaScript truthiness of a string: non-empty. *)
Definition truthy (s : string) : bool :=
  match s with EmptyString => false | _ => true end.

(** [s.includes(needle)]. *)
Fixpoint includes (needle s : string) : bool :=
  String.prefix needle s ||
  match s with
  | EmptyString => false
  | String _ s' => includes needle s'
  end.

(** [drop_prefix p s] is the rest of [s] after its prefix [p]. *)
Fixpoint drop_prefix (p s : string) : option string :=
  match p, s with
  | EmptyString, _ => Some s
  | String a p', String b s' =>
      if Ascii.eqb a b then drop_prefix p' s' else None
  | String _ _, EmptyString => None
  end.

(** The first capture group of the unanchored pattern
    [lit([cls]+)]: the leftmost position where [lit] is followed by at
    least one character of the class, and the longest run there. *)
Fixpoint match_after (lit : string) (cls : ascii -> bool) (s : string)
  : option string :=
  let here :=
    match drop_prefix lit s with
    | Some rest =>
        match take_while cls rest with
        | EmptyString => None
        | g => Some g
        end
    | None => None
    end in
  match here with
  | Some g => Some g
  | None =>
      match s with
      | EmptyString => None
      | String _ s' => match_after lit cls s'
      end
  end.

End Text.

(** ** Slugs and file names *)

Module Slug.
Import Text.

(** [[a-z0-9]] *)
Definition is_slug_char (c : ascii) : bool := is_lower c || is_digit c.

(** [[a-z0-9-_]], the class negated in [sanitizeFileName]. *)
Definition is_file_char (c : ascii) : bool :=
  is_lower c || is_digit c || Ascii.eqb c hyphen || Ascii.eqb c underscore.

(** [.replace(/[^...]/g, '-')]: every character outside the class
    becomes a hyphen. *)
Fixpoint replace_each (keep : ascii -> bool) (s : string) : string :=
  match s with
  | EmptyString => EmptyString
  | String c s' =>
      String (if keep c then c else hyphen) (replace_each keep s')
  end.

(** [.replace(/[^...]+/g, '-')]: every maximal run of characters outside
    the class becomes one hyphen (emitted at the last character of the
    run). *)
Fixpoint replace_runs (keep : ascii -> bool) (s : string) : string :=
  match s with
  | EmptyString => EmptyString
  | String c s' =>
      if keep c then String c (replace_runs keep s')
      else
        match s' with
        | EmptyString => String hyphen EmptyString
        | String c' _ =>
            if keep c' then String hyphen (replace_runs keep s')
            else replace_runs keep s'
        end
  end.

(** [.replace(/-+/g, '-')] *)
Definition squeeze_hyphens (s : string) : string :=
  replace_runs (fun c => negb (is_hyphen c)) s.

(** [.replace(/^-|-$/g, '')]: one hyphen at the start, then one hyphen at
    the end of what is left. *)
Definition strip_first_hyphen (s : string) : string :=
  match s with
  | String c s' => if is_hyphen c then s' else s
  | EmptyString => EmptyString
  end.

Fixpoint strip_last_hyphen (s : string) : string :=
  match s with
  | EmptyString => EmptyString
  | String c EmptyString =>
      if is_hyphen c then EmptyString else String c EmptyString
  | String c s' => String c (strip_last_hyphen s')
  end.

(** [.replace(/^-+|-+$/g, '')] *)
Definition trim_hyphens (s : string) : string :=
  drop_while_end is_hyphen (drop_while is_hyphen s).

(** github.ts, [GitHubService.sanitizeFileName]. *)
Definition sanitizeFileName (name : string) : string :=
  strip_last_hyphen
    (strip_first_hyphen
       (squeeze_hyphens (replace_each is_file_char (toLowerCase name)))).

(** The slug computed by the problem-id extractors of the content script:
    [title.toLowerCase().replace(/[^a-z0-9]+/g, '-').replace(/^-+|-+$/g, '')]. *)
Definition titleSlug (title : string) : string :=
  trim_hyphens (replace_runs is_slug_char (toLowerCase title)).

(** The slugification rule in the words of the specification:
    "lower-case, replace every run of non [a-z0-9] with a single hyphen,
    trim leading/trailing hyphens".  [hyphenate_runs] writes the hyphen
    when a run starts and skips the rest of the run; [rtrim_hyphens] cuts
    the string where only hyphens remain. *)
Fixpoint hyphenate_runs (in_run : bool) (s : string) : string :=
  match s with
  | EmptyString => EmptyString
  | String c s' =>
      if is_slug_char c then String c (hyphenate_runs false s')
      else if in_run then hyphenate_runs true s'
      else String hyphen (hyphenate_runs true s')
  end.

Fixpoint all_hyphens (s : string) : bool :=
  match s with
  | EmptyString => true
  | String c s' => is_hyphen c && all_hyphens s'
  end.

Fixpoint rtrim_hyphens (s : string) : string :=
  match s with
  | EmptyString => EmptyString
  | String c s' =>
      if all_hyphens s then EmptyString else String c (rtrim_hyphens s')
  end.

Definition ltrim_hyphens (s : string) : string := drop_while is_hyphen s.

Definition slugify_spec (s : string) : string :=
  rtrim_hyphens (ltrim_hyphens (hyphenate_runs false (toLowerCase s))).

(** [s] has an underscore somewhere. *)
Fixpoint has_underscore (s : string) : bool :=
  match s with
  | EmptyString => false
  | String c s' => Ascii.eqb c underscore || has_underscore s'
  end.

(** Every character is a slug character or a hyphen. *)
Fixpoint slug_chars (s : string) : bool :=
  match s with
  | EmptyString => true
  | String c s' => (is_slug_char c || is_hyphen c) && slug_chars s'
  end.

(** No two hyphens in a row. *)
Fixpoint squeezed (s : string) : bool :=
  match s with
  | EmptyString => true
  | String c s' =>
      match s' with
      | EmptyString => true
      | String c' _ => negb (is_hyphen c && is_hyphen c') && squeezed s'
      end
  end.

End Slug.

(** ** Dates

    [Date] values are milliseconds since the epoch.  The time zone of the
    host is a parameter: [setDate(getDate() - k)] moves a [Date] back by
    [k] calendar days of local time, which is [k] times 24 hours only
    where the offset of the zone does not change.  Every [new Date()] is
    a clock reading of its own.  [toISOString] is modelled for the years
    0000 to 9999, which it prints with four digits. *)

Module JsDate.
Import Text.

Definition ms_per_day : Z := 86400000.

(** The proleptic Gregorian calendar, by 400-year eras of 146097 days
    that start on 1 March. *)
Definition era_year (doe : Z) : Z :=
  (doe - doe / 1460 + doe / 36524 - doe / 146096) / 365.

Definition year_start (yoe : Z) : Z := 365 * yoe + yoe / 4 - yoe / 100.

Definition civil_from_days (day : Z) : Z * Z * Z :=
  let z := day + 719468 in
  let era := z / 146097 in
  let doe := z mod 146097 in
  let yoe := era_year doe in
  let doy := doe - year_start yoe in
  let mp := (5 * doy + 2) / 153 in
  let d := doy - (153 * mp + 2) / 5 + 1 in
  let m := if mp <? 10 then mp + 3 else mp - 9 in
  let y := yoe + era * 400 in
  (if m <=? 2 then y + 1 else y, m, d).

Definition days_from_civil (y m d : Z) : Z :=
  let y' := if m <=? 2 then y - 1 else y in
  let era := y' / 400 in
  let yoe := y' mod 400 in
  let mp := if m <=? 2 then m + 9 else m - 3 in
  let doy := (153 * mp + 2) / 5 + d - 1 in
  era * 146097 + (year_start yoe + doy) - 719468.

Definition digit_char (k : Z) : ascii := ascii_of_N (Z.to_N (48 + k mod 10)).

Definition digit_val (c : ascii) : option Z :=
  if is_digit c then Some (Z.of_N (code c) - 48) else None.

Definition pad2 (n : Z) : string :=
  String (digit_char (n / 10)) (String (digit_char n) EmptyString).

Definition pad4 (n : Z) : string :=
  String (digit_char (n / 1000)) (String (digit_char (n / 100)) (pad2 n)).

(** The date part of [toISOString()] for the day number [day]. *)
Definition isoDay (day : Z) : string :=
  let '(y, m, d) := civil_from_days day in
  pad4 y +:+ "-" +:+ pad2 m +:+ "-" +:+ pad2 d.

(** [new Date(now).toISOString().split('T')[0]] *)
Definition isoDate (now : Z) : string := isoDay (now / ms_per_day).

(** The date-only form [YYYY-MM-DD] of a date-time string, as the number
    of days since the epoch; [None] when the string is not of this form.
    A day number past the end of the month rolls over into the next
    month. *)
Definition parseDay (s : string) : option Z :=
  match s with
  | String y1 (String y2 (String y3 (String y4 (String h1
      (String m1 (String m2 (String h2 (String d1 (String d2
         EmptyString))))))))) =>
      match digit_val y1, digit_val y2, digit_val y3, digit_val y4,
            digit_val m1, digit_val m2, digit_val d1, digit_val d2 with
      | Some a, Some b, Some c, Some e, Some f, Some g, Some i, Some j =>
          let y := 1000 * a + 100 * b + 10 * c + e in
          let m := 10 * f + g in
          let d := 10 * i + j in
          if is_hyphen h1 && is_hyphen h2
             && (1 <=? m) && (m <=? 12) && (1 <=? d) && (d <=? 31)
          then Some (days_from_civil y m d) else None
      | _, _, _, _, _, _, _, _ => None
      end
  | _ => None
  end.

(** Day numbers of 0000-01-01 and 9999-12-31. *)
Definition first_day : Z := -719528.
Definition last_day : Z := 2932896.

(** The host of the scripts, as [Date] sees it: the offset of local time
    from UTC at an instant ([LocalTZA(t, true)]), the offset taken for a
    local time value ([LocalTZA(t, false)]), and what [new Date(s)] makes
    of a string that is not of the date-only form, [None] being the
    invalid date. *)
Class Host := {
  offsetAt : Z -> Z;
  offsetOfLocal : Z -> Z;
  parseOther : string -> option Z
}.

Section Dates.
Context {host : Host}.

(** [LocalTime(t)] and [UTC(t)] of ECMAScript. *)
Definition LocalTime (t : Z) : Z := t + offsetAt t.
Definition UTC (l : Z) : Z := l - offsetOfLocal l.

(** [d.setDate(d.getDate() - k)] on a [Date] that holds [t]: the same
    time of day, [k] calendar days of local time earlier. *)
Definition setDateBack (k t : Z) : Z := UTC (LocalTime t - k * ms_per_day).

(** [new Date(s).getTime()]: a date-only form is midnight UTC of its day. *)
Definition parseDate (s : string) : option Z :=
  match parseDay s with
  | Some day => Some (day * ms_per_day)
  | None => parseOther s
  end.

(** The offsets of the zone differ by less than a day. *)
Definition tame : Prop :=
  forall t l, - ms_per_day < offsetAt t - offsetOfLocal l < ms_per_day.

(** The offset of the zone is [offset] throughout. *)
Definition constantOffset (offset : Z) : Prop :=
  (forall t, offsetAt t = offset) /\ (forall l, offsetOfLocal l = offset).

(** At the readings [now] and [later] of the clock, the day before in
    local time is the day before in UTC: a [Date] read at [later] and
    moved one day back prints the date before the one of [now]. *)
Definition steady (now later : Z) : Prop :=
  setDateBack 1 later / ms_per_day = now / ms_per_day - 1.

End Dates.

(** A reading of the clock and the next, less than a day later. *)
Definition prompt (now later : Z) : Prop := now <= later < now + ms_per_day.

(** A host in a zone of fixed offset that takes no other form of date. *)
Definition fixedOffset (offset : Z) : Host :=
  {| offsetAt := fun _ => offset; offsetOfLocal := fun _ => offset;
     parseOther := fun _ => None |}.

Definition utc : Host := fixedOffset 0.

(** A host in New York between the clock changes of March 2025 and March
    2026: four hours behind UTC until 2025-11-02T06:00Z, which is two
    o'clock local time, and five hours behind from then on; a local time
    of the hour that occurs twice is taken for the first. *)
Definition new_york : Host :=
  {| offsetAt := fun t => if t <? 1762063200000 then -14400000 else -18000000;
     offsetOfLocal := fun l => if l <? 1762048800000 then -14400000 else -18000000;
     parseOther := fun _ => None |}.

End JsDate.

(** ** The extension's key-value store ([chrome.storage.local]) *)

Module Store.

Inductive Difficulty := easy | medium | hard.

#[global] Instance difficulty_eq_dec : EqDecision Difficulty.
Proof. solve_decision. Defined.

Record Problems := { p_easy : Z; p_medium : Z; p_hard : Z }.

(** background.ts, [DailySubmissionData]. *)
Record DailySubmissionData := {
  date : string;
  submissions : Z;
  problems : Problems
}.

(** The keys the background script reads and writes; a key that was
    never set reads as [undefined]. *)
Record Storage := {
  streak : option Z;
  lastPushDate : option string;
  longestStreak : option Z;
  unlockedAchievements : option (list string);
  dailySubmissions : option (list DailySubmissionData);
  totalSolved : option Z;
  easyCount : option Z;
  mediumCount : option Z;
  hardCount : option Z;
  lastSubmissionDate : option string
}.

Definition empty : Storage :=
  {| streak := None; lastPushDate := None; longestStreak := None;
     unlockedAchievements := None; dailySubmissions := None;
     totalSolved := None; easyCount := None; mediumCount := None;
     hardCount := None; lastSubmissionDate := None |}.

(** [v || 0] *)
Definition or0 (v : option Z) : Z :=
  match v with Some n => n | None => 0 end.

(** [v || []] *)
Definition orNil {A} (v : option (list A)) : list A :=
  match v with Some l => l | None => [] end.

(** [chrome.storage.local.set({ streak, lastPushDate, longestStreak })] *)
Definition setStreak (s : Z) (d : string) (l : Z) (st : Storage) : Storage :=
  {| streak := Some s; lastPushDate := Some d; longestStreak := Some l;
     unlockedAchievements := unlockedAchievements st;
     dailySubmissions := dailySubmissions st;
     totalSolved := totalSolved st; easyCount := easyCount st;
     mediumCount := mediumCount st; hardCount := hardCount st;
     lastSubmissionDate := lastSubmissionDate st |}.

(** [chrome.storage.local.set({ unlockedAchievements })] *)
Definition setUnlocked (u : list string) (st : Storage) : Storage :=
  {| streak := streak st; lastPushDate := lastPushDate st;
     longestStreak := longestStreak st;
     unlockedAchievements := Some u;
     dailySubmissions := dailySubmissions st;
     totalSolved := totalSolved st; easyCount := easyCount st;
     mediumCount := mediumCount st; hardCount := hardCount st;
     lastSubmissionDate := lastSubmissionDate st |}.

(** [chrome.storage.local.set({ dailySubmissions, totalSolved, easy,
    medium, hard, lastSubmissionDate })] *)
Definition setDaily (ds : list DailySubmissionData) (t e m h : Z)
    (today : string) (st : Storage) : Storage :=
  {| streak := streak st; lastPushDate := lastPushDate st;
     longestStreak := longestStreak st;
     unlockedAchievements := unlockedAchievements st;
     dailySubmissions := Some ds;
     totalSolved := Some t; easyCount := Some e;
     mediumCount := Some m; hardCount := Some h;
     lastSubmissionDate := Some today |}.

End Store.

(** ** A JavaScript [Set] of strings: its elements in insertion order *)

Module JsSet.

Definition has (s : list string) (x : string) : bool := bool_decide (x ∈ s).

Definition add (s : list string) (x : string) : list string :=
  if has s x then s else (s ++ [x])%list.

(** [new Set(array)] *)
Definition of_array (l : list string) : list string := fold_left add l [].

(** [Array.from(set)] *)
Definition to_array (s : list string) : list string := s.

End JsSet.

(** ** Streaks and achievements (utils/streak.ts) *)

Module Streak.
Import Text JsDate Store.

Record Achievement := {
  id : string;
  title : string;
  message : string;
  emoji : string;
  condition : Z -> bool
}.

Definition achievements : list Achievement := [
  {| id := "streak-7"; title := "1 Week Streak";
     message := "🔥 You've been coding for 7 days straight!";
     emoji := "🔥";
     condition := fun streak => 7 <=? streak |};
  {| id := "streak-30"; title := "1 Month Streak";
     message := "💎 Amazing! A whole month of continuous coding!";
     emoji := "💎";
     condition := fun streak => 30 <=? streak |};
  {| id := "streak-50"; title := "50 Day Streak";
     message := "🏆 Incredible! You've reached the 50-day milestone!";
     emoji := "🏆";
     condition := fun streak => 50 <=? streak |};
  {| id := "streak-100"; title := "Century Streak";
     message := "🌟 Legendary! 100 days of consistent coding!";
     emoji := "🌟";
     condition := fun streak => 100 <=? streak |}
].

(** One turn of the loop of [checkAchievements]: the set of unlocked ids
    and the achievements found so far. *)
Definition checkOne (currentStreak : Z)
    (acc : list string * list Achievement) (a : Achievement)
  : list string * list Achievement :=
  let '(unlocked, newAchievements) := acc in
  if negb (JsSet.has unlocked (id a)) && condition a currentStreak
  then (JsSet.add unlocked (id a), (newAchievements ++ [a])%list)
  else (unlocked, newAchievements).

(** [checkAchievements(currentStreak)]: the new store and the
    achievements returned. *)
Definition checkAchievements (currentStreak : Z) (st : Storage)
  : Storage * list Achievement :=
  let unlockedAchievements0 := JsSet.of_array (orNil (unlockedAchievements st)) in
  let '(unlocked, newAchievements) :=
    fold_left (checkOne currentStreak) achievements (unlockedAchievements0, []) in
  if (0 <? Z.of_nat (length newAchievements))
  then (setUnlocked (JsSet.to_array unlocked) st, newAchievements)
  else (st, newAchievements).

Section Clock.
Context {host : Host}.

(** [updateStreak], with the two readings of the clock: [now] is the
    [new Date()] of [today] and [later] the [new Date()] of [yesterday],
    which [setDate] moves one day of local time back before
    [toISOString] prints its date in UTC.  The result is the new store
    and the returned [{ streak, newAchievements }]. *)
Definition updateStreak (now later : Z) (st : Storage)
  : Storage * (Z * list Achievement) :=
  let today := isoDate now in
  if bool_decide (lastPushDate st = Some today)
  then (st, (or0 (streak st), []))
  else
    let newStreak :=
      match lastPushDate st with
      | Some last =>
          if truthy last then
            let yesterday := setDateBack 1 later in
            let yesterdayStr := isoDate yesterday in
            if bool_decide (last = yesterdayStr)
            then or0 (streak st) + 1
            else 1
          else 1
      | None => 1
      end in
    let longest := Z.max newStreak (or0 (longestStreak st)) in
    let st1 := setStreak newStreak today longest st in
    let '(st2, newAchievements) := checkAchievements newStreak st1 in
    (st2, (newStreak, newAchievements)).

(** The streak that [updateStreak] stores when the day has changed, in
    closed form. *)
Definition nextStreak (later : Z) (st : Storage) : Z :=
  if bool_decide (lastPushDate st = Some (isoDate (setDateBack 1 later)))
  then or0 (streak st) + 1 else 1.

Record StreakData := {
  sd_streak : Z;
  sd_lastPushDate : string;
  sd_longestStreak : Z
}.

(** [getStreakStats] *)
Definition getStreakStats (st : Storage) : StreakData :=
  {| sd_streak := or0 (streak st);
     sd_lastPushDate :=
       match lastPushDate st with Some d => d | None => EmptyString end;
     sd_longestStreak := or0 (longestStreak st) |}.

(** The store after [updateStreak] at each pair of clock readings of
    [nows], one call after the other. *)
Fixpoint updateStreak_all (nows : list (Z * Z)) (st : Storage) : list Storage :=
  match nows with
  | [] => []
  | (now, later) :: rest =>
      let st' := fst (updateStreak now later st) in
      st' :: updateStreak_all rest st'
  end.

End Clock.

(** The invariant of the streak state: the longest streak is at least the
    current one. *)
Definition streak_bounded (st : Storage) : Prop :=
  or0 (streak st) <= or0 (longestStreak st).

(** Clock readings of three events, on 2025-01-01, 2025-01-02 and
    2025-01-05. *)
Definition gap_clock : list (Z * Z) :=
  [(20089 * ms_per_day + 36000000, 20089 * ms_per_day + 36000001);
   (20090 * ms_per_day + 79200000, 20090 * ms_per_day + 79200000);
   (20093 * ms_per_day + 1000, 20093 * ms_per_day + 1002)].

(** A store whose last push was on 2025-11-02, with a streak of 3, and
    the clock reading 2025-11-03T00:30Z, the evening of 2 November in New
    York, where the clocks were set back that morning. *)
Definition pushed_on_2_november : Storage :=
  setStreak 3 "2025-11-02" 3 Store.empty.

Definition evening_of_2_november : Z := 1762129800000.

End Streak.

(** ** Daily submission buckets (background.ts, [updateDailySubmissions]) *)

Module Daily.
Import Text JsDate Store.

(** background.ts, [SubmissionData]. *)
Record SubmissionData := {
  platform : string;
  problemId : string;
  code : string;
  language : string;
  difficulty : option Difficulty;
  title : option string
}.

Definition freshBucket (today : string) : DailySubmissionData :=
  {| date := today; submissions := 0;
     problems := {| p_easy := 0; p_medium := 0; p_hard := 0 |} |}.

(** [problems[difficulty]++] *)
Definition bumpProblems (d : Difficulty) (p : Problems) : Problems :=
  match d with
  | easy => {| p_easy := p_easy p + 1; p_medium := p_medium p; p_hard := p_hard p |}
  | medium => {| p_easy := p_easy p; p_medium := p_medium p + 1; p_hard := p_hard p |}
  | hard => {| p_easy := p_easy p; p_medium := p_medium p; p_hard := p_hard p + 1 |}
  end.

(** [todayData.submissions++] and the difficulty counter. *)
Definition bump (difficulty : option Difficulty) (b : DailySubmissionData)
  : DailySubmissionData :=
  {| date := date b;
     submissions := submissions b + 1;
     problems :=
       match difficulty with
       | Some d => bumpProblems d (problems b)
       | None => problems b
       end |}.

(** The position of the bucket returned by
    [dailySubmissions.find(d => d.date === today)]. *)
Fixpoint findToday (today : string) (l : list DailySubmissionData) : option nat :=
  match l with
  | [] => None
  | b :: l' =>
      if bool_decide (date b = today) then Some O
      else option_map S (findToday today l')
  end.

Section Clock.
Context {host : Host}.

(** [new Date(d.date) >= oneYearAgo], where [oneYearAgo] is the clock
    reading [later] moved back by 365 days of local time; an invalid
    date compares false. *)
Definition withinYear (later : Z) (b : DailySubmissionData) : bool :=
  match parseDate (date b) with
  | Some t => setDateBack 365 later <=? t
  | None => false
  end.

End Clock.

Definition isDifficulty (d : Difficulty) (o : option Difficulty) : Z :=
  if bool_decide (o = Some d) then 1 else 0.

(** The array once it has a bucket for today, and the position of
    [todayData] in it: the bucket found, or a fresh one pushed at the
    end. *)
Definition withToday (today : string) (l : list DailySubmissionData)
  : list DailySubmissionData * nat :=
  match findToday today l with
  | Some i => (l, i)
  | None => ((l ++ [freshBucket today])%list, length l)
  end.

Section Update.
Context {host : Host}.

(** [updateDailySubmissions(data)], with the two readings of the clock:
    [now] is the [new Date()] of [today] and [later] the one of
    [oneYearAgo].  [todayData] is the bucket at position [i] of the
    array, updated in place. *)
Definition updateDailySubmissions (data : SubmissionData) (now later : Z)
    (st : Storage) : Storage :=
  let today := isoDate now in
  let dailySubmissions0 := orNil (dailySubmissions st) in
  let '(dailySubmissions1, i) := withToday today dailySubmissions0 in
  let dailySubmissions2 := alter (bump (difficulty data)) i dailySubmissions1 in
  let totalSolved' := or0 (totalSolved st) + 1 in
  let easy' := or0 (easyCount st) + isDifficulty easy (difficulty data) in
  let medium' := or0 (mediumCount st) + isDifficulty medium (difficulty data) in
  let hard' := or0 (hardCount st) + isDifficulty hard (difficulty data) in
  let filteredSubmissions := List.filter (withinYear later) dailySubmissions2 in
  setDaily filteredSubmissions totalSolved' easy' medium' hard' today st.

End Update.

Definition buckets (st : Storage) : list DailySubmissionData :=
  orNil (dailySubmissions st).

(** A submission, and a store whose only bucket is dated 2023-12-31. *)
Definition two_sum : SubmissionData :=
  {| platform := "leetcode"; problemId := "two-sum";
     code := "class Solution {}"; language := "java";
     difficulty := Some easy; title := Some "Two Sum" |}.

Definition stale_store : Storage :=
  setDaily
    [ {| date := "2023-12-31"; submissions := 2;
         problems := {| p_easy := 1; p_medium := 1; p_hard := 0 |} |} ]
    2 1 1 0 "2023-12-31" Store.empty.

End Daily.

(** ** The statistics rule in the words of the specification *)

Module Spec.
Import JsDate.

Record StreakState := {
  currentStreak : Z;
  longestStreak : Z;
  lastContributionDate : string
}.

(** "If [lastContributionDate == eventDate], no streak change.  Else if
    [lastContributionDate == eventDate - 1 day], [currentStreak += 1].
    Else, [currentStreak = 1].  Always [longestStreak =
    max(longestStreak, currentStreak)]; [lastContributionDate =
    eventDate]."  The event date is given by its day number. *)
Definition streakUpdate (eventDay : Z) (s : StreakState) : StreakState :=
  if bool_decide (lastContributionDate s = isoDay eventDay) then s
  else
    let current :=
      if bool_decide (lastContributionDate s = isoDay (eventDay - 1))
      then currentStreak s + 1
      else 1 in
    {| currentStreak := current;
       longestStreak := Z.max (longestStreak s) current;
       lastContributionDate := isoDay eventDay |}.

(** The streak state the extension reports ([getStreakStats]). *)
Definition streakState (st : Store.Storage) : StreakState :=
  let d := Streak.getStreakStats st in
  {| currentStreak := Streak.sd_streak d;
     longestStreak := Streak.sd_longestStreak d;
     lastContributionDate := Streak.sd_lastPushDate d |}.

End Spec.

(** ** The writers of the store

    One step of the background script on the store: a streak update, an
    achievement check or a daily-submissions update, at some clock reading
    and for some submission. *)

Module Background.
Import Store.

Section Steps.
Context {host : JsDate.Host}.

Inductive step (st : Storage) : Storage -> Prop :=
| step_updateStreak now later :
    step st (fst (Streak.updateStreak now later st))
| step_checkAchievements k :
    step st (fst (Streak.checkAchievements k st))
| step_updateDailySubmissions data now later :
    step st (Daily.updateDailySubmissions data now later st).

(** The stores reachable from [st]. *)
Inductive reachable (st : Storage) : Storage -> Prop :=
| reach_refl : reachable st st
| reach_step st1 st2 : reachable st st1 -> step st1 st2 -> reachable st st2.

(** The same steps as operations, with the achievements each reports as
    newly unlocked. *)
Inductive Op :=
| UpdateStreak (now later : Z)
| CheckAchievements (k : Z)
| UpdateDailySubmissions (data : Daily.SubmissionData) (now later : Z).

Definition exec (op : Op) (st : Storage) : Storage * list Streak.Achievement :=
  match op with
  | UpdateStreak now later =>
      let '(st', (_, newAchievements)) := Streak.updateStreak now later st in
      (st', newAchievements)
  | CheckAchievements k => Streak.checkAchievements k st
  | UpdateDailySubmissions data now later =>
      (Daily.updateDailySubmissions data now later st, [])
  end.

(** The final store and all the achievements reported along the way. *)
Fixpoint run (ops : list Op) (st : Storage) : Storage * list Streak.Achievement :=
  match ops with
  | [] => (st, [])
  | op :: rest =>
      let '(st1, reported) := exec op st in
      let '(st2, later) := run rest st1 in
      (st2, (reported ++ later)%list)
  end.

End Steps.

End Background.

(** ** The GitHub service (utils/github.ts) *)

Module GitHub.
Import Text Slug.

(** *** Errors *)

(** [error.response] of a failed request: [response.data?.message] and
    [response.status]. *)
Record Response := {
  response_message : option string;
  response_status : option Z
}.

(** What the transport throws: an [Error] with its message, its own
    [status] property (if any) and its [response] (if any), or a value
    that is not an [Error]. *)
Inductive TransportError :=
| RequestError (msg : string) (status : option Z) (response : option Response)
| NotAnError.

(** [class GitHubError extends Error] *)
Record GitHubError := {
  message : string;
  code : string
}.

(** A thrown value: a [GitHubError] of the service, or what the transport
    threw. *)
Inductive Thrown :=
| ThrownGitHubError (e : GitHubError)
| ThrownTransport (t : TransportError).

Definition statusCode (status : option Z) : string :=
  match status with
  | Some 401 => "UNAUTHORIZED"
  | Some 403 => "FORBIDDEN"
  | Some 404 => "NOT_FOUND"
  | Some 422 => "VALIDATION_FAILED"
  | _ => "UNKNOWN_ERROR"
  end.

(** [handleGitHubError(error)] *)
Definition handleGitHubError (error : Thrown) : GitHubError :=
  match error with
  | ThrownGitHubError e => e
  | ThrownTransport (RequestError msg _ (Some response)) =>
      {| message :=
           match response_message response with
           | Some m => if truthy m then m else msg
           | None => msg
           end;
         code := statusCode (response_status response) |}
  | ThrownTransport (RequestError msg _ None) =>
      {| message := msg; code := "UNKNOWN_ERROR" |}
  | ThrownTransport NotAnError =>
      {| message := "Unknown GitHub error"; code := "UNKNOWN_ERROR" |}
  end.

(** [error instanceof Error && 'status' in error && error.status === n] *)
Definition hasStatus (n : Z) (error : Thrown) : bool :=
  match error with
  | ThrownTransport (RequestError _ (Some s) _) => s =? n
  | _ => false
  end.

(** *** The remote API *)

(** The text-safe encoding of a file body,
    [btoa(unescape(encodeURIComponent(content)))] or
    [Buffer.from(content).toString('base64')]: the Base64 text of
    [content], represented by [content] itself. *)
Record Blob := base64 { blob_text : string }.

(** The fields read from the data of a repository: [owner?.login], [name],
    [html_url] and [permissions?.push]. *)
Record RepoData := {
  repo_owner : option string;
  repo_name : string;
  html_url : string;
  can_push : option bool
}.

(** The data of [getContent]: a file carries a [sha]; a directory listing
    is an array and has none. *)
Inductive Content :=
| FileContent (sha : string)
| DirectoryListing.

Inductive Request :=
| ReqCreateRepo (name : string) (private : bool) (description : string)
| ReqGetRepo (owner repo : string)
| ReqGetContent (owner repo path : string)
| ReqPutContent (owner repo path message : string) (content : Blob)
    (sha : option string).

(** The client: each request acts on the world [W] outside and answers or
    throws. *)
Class Octokit (W : Type) := {
  createForAuthenticatedUser :
    string -> bool -> string -> W -> (TransportError + option RepoData) * W;
  reposGet : string -> string -> W -> (TransportError + RepoData) * W;
  getContent : string -> string -> string -> W -> (TransportError + Content) * W;
  createOrUpdateFileContents :
    string -> string -> string -> string -> Blob -> option string -> W ->
    (TransportError + unit) * W
}.

(** *** The service as a program

    The state of a [GitHubService] object ([this.owner], [this.repo]), the
    world behind its client and the requests sent so far.  An [async]
    method is a function of this state that returns or throws. *)

Record Service (W : Type) := {
  owner : string;
  repo : string;
  world : W;
  sent : list Request
}.
Arguments owner {W}. Arguments repo {W}. Arguments world {W}. Arguments sent {W}.

Inductive Outcome (A : Type) :=
| Return (a : A)
| Throw (e : Thrown).
Arguments Return {A}. Arguments Throw {A}.

Definition Prog (W A : Type) : Type := Service W -> Outcome A * Service W.

Definition ret {W A} (a : A) : Prog W A := fun s => (Return a, s).

Definition throw {W A} (e : Thrown) : Prog W A := fun s => (Throw e, s).

Definition bind {W A B} (m : Prog W A) (k : A -> Prog W B) : Prog W B :=
  fun s =>
    match m s with
    | (Return a, s') => k a s'
    | (Throw e, s') => (Throw e, s')
    end.

(** [try { m } catch (error) { handler(error) }] *)
Definition try_catch {W A} (m : Prog W A) (handler : Thrown -> Prog W A)
  : Prog W A :=
  fun s =>
    match m s with
    | (Return a, s') => (Return a, s')
    | (Throw e, s') => handler e s'
    end.

#[global] Instance prog_ret W : MRet (Prog W) := fun A => @ret W A.
#[global] Instance prog_bind W : MBind (Prog W) := fun A B k m => bind m k.

Definition getOwner {W} : Prog W string := fun s => (Return (owner s), s).
Definition getRepo {W} : Prog W string := fun s => (Return (repo s), s).

(** [this.owner = o; this.repo = r] *)
Definition setTarget {W} (o r : string) : Prog W unit :=
  fun s => (Return tt, {| owner := o; repo := r; world := world s; sent := sent s |}).

(** Sending a request: it is recorded, the client acts on the world, and
    its answer is awaited. *)
Definition send {W A} (req : Request) (act : W -> (TransportError + A) * W)
  : Prog W A :=
  fun s =>
    let '(answer, w') := act (world s) in
    let s' := {| owner := owner s; repo := repo s; world := w';
                 sent := (sent s ++ [req])%list |} in
    match answer with
    | inr a => (Return a, s')
    | inl t => (Throw (ThrownTransport t), s')
    end.

Section Methods.
Context {W : Type} {client : Octokit W}.

Definition octokit_createForAuthenticatedUser (name : string) (private : bool)
    (description : string) : Prog W (option RepoData) :=
  send (ReqCreateRepo name private description)
       (createForAuthenticatedUser name private description).

Definition octokit_get (o r : string) : Prog W RepoData :=
  send (ReqGetRepo o r) (reposGet o r).

Definition octokit_getContent (path : string) : Prog W Content :=
  o ← getOwner; r ← getRepo;
  send (ReqGetContent o r path) (getContent o r path).

Definition octokit_createOrUpdateFileContents (path msg : string)
    (content : Blob) (sha : option string) : Prog W unit :=
  o ← getOwner; r ← getRepo;
  send (ReqPutContent o r path msg content sha)
       (createOrUpdateFileContents o r path msg content sha).

(** [sanitizeFileName] is [Slug.sanitizeFileName]. *)

(** The own keys of [langMap] in [getFileExtension]. *)
Definition langMap : list (string * string) :=
  [ ("javascript", "js"); ("typescript", "ts"); ("python", "py");
    ("java", "java"); ("cpp", "cpp"); ("c++", "cpp"); ("ruby", "rb");
    ("golang", "go"); ("rust", "rs") ].

Fixpoint assoc (k : string) (l : list (string * string)) : option string :=
  match l with
  | [] => None
  | (k', v) :: l' => if String.eqb k k' then Some v else assoc k l'
  end.

(** The members that the plain object [langMap] inherits under a name
    in lower case, the constructor [Object] and the prototype of objects,
    as the template literal of [getFilePath] prints them. *)
Definition inherited : list (string * string) :=
  [ ("constructor", "function Object() { [native code] }");
    ("__proto__", "[object Object]") ].

(** [langMap[language.toLowerCase()] || 'txt'], as [getFilePath] prints
    it: an own key of [langMap], else a member it inherits, else
    ['txt']. *)
Definition getFileExtension (language : string) : string :=
  match assoc (toLowerCase language) langMap with
  | Some ext => ext
  | None =>
      match assoc (toLowerCase language) inherited with
      | Some member => member
      | None => "txt"
      end
  end.

(** [getFilePath]: the path, or the [GitHubError] thrown. *)
Definition getFilePath (platform problemId language : string)
  : GitHubError + string :=
  let ext := getFileExtension language in
  let sanitizedProblemId := sanitizeFileName problemId in
  let p := toLowerCase platform in
  if String.eqb p "leetcode" then
    inr ("leetcode/" +:+ sanitizedProblemId +:+ "." +:+ ext)
  else if String.eqb p "codeforces" then
    inr ("codeforces/" +:+ sanitizedProblemId +:+ "." +:+ ext)
  else if String.eqb p "codechef" then
    inr ("codechef/" +:+ sanitizedProblemId +:+ "." +:+ ext)
  else
    inl {| message := "Unsupported platform: " +:+ platform;
           code := "INVALID_PLATFORM" |}.

(** The path of a solution for a platform that has a folder. *)
Definition solutionPath (platform problemId language : string) : string :=
  toLowerCase platform +:+ "/" +:+ sanitizeFileName problemId +:+ "."
  +:+ getFileExtension language.

Definition generateCommitMessage (platform problemId : string)
    (isUpdate : bool) : string :=
  (if isUpdate then "Update" else "Add") +:+ " " +:+ platform
  +:+ " solution: " +:+ problemId.

(** [checkFileExists(path)] *)
Definition checkFileExists (path : string) : Prog W bool :=
  try_catch
    (_ ← octokit_getContent path; mret true)
    (fun error =>
       if hasStatus 404 error then mret false
       else throw (ThrownGitHubError (handleGitHubError error))).

(** [createFile(path, content, message)] *)
Definition createFile (path content msg : string) : Prog W unit :=
  try_catch
    (octokit_createOrUpdateFileContents path msg (base64 content) None)
    (fun error => throw (ThrownGitHubError (handleGitHubError error))).

(** [updateFile(path, content, message)] *)
Definition updateFile (path content msg : string) : Prog W unit :=
  try_catch
    (existing ← octokit_getContent path;
     match existing with
     | DirectoryListing =>
         throw (ThrownGitHubError
                  {| message := "Invalid file data received from GitHub";
                     code := "INVALID_RESPONSE" |})
     | FileContent sha =>
         octokit_createOrUpdateFileContents path msg (base64 content) (Some sha)
     end)
    (fun error => throw (ThrownGitHubError (handleGitHubError error))).

(** [saveSolution(platform, problemId, code, language)] *)
Definition saveSolution (platform problemId code language : string)
  : Prog W unit :=
  match getFilePath platform problemId language with
  | inl e => throw (ThrownGitHubError e)
  | inr path =>
      fileExists ← checkFileExists path;
      let msg := generateCommitMessage platform problemId fileExists in
      try_catch
        (if fileExists : bool then updateFile path code msg
         else createFile path code msg)
        (fun error => throw (ThrownGitHubError (handleGitHubError error)))
  end.

(** [for (const x of xs) { await body(x) }] *)
Fixpoint forEach {A} (xs : list A) (body : A -> Prog W unit) : Prog W unit :=
  match xs with
  | [] => mret tt
  | x :: xs' => _ ← body x; forEach xs' body
  end.

(** [verifyRepoAccess()] *)
Definition verifyRepoAccess : Prog W bool :=
  try_catch
    (o ← getOwner; r ← getRepo;
     data ← octokit_get o r;
     mret (match can_push data with Some b => b | None => false end))
    (fun error => throw (ThrownGitHubError (handleGitHubError error))).

End Methods.

(** [new GitHubService({ token, owner, repo })]: the object, or the error
    thrown when the token is empty. *)
Definition construct {W} (token o r : string) (w : W)
  : GitHubError + Service W :=
  if truthy token
  then inr {| owner := o; repo := r; world := w; sent := [] |}
  else inl {| message := "Authentication token is required";
              code := "AUTH_REQUIRED" |}.

End GitHub.

(** ** Repository set-up, first version of the service
    ([createRepositoryWithStructure]) *)

Module GitHubV1.
Import Text GitHub.

Section Methods.
Context {W : Type} {client : Octokit W}.

Definition folders : list (string * string) :=
  [ ("leetcode", "LeetCode Solutions");
    ("codeforces", "Codeforces Solutions");
    ("codechef", "CodeChef Solutions") ].

Definition nl : string := String (ascii_of_N 10) EmptyString.

(** [generateRepositoryReadme()]; the decorative symbols of the template
    are left out. *)
Definition generateRepositoryReadme : string :=
  "# My Coding Journey" +:+ nl +:+ nl +:+
  "This repository contains my coding solutions from various competitive programming platforms, automatically managed by **PushUp** extension." +:+ nl +:+ nl +:+
  "## Repository Structure" +:+ nl +:+ nl +:+
  "```" +:+ nl +:+
  "leetcode/          # LeetCode solutions" +:+ nl +:+
  "codeforces/        # Codeforces solutions" +:+ nl +:+
  "codechef/          # CodeChef solutions" +:+ nl +:+
  "```" +:+ nl +:+ nl +:+
  "## Platforms" +:+ nl +:+ nl +:+
  "- **LeetCode**: Data Structures & Algorithms practice" +:+ nl +:+
  "- **Codeforces**: Competitive programming contests" +:+ nl +:+
  "- **CodeChef**: Monthly challenges and contests" +:+ nl +:+ nl +:+
  "## Progress Tracking" +:+ nl +:+ nl +:+
  "This repository is automatically updated by the PushUp browser extension, which:" +:+ nl +:+
  "- Automatically detects successful submissions" +:+ nl +:+
  "- Saves solutions with proper file organization" +:+ nl +:+
  "- Tracks coding streaks and progress" +:+ nl +:+
  "- Manages achievements and milestones" +:+ nl +:+ nl +:+
  "---" +:+ nl +:+
  "*Generated by [PushUp Extension](https://github.com/revanthm1902/PushUp)*" +:+ nl.

(** [platform.charAt(0).toUpperCase() + platform.slice(1)] *)
Definition capitalize (s : string) : string :=
  match s with
  | EmptyString => EmptyString
  | String c s' =>
      String (if is_lower c then ascii_of_N (Text.code c - 32) else c) s'
  end.

(** [generateFolderReadme(platform, description)]; the decorative symbols
    of the template are left out. *)
Definition generateFolderReadme (platform description : string) : string :=
  "# " +:+ capitalize platform +:+ " Solutions" +:+ nl +:+ nl +:+
  description +:+ " organized and tracked by PushUp extension." +:+ nl +:+ nl +:+
  "## File Naming Convention" +:+ nl +:+ nl +:+
  "Files are automatically named based on the problem:" +:+ nl +:+
  "- Problem titles are converted to kebab-case" +:+ nl +:+
  "- File extensions match the programming language used" +:+ nl +:+
  "- Example: `two-sum.py`, `binary-search.cpp`" +:+ nl +:+ nl +:+
  "## Stats" +:+ nl +:+ nl +:+
  "Solutions in this folder are automatically tracked for:" +:+ nl +:+
  "- Daily solving streaks" +:+ nl +:+
  "- Difficulty distribution  " +:+ nl +:+
  "- Language usage patterns" +:+ nl +:+
  "- Time-based progress" +:+ nl +:+ nl +:+
  "---" +:+ nl +:+
  "*Auto-generated by PushUp Extension*" +:+ nl.

(** [initializeFolders()] *)
Definition initializeFolders : Prog W unit :=
  try_catch
    (readmeExists ← checkFileExists "README.md";
     _ ← (if readmeExists : bool then mret tt
          else createFile "README.md" generateRepositoryReadme
                 "Initial commit: Setup repository structure");
     forEach folders (fun folder =>
       let folderReadmePath := fst folder +:+ "/README.md" in
       folderExists ← checkFileExists folderReadmePath;
       if folderExists : bool then mret tt
       else createFile folderReadmePath
              (generateFolderReadme (fst folder) (snd folder))
              ("Initialize " +:+ fst folder +:+ " folder")))
    (fun error => throw (ThrownGitHubError (handleGitHubError error))).

Record SetupResult := {
  success : bool;
  repoUrl : string;
  result_owner : string;
  result_repo : string
}.

Definition defaultDescription : string :=
  "My coding solutions repository managed by PushUp - Practice makes perfect!".

Definition repoAccessError (msg : string) : Thrown :=
  ThrownGitHubError {| message := msg; code := "REPO_ACCESS_ERROR" |}.

(** [createRepositoryWithStructure(repoName, description?)].  The test
    [!this.octokit] never holds: the constructor sets the client. *)
Definition createRepositoryWithStructure (repoName : string)
    (description : option string) : Prog W SetupResult :=
  try_catch
    (repoData ←
       try_catch
         (octokit_createForAuthenticatedUser repoName false
            (match description with
             | Some d => if truthy d then d else defaultDescription
             | None => defaultDescription
             end))
         (fun error =>
            if hasStatus 422 error then
              try_catch
                (o ← getOwner; data ← octokit_get o repoName; mret (Some data))
                (fun _ =>
                   throw (repoAccessError
                     "Repository already exists and cannot be accessed. Please choose a different name or check permissions."))
            else throw (ThrownGitHubError (handleGitHubError error)));
     match repoData with
     | Some {| repo_owner := Some login; repo_name := name; html_url := url |} =>
         _ ← setTarget login name;
         _ ← initializeFolders;
         o ← getOwner; r ← getRepo;
         mret {| success := true; repoUrl := url;
                 result_owner := o; result_repo := r |}
     | _ => throw (repoAccessError "Failed to access repository")
     end)
    (fun error =>
       match error with
       | ThrownGitHubError _ => throw error
       | _ => throw (ThrownGitHubError (handleGitHubError error))
       end).

End Methods.

End GitHubV1.

(** ** Repository set-up, second version of the service ([setupRepo]) *)

Module GitHubV2.
Import Text GitHub.

Section Methods.
Context {W : Type} {client : Octokit W}.

Definition folders : list string := ["leetcode"; "codeforces"; "codechef"].

(** [initializeFolders()] *)
Definition initializeFolders : Prog W unit :=
  forEach folders (fun folder =>
    gitkeepExists ← checkFileExists (folder +:+ "/.gitkeep");
    if gitkeepExists : bool then mret tt
    else createFile (folder +:+ "/.gitkeep") EmptyString
           ("Initialize " +:+ folder +:+ " folder")).

(** [createNewRepo(name)] *)
Definition createNewRepo (name : string) : Prog W unit :=
  try_catch
    (data ← octokit_createForAuthenticatedUser name true
              "My coding solutions repository managed by PushUp";
     match data with
     | Some {| repo_owner := Some login; repo_name := rname |} =>
         _ ← setTarget login rname;
         _ ← verifyRepoAccess;
         mret tt
     | _ =>
         throw (ThrownGitHubError
                  {| message := "Failed to create repository";
                     code := "REPO_CREATE_ERROR" |})
     end)
    (fun error =>
       if hasStatus 422 error then
         throw (ThrownGitHubError
                  {| message := "Repository already exists";
                     code := "REPO_EXISTS" |})
       else throw (ThrownGitHubError (handleGitHubError error))).

(** [setupRepo(repoName, isNew)].  The test [!this.octokit] never holds:
    the constructor sets the client. *)
Definition setupRepo (repoName : string) (isNew : bool) : Prog W unit :=
  try_catch
    (_ ← (if isNew then createNewRepo repoName
          else
            hasAccess ← verifyRepoAccess;
            if hasAccess : bool then mret tt
            else throw (ThrownGitHubError
                          {| message := "Insufficient permissions for repository";
                             code := "PERMISSION_ERROR" |}));
     initializeFolders)
    (fun error => throw (ThrownGitHubError (handleGitHubError error))).

End Methods.

End GitHubV2.

(** ** Error codes *)

Module Codes.

(** The codes listed by the specification. *)
Definition listed : list string :=
  [ "AUTH_REQUIRED"; "INIT_ERROR"; "REPO_ACCESS_ERROR"; "REPO_EXISTS";
    "REPO_CREATE_ERROR"; "PERMISSION_ERROR"; "UNAUTHORIZED"; "FORBIDDEN";
    "NOT_FOUND"; "VALIDATION_FAILED"; "UNKNOWN_ERROR" ].

(** The codes the service throws. *)
Definition thrown : list string :=
  (listed ++ [ "INVALID_PLATFORM"; "INVALID_RESPONSE" ])%list.

(** A thrown value is normalised over [codes]: it is a [GitHubError] whose
    code is one of them. *)
Definition normalized (codes : list string) (e : GitHub.Thrown) : Prop :=
  match e with
  | GitHub.ThrownGitHubError g => GitHub.code g ∈ codes
  | GitHub.ThrownTransport _ => False
  end.

(** Either normalised over [codes], or thrown by the transport. *)
Definition raw_or (codes : list string) (e : GitHub.Thrown) : Prop :=
  match e with
  | GitHub.ThrownGitHubError g => GitHub.code g ∈ codes
  | GitHub.ThrownTransport _ => True
  end.

(** A method throws only values satisfying [P]. *)
Definition throws {W A} (P : GitHub.Thrown -> Prop) (m : GitHub.Prog W A) : Prop :=
  forall s,
    match fst (m s) with
    | GitHub.Throw e => P e
    | GitHub.Return _ => True
    end.

(** The platforms with a folder in the repository. *)
Definition supported : list string := ["leetcode"; "codeforces"; "codechef"].

End Codes.

(** ** A remote that answers

    The repositories behind the client as a finite map from (owner,
    repository, path) to files; every request is answered as the GitHub
    contents API answers it: reading a missing path is a 404, creating
    over an existing file without its hash is a 422, updating with a
    stale hash is a 409.  [sha_of] is the hash the remote gives to a file
    body and [login] the authenticated user. *)

Module Remote.
Import GitHub.

Record RemoteFile := {
  file_content : string;
  file_sha : string
}.

Definition failure (msg : string) (status : Z) : TransportError :=
  RequestError msg (Some status)
    (Some {| response_message := Some msg; response_status := Some status |}).

Section Ideal.
Context (login : string) (sha_of : string -> string).

Definition stored (content : Blob) : RemoteFile :=
  {| file_content := blob_text content; file_sha := sha_of (blob_text content) |}.

Definition ideal_getContent (o r p : string)
    (w : gmap (string * string * string) RemoteFile)
  : (TransportError + Content) * gmap (string * string * string) RemoteFile :=
  match w !! (o, r, p) with
  | Some f => (inr (FileContent (file_sha f)), w)
  | None => (inl (failure "Not Found" 404), w)
  end.

Definition ideal_createOrUpdateFileContents (o r p msg : string)
    (content : Blob) (sha : option string)
    (w : gmap (string * string * string) RemoteFile)
  : (TransportError + unit) * gmap (string * string * string) RemoteFile :=
  match w !! (o, r, p), sha with
  | None, None => (inr tt, <[(o, r, p) := stored content]> w)
  | Some f, Some h =>
      if String.eqb h (file_sha f)
      then (inr tt, <[(o, r, p) := stored content]> w)
      else (inl (failure "sha does not match" 409), w)
  | Some _, None => (inl (failure "sha was not supplied" 422), w)
  | None, Some _ => (inl (failure "sha does not match" 422), w)
  end.

Definition repoData (o r : string) : RepoData :=
  {| repo_owner := Some o; repo_name := r;
     html_url := "https://github.com/" +:+ o +:+ "/" +:+ r;
     can_push := Some true |}.

#[export] Instance ideal : Octokit (gmap (string * string * string) RemoteFile) := {|
  createForAuthenticatedUser name private description w :=
    (inr (Some (repoData login name)), w);
  reposGet o r w := (inr (repoData o r), w);
  getContent := ideal_getContent;
  createOrUpdateFileContents := ideal_createOrUpdateFileContents
|}.

End Ideal.

(** The service after some requests: the world they leave and the
    requests added to those sent. *)
Definition with_world (s : Service (gmap (string * string * string) RemoteFile))
    (w : gmap (string * string * string) RemoteFile) (reqs : list Request)
  : Service (gmap (string * string * string) RemoteFile) :=
  {| owner := owner s; repo := repo s; world := w;
     sent := (sent s ++ reqs)%list |}.

(** A client for which every path is a directory: [getContent] answers
    with a listing, and the other requests succeed. *)
Definition directories : Octokit unit := {|
  createForAuthenticatedUser name private description w :=
    (inr (Some (repoData "octocat" name)), w);
  reposGet o r w := (inr (repoData o r), w);
  getContent o r p w := (inr DirectoryListing, w);
  createOrUpdateFileContents o r p msg content sha w := (inr tt, w)
|}.

Definition over_directories : Service unit :=
  {| owner := "octocat"; repo := "solutions"; world := tt; sent := [] |}.

(** A service freshly constructed over the empty remote. *)
Definition fresh : Service (gmap (string * string * string) RemoteFile) :=
  {| owner := "octocat"; repo := "solutions"; world := ∅; sent := [] |}.

End Remote.

(** ** The page as the content script sees it *)

Module Dom.
Import Text.

(** An element: its [textContent], its [value] (of a text area), the
    [textContent] of its selected option (of a select box), and the
    answers of its own [querySelector], each given by the [textContent]
    of the descendant found. *)
Record Element := {
  textContent : string;
  value : string;
  selectedOption : option string;
  inner : list (string * string)
}.

Fixpoint lookup_selector {A} (selector : string) (l : list (string * A))
  : option A :=
  match l with
  | [] => None
  | (k, e) :: l' => if String.eqb selector k then Some e else lookup_selector selector l'
  end.

(** A snapshot of the document, the window location and the clock.
    [elements] answers [document.querySelector] selector by selector
    (attribute values in selectors are written without their quotation
    marks); [langParam] is
    [new URLSearchParams(location.search).get('lang')]. *)
Record Page := {
  hostname : string;
  pathname : string;
  href : string;
  langParam : option string;
  documentTitle : string;
  innerText : string;
  elements : list (string * Element);
  now : Z
}.

(** [document.querySelector(selector)] *)
Definition querySelector (page : Page) (selector : string) : option Element :=
  lookup_selector selector (elements page).

(** [element.querySelector(selector)?.textContent] *)
Definition querySelectorIn (e : Element) (selector : string) : option string :=
  lookup_selector selector (inner e).

(** [a || b] on elements *)
Definition orElse {A} (a b : option A) : option A :=
  match a with Some _ => a | None => b end.

(** [!!document.querySelector(selector)] *)
Definition present (page : Page) (selector : string) : bool :=
  match querySelector page selector with Some _ => true | None => false end.

(** The first selector whose element has text after trimming, with that
    text: the loops over [titleSelectors] and [languageSelectors]. *)
Fixpoint firstText (page : Page) (selectors : list string) : option string :=
  match selectors with
  | [] => None
  | selector :: rest =>
      match querySelector page selector with
      | Some e =>
          if truthy (trim (textContent e)) then Some (trim (textContent e))
          else firstText page rest
      | None => firstText page rest
      end
  end.

(** [s.replace(/-/g, ' ')] *)
Fixpoint hyphensToSpaces (s : string) : string :=
  match s with
  | EmptyString => EmptyString
  | String c s' =>
      String (if is_hyphen c then " "%char else c) (hyphensToSpaces s')
  end.

(** [`${n}`] for a number. *)
Definition numberToString (n : Z) : string := pretty n.

(** [s || fallback] on strings that may be undefined. *)
Definition orString (s : option string) (fallback : string) : string :=
  match s with
  | Some t => if truthy t then t else fallback
  | None => fallback
  end.

End Dom.

(** ** The content script *)

Module Content.
Import Text Slug Dom.

(** What a content script throws. *)
Inductive JsError :=
| Error (msg : string)
| TypeError (msg : string).

(** The object built by [extractSubmissionData]: a
    [Partial<SubmissionData>], sent as it is. *)
Record SubmissionData := {
  platform : string;
  problemId : option string;
  code : option string;
  language : option string;
  difficulty : option Store.Difficulty;
  title : option string
}.

(** The message of [chrome.runtime.sendMessage]. *)
Inductive Message :=
| NEW_SUBMISSION (data : SubmissionData).

(** [detectPlatform()] *)
Definition detectPlatform (page : Page) : string :=
  if includes "leetcode" (hostname page) then "leetcode"
  else if includes "codeforces" (hostname page) then "codeforces"
  else if includes "codechef" (hostname page) then "codechef"
  else "unknown".

(** [logSubmission(data)] reads [data.code.length]. *)
Definition logSubmission (data : SubmissionData) : JsError + unit :=
  match code data with
  | Some _ => inr tt
  | None => inl (TypeError "Cannot read properties of undefined (reading 'length')")
  end.

Definition justPlatform (p : string) : SubmissionData :=
  {| platform := p; problemId := None; code := None; language := None;
     difficulty := None; title := None |}.

(** The callback of the [MutationObserver], given the success test and
    the extraction: the messages sent for one batch of mutations.  An
    exception of the extraction ends the callback. *)
Definition onMutation (isSuccessfulSubmission : Page -> bool)
    (extractSubmissionData : Page -> JsError + SubmissionData)
    (page : Page) : list Message :=
  if isSuccessfulSubmission page then
    match extractSubmissionData page with
    | inr data => [NEW_SUBMISSION data]
    | inl _ => []
    end
  else [].

(** The messages sent over the batches of mutations of a page session,
    each batch with the snapshot of the page it is handled in. *)
Fixpoint observe (isSuccessfulSubmission : Page -> bool)
    (extractSubmissionData : Page -> JsError + SubmissionData)
    (batches : list Page) : list Message :=
  match batches with
  | [] => []
  | page :: rest =>
      (onMutation isSuccessfulSubmission extractSubmissionData page
       ++ observe isSuccessfulSubmission extractSubmissionData rest)%list
  end.

End Content.

(** *** content/content.ts *)

Module ContentBasic.
Import Text Slug Dom Content.

(** [isSuccessfulSubmission()] of a detector for [platform]. *)
Definition isSuccessfulSubmission (platform : string) (page : Page) : bool :=
  if String.eqb platform "leetcode" then present page ".success-icon"
  else if String.eqb platform "codeforces" then includes "Accepted" (innerText page)
  else if String.eqb platform "codechef" then includes "Success" (innerText page)
  else false.

Definition extractLeetCodeProblemId (page : Page) : JsError + string :=
  match option_map textContent (querySelector page ".title-text") with
  | Some t =>
      if truthy t then inr (titleSlug t)
      else inl (Error "Could not find problem title")
  | None => inl (Error "Could not find problem title")
  end.

Definition extractLeetCodeCode (page : Page) : JsError + string :=
  match querySelector page ".monaco-editor" with
  | None => inl (Error "Could not find code editor")
  | Some editor =>
      match querySelectorIn editor ".view-lines" with
      | None => inl (Error "Could not find code content")
      | Some code =>
          if truthy code then inr (trim code)
          else inl (Error "No code content found")
      end
  end.

Definition extractLeetCodeLanguage (page : Page) : JsError + string :=
  match querySelector page ".language-btn" with
  | None => inl (Error "Could not find language selector")
  | Some langElement =>
      if truthy (textContent langElement)
      then inr (toLowerCase (textContent langElement))
      else inl (Error "No language selected")
  end.

(** The object literal of the [leetcode] case: the fields in the order
    they are evaluated. *)
Definition leetcodeFields (platform : string) (page : Page)
  : JsError + SubmissionData :=
  match extractLeetCodeProblemId page with
  | inl e => inl e
  | inr pid =>
      match extractLeetCodeCode page with
      | inl e => inl e
      | inr c =>
          match extractLeetCodeLanguage page with
          | inl e => inl e
          | inr lang =>
              inr {| platform := platform; problemId := Some pid;
                     code := Some c; language := Some lang;
                     difficulty := None; title := None |}
          end
      end
  end.

(** [extractSubmissionData()] *)
Definition extractSubmissionData (platform : string) (page : Page)
  : JsError + SubmissionData :=
  match (if String.eqb platform "leetcode" then leetcodeFields platform page
         else inr (justPlatform platform)) with
  | inl e => inl e
  | inr data =>
      match logSubmission data with
      | inl e => inl e
      | inr _ => inr data
      end
  end.

(** The detector of a page session: the platform is detected once, when
    the script loads on [loaded]; the observer then handles the batches. *)
Definition detector (loaded : Page) (batches : list Page) : list Message :=
  observe (isSuccessfulSubmission (detectPlatform loaded))
          (extractSubmissionData (detectPlatform loaded)) batches.

End ContentBasic.

(** *** The content script with fallback strategies *)

Module ContentFull.
Import Text Slug Dom Content.

(** [isSuccessfulSubmission()] of a detector for [platform]. *)
Definition isSuccessfulSubmission (platform : string) (page : Page) : bool :=
  if String.eqb platform "leetcode" then
    present page ".success-icon"
    || present page "[data-e2e-locator=console-result] .text-green-s"
    || present page ".result-success"
    || present page "[data-testid=success-icon]"
    || present page ".text-green-600"
    || present page ".text-green-500"
    || present page "[class*=text-green]"
    || present page "[class*=success]"
    || includes "Accepted" (innerText page)
    || includes "Success" (innerText page)
    || includes "Runtime:" (innerText page)
    || includes "Memory:" (innerText page)
  else if String.eqb platform "codeforces" then
    includes "Accepted" (innerText page)
    || present page ".verdict-accepted"
    || present page ".accepted"
    || present page "[class*=accepted]"
  else if String.eqb platform "codechef" then
    includes "Success" (innerText page)
    || includes "Accepted" (innerText page)
    || present page ".result-success"
    || present page "[class*=success]"
  else false.

Definition titleSelectors : list string :=
  [ "[data-cy=question-title]"; "h1[class*=text-title-large]";
    "div[class*=text-title-large]"; ".text-title-large";
    "h1[class*=text-label-1]"; "div[class*=text-label-1]"; ".text-label-1";
    "h1[class*=font-medium]"; "div[class*=font-medium]";
    "h1[class*=mr-2]"; "div[class*=mr-2]";
    "[class*=question-title]"; "[class*=problem-title]";
    ".text-lg.font-medium"; ".text-xl.font-medium"; ".text-2xl.font-medium";
    ".title-text"; ".css-v3d350"; "h1[class*=text]"; ".question-title";
    "h1"; ".title"; "[role=heading]" ].

Definition not_slash (c : ascii) : bool := negb (Ascii.eqb c slash).
Definition not_hyphen (c : ascii) : bool := negb (is_hyphen c).
Definition is_upper_or_digit (c : ascii) : bool := is_upper c || is_digit c.

(** The title found by [extractLeetCodeProblemId] before its last resort:
    the selectors, then the address ([/\/problems\/([^/]+)/]), then the
    document title ([/^([^-]+)/]). *)
Definition leetCodeTitle (page : Page) : option string :=
  match firstText page titleSelectors with
  | Some t => Some t
  | None =>
      match match_after "/problems/" not_slash (pathname page) with
      | Some g => Some (hyphensToSpaces g)
      | None =>
          if truthy (documentTitle page) then
            match take_while not_hyphen (documentTitle page) with
            | EmptyString => None
            | g => if truthy (trim g) then Some (trim g) else None
            end
          else None
      end
  end.

(** [extractLeetCodeProblemId()]; nothing in its body throws. *)
Definition extractLeetCodeProblemId (page : Page) : string :=
  titleSlug
    (match leetCodeTitle page with
     | Some t => t
     | None => "leetcode-problem-" +:+ numberToString (now page)
     end).

(** The three methods of [extractLeetCodeCode] before its test. *)
Definition leetCodeCode (page : Page) : string :=
  let code1 :=
    match querySelector page ".monaco-editor" with
    | Some editor =>
        match querySelectorIn editor ".view-lines" with
        | Some t => if truthy t then trim t else EmptyString
        | None => EmptyString
        end
    | None => EmptyString
    end in
  let code2 :=
    if truthy code1 then code1
    else
      match querySelector page ".CodeMirror-code" with
      | Some codeMirror =>
          if truthy (textContent codeMirror) then trim (textContent codeMirror)
          else code1
      | None => code1
      end in
  if truthy code2 then code2
  else
    match querySelector page "textarea[data-mode]" with
    | Some textarea =>
        if truthy (value textarea) then trim (value textarea) else code2
    | None => code2
    end.

(** [extractLeetCodeCode()] *)
Definition extractLeetCodeCode (page : Page) : JsError + string :=
  if truthy (leetCodeCode page) then inr (leetCodeCode page)
  else inl (Error "No code content found").

Definition languageSelectors : list string :=
  [ ".language-btn"; "button[id*=headlessui-listbox-button]";
    "[data-track-load=description_page]"; ".text-xs.font-medium.text-label-2";
    "button[class*=language]"; "select[name=lang]" ].

(** [extractLeetCodeLanguage()]; nothing in its body throws. *)
Definition extractLeetCodeLanguage (page : Page) : string :=
  toLowerCase
    (match firstText page languageSelectors with
     | Some l => l
     | None => orString (langParam page) "javascript"
     end).

Definition difficultyIn (text : string) : option Store.Difficulty :=
  if includes "easy" text then Some Store.easy
  else if includes "medium" text then Some Store.medium
  else if includes "hard" text then Some Store.hard
  else None.

(** [extractLeetCodeDifficulty()] *)
Definition extractLeetCodeDifficulty (page : Page) : option Store.Difficulty :=
  match orElse (querySelector page "[diff]")
          (orElse (querySelector page ".css-10o4wqw")
                  (querySelector page "[data-difficulty]")) with
  | None => difficultyIn (toLowerCase (innerText page))
  | Some difficultyElement =>
      difficultyIn (toLowerCase (textContent difficultyElement))
  end.

(** [extractLeetCodeTitle()] *)
Definition extractLeetCodeTitle (page : Page) : option string :=
  firstText page
    [ ".title-text"; "[data-cy=question-title]"; ".css-v3d350";
      ".text-title-large";
      ".mr-2.text-label-1.dark\:text-dark-label-1.font-medium";
      "h1[class*=text]"; "[class*=question-title]"; ".question-title"; "h1" ].

(** The problem id of Codeforces and CodeChef: the capital letters and
    digits after [marker] in the address, lower-cased; else the slug of
    the text of [titleSelector]; else ['unknown']. *)
Definition problemIdFrom (marker titleSelector : string) (page : Page) : string :=
  match match_after marker is_upper_or_digit (href page) with
  | Some g => toLowerCase g
  | None =>
      match option_map textContent (querySelector page titleSelector) with
      | Some t => if truthy t then titleSlug t else "unknown"
      | None => "unknown"
      end
  end.

(** [extractCodeforceProblemId()] *)
Definition extractCodeforceProblemId : Page -> string :=
  problemIdFrom "problem/" ".title".

(** The code of Codeforces and CodeChef: the first of three elements. *)
Definition codeFrom (s1 s2 s3 : string) (page : Page) : JsError + string :=
  match orElse (querySelector page s1)
          (orElse (querySelector page s2) (querySelector page s3)) with
  | None => inl (Error "Could not find code editor")
  | Some codeElement =>
      let code :=
        if truthy (textContent codeElement) then textContent codeElement
        else value codeElement in
      if truthy code then inr (trim code)
      else inl (Error "No code content found")
  end.

(** [extractCodeforceCode()] *)
Definition extractCodeforceCode : Page -> JsError + string :=
  codeFrom "textarea[name=sourceCode]" ".CodeMirror-code" "#program-source-text".

(** The language of Codeforces and CodeChef: the selected option. *)
Definition languageFrom (selector : string) (page : Page) : JsError + string :=
  match querySelector page selector with
  | None => inl (Error "Could not find language selector")
  | Some langSelect =>
      match selectedOption langSelect with
      | Some language =>
          if truthy language then inr (toLowerCase language)
          else inl (Error "No language selected")
      | None => inl (Error "No language selected")
      end
  end.

(** [extractCodeforceLanguage()] *)
Definition extractCodeforceLanguage : Page -> JsError + string :=
  languageFrom "select[name=programTypeId]".

(** [extractCodeforceTitle()] *)
Definition extractCodeforceTitle (page : Page) : option string :=
  option_map (fun e => trim (textContent e))
    (orElse (querySelector page ".title")
            (querySelector page ".problem-statement .title")).

(** [extractCodechefProblemId()] *)
Definition extractCodechefProblemId : Page -> string :=
  problemIdFrom "problems/" ".problem-title".

(** [extractCodechefCode()] *)
Definition extractCodechefCode : Page -> JsError + string :=
  codeFrom "#solution_code" ".CodeMirror-code" "textarea[name=code]".

(** [extractCodechefLanguage()] *)
Definition extractCodechefLanguage : Page -> JsError + string :=
  languageFrom "#language".

(** [extractCodechefTitle()] *)
Definition extractCodechefTitle (page : Page) : option string :=
  option_map (fun e => trim (textContent e))
    (orElse (querySelector page ".problem-title")
            (orElse (querySelector page "h1") (querySelector page ".title"))).

(** The [try] block of [extractSubmissionData]: the object literal of the
    case of the platform, its fields in the order they are evaluated; an
    exception leaves [data] as it was. *)
Definition extractFields (platform : string) (page : Page)
  : JsError + SubmissionData :=
  if String.eqb platform "leetcode" then
    let pid := extractLeetCodeProblemId page in
    match extractLeetCodeCode page with
    | inl e => inl e
    | inr c =>
        inr {| platform := platform; problemId := Some pid; code := Some c;
               language := Some (extractLeetCodeLanguage page);
               difficulty := extractLeetCodeDifficulty page;
               title := extractLeetCodeTitle page |}
    end
  else if String.eqb platform "codeforces" then
    let pid := extractCodeforceProblemId page in
    match extractCodeforceCode page with
    | inl e => inl e
    | inr c =>
        match extractCodeforceLanguage page with
        | inl e => inl e
        | inr lang =>
            inr {| platform := platform; problemId := Some pid; code := Some c;
                   language := Some lang; difficulty := None;
                   title := extractCodeforceTitle page |}
        end
    end
  else if String.eqb platform "codechef" then
    let pid := extractCodechefProblemId page in
    match extractCodechefCode page with
    | inl e => inl e
    | inr c =>
        match extractCodechefLanguage page with
        | inl e => inl e
        | inr lang =>
            inr {| platform := platform; problemId := Some pid; code := Some c;
                   language := Some lang; difficulty := None;
                   title := extractCodechefTitle page |}
        end
    end
  else inr (justPlatform platform).

(** The [catch] block of [extractSubmissionData], on the [data] it finds. *)
Definition withFallbacks (page : Page) (data : SubmissionData) : SubmissionData :=
  {| platform := platform data;
     problemId :=
       Some (orString (problemId data) ("unknown-" +:+ numberToString (now page)));
     code := Some (orString (code data) "// Code extraction failed");
     language := Some (orString (language data) "unknown");
     difficulty := difficulty data;
     title := title data |}.

(** [extractSubmissionData()] *)
Definition extractSubmissionData (platform : string) (page : Page)
  : JsError + SubmissionData :=
  let data :=
    match extractFields platform page with
    | inr data => data
    | inl _ => withFallbacks page (justPlatform platform)
    end in
  match logSubmission data with
  | inl e => inl e
  | inr _ => inr data
  end.

(** The detector of a page session: the platform is detected once, when
    the script loads on [loaded]; the observer then handles the batches. *)
Definition detector (loaded : Page) (batches : list Page) : list Message :=
  observe (isSuccessfulSubmission (detectPlatform loaded))
          (extractSubmissionData (detectPlatform loaded)) batches.

(** A LeetCode page after an accepted submission: the title, the editor
    and the language button are there. *)
Definition accepted_page : Page :=
  {| hostname := "leetcode.com";
     pathname := "/problems/two-sum/";
     href := "https://leetcode.com/problems/two-sum/";
     langParam := None;
     documentTitle := "Two Sum - LeetCode";
     innerText := "1. Two Sum Easy Accepted Runtime: 2 ms";
     elements :=
       [ (".success-icon",
          {| textContent := ""; value := ""; selectedOption := None; inner := [] |});
         ("[class*=success]",
          {| textContent := ""; value := ""; selectedOption := None; inner := [] |});
         (".text-title-large",
          {| textContent := "1. Two Sum"; value := ""; selectedOption := None;
             inner := [] |});
         (".monaco-editor",
          {| textContent := "return [i, j]"; value := ""; selectedOption := None;
             inner := [(".view-lines", "return [i, j]")] |});
         (".language-btn",
          {| textContent := "Python3"; value := ""; selectedOption := None;
             inner := [] |}) ];
     now := 1736071200000 |}.

(** The same page when no editor is found in it. *)
Definition no_editor_page : Page :=
  {| hostname := "leetcode.com";
     pathname := "/problems/two-sum/";
     href := "https://leetcode.com/problems/two-sum/";
     langParam := None;
     documentTitle := "Two Sum - LeetCode";
     innerText := "1. Two Sum Easy Accepted Runtime: 2 ms";
     elements :=
       [ (".success-icon",
          {| textContent := ""; value := ""; selectedOption := None; inner := [] |});
         ("[class*=success]",
          {| textContent := ""; value := ""; selectedOption := None; inner := [] |});
         (".text-title-large",
          {| textContent := "1. Two Sum"; value := ""; selectedOption := None;
             inner := [] |});
         (".language-btn",
          {| textContent := "Python3"; value := ""; selectedOption := None;
             inner := [] |}) ];
     now := 1736071200000 |}.

End ContentFull.

(** ** File-name stems and paths: the shape of what the service writes *)

Module Stem.
Import Text Slug.

(** Every character is one of [[a-z0-9-_]]. *)
Fixpoint file_chars (s : string) : bool :=
  match s with
  | EmptyString => true
  | String c s' => is_file_char c && file_chars s'
  end.

Definition starts_with_hyphen (s : string) : bool :=
  match s with
  | String c _ => is_hyphen c
  | EmptyString => false
  end.

Fixpoint ends_with_hyphen (s : string) : bool :=
  match s with
  | EmptyString => false
  | String c EmptyString => is_hyphen c
  | String _ s' => ends_with_hyphen s'
  end.

(** A clean stem: characters of [[a-z0-9-_]] only, no two hyphens in a
    row, no hyphen at either end. *)
Definition clean (s : string) : bool :=
  file_chars s && squeezed s
  && negb (starts_with_hyphen s) && negb (ends_with_hyphen s).

(** The number of occurrences of a character. *)
Fixpoint count_char (c : ascii) (s : string) : nat :=
  match s with
  | EmptyString => O
  | String d s' => ((if Ascii.eqb d c then 1 else 0) + count_char c s')%nat
  end.

(** The values of [langMap] and the default. *)
Definition extensions : list string :=
  ["js"; "ts"; "py"; "java"; "cpp"; "rb"; "go"; "rs"; "txt"].

End Stem.

(** ** Requests of the service, for any client *)

Module Trace.
Import GitHub.

(** The service once some requests were answered: the world they leave
    and the requests added to those sent. *)
Definition after {W} (s : Service W) (w : W) (reqs : list Request) : Service W :=
  {| owner := owner s; repo := repo s; world := w;
     sent := (sent s ++ reqs)%list |}.

(** The request reads or writes the file [p] of the repository [o]/[r]. *)
Definition targets (o r p : string) (req : Request) : bool :=
  match req with
  | ReqGetContent o' r' p' => String.eqb o o' && String.eqb r r' && String.eqb p p'
  | ReqPutContent o' r' p' _ _ _ =>
      String.eqb o o' && String.eqb r r' && String.eqb p p'
  | _ => false
  end.

(** The request changes the remote. *)
Definition is_write (req : Request) : bool :=
  match req with
  | ReqPutContent _ _ _ _ _ _ => true
  | ReqCreateRepo _ _ _ => true
  | _ => false
  end.

(** A client all of whose requests fail with the given status. *)
Definition failing (status : Z) : Octokit unit := {|
  createForAuthenticatedUser name private description w :=
    (inl (Remote.failure "Request failed" status), w);
  reposGet o r w := (inl (Remote.failure "Request failed" status), w);
  getContent o r p w := (inl (Remote.failure "Request failed" status), w);
  createOrUpdateFileContents o r p msg content sha w :=
    (inl (Remote.failure "Request failed" status), w)
|}.

(** A client whose repositories exist but cannot be pushed to, and whose
    other requests fail with status 403. *)
Definition read_only : Octokit unit := {|
  createForAuthenticatedUser name private description w :=
    (inl (Remote.failure "Resource not accessible" 403), w);
  reposGet o r w :=
    (inr {| repo_owner := Some o; repo_name := r;
            html_url := "https://github.com/" +:+ o +:+ "/" +:+ r;
            can_push := Some false |}, w);
  getContent o r p w := (inl (Remote.failure "Not Found" 404), w);
  createOrUpdateFileContents o r p msg content sha w :=
    (inl (Remote.failure "Resource not accessible" 403), w)
|}.

(** A client for which the repository to create exists already (status
    422) and cannot be read (status 404). *)
Definition name_taken : Octokit unit := {|
  createForAuthenticatedUser name private description w :=
    (inl (Remote.failure "name already exists on this account" 422), w);
  reposGet o r w := (inl (Remote.failure "Not Found" 404), w);
  getContent o r p w := (inl (Remote.failure "Not Found" 404), w);
  createOrUpdateFileContents o r p msg content sha w := (inr tt, w)
|}.

End Trace.

(** ** Files made sure of over the ideal remote *)

Module Ensure.
Import GitHub Remote.

Section Files.
Context (sha_of : string -> string) (o r : string).
Context {A : Type} (pathOf contentOf messageOf : A -> string).

(** The remote after [if (!(await checkFileExists(p))) await createFile(p,
    content, message)]. *)
Definition ensure_file (x : A) (w : gmap (string * string * string) RemoteFile)
  : gmap (string * string * string) RemoteFile :=
  match w !! (o, r, pathOf x) with
  | Some _ => w
  | None => <[(o, r, pathOf x) := stored sha_of (base64 (contentOf x))]> w
  end.

(** Its requests. *)
Definition ensure_requests (x : A) (w : gmap (string * string * string) RemoteFile)
  : list Request :=
  ReqGetContent o r (pathOf x) ::
  match w !! (o, r, pathOf x) with
  | Some _ => []
  | None =>
      [ReqPutContent o r (pathOf x) (messageOf x) (base64 (contentOf x)) None]
  end.

Fixpoint ensured (xs : list A) (w : gmap (string * string * string) RemoteFile)
  : gmap (string * string * string) RemoteFile :=
  match xs with
  | [] => w
  | x :: xs' => ensured xs' (ensure_file x w)
  end.

Fixpoint requests (xs : list A) (w : gmap (string * string * string) RemoteFile)
  : list Request :=
  match xs with
  | [] => []
  | x :: xs' => (ensure_requests x w ++ requests xs' (ensure_file x w))%list
  end.

End Files.

(** The files of [initializeFolders], first version: the README of the
    repository and one per folder. *)
Definition readmes : list (string * string * string) :=
  ("README.md", GitHubV1.generateRepositoryReadme,
   "Initial commit: Setup repository structure") ::
  map (fun folder =>
         (fst folder +:+ "/README.md",
          GitHubV1.generateFolderReadme (fst folder) (snd folder),
          "Initialize " +:+ fst folder +:+ " folder"))
      GitHubV1.folders.

End Ensure.

(** ** Methods that keep the target of the service *)

Module Target.
Import GitHub.

(** The method leaves [this.owner] and [this.repo] as they are. *)
Definition keeps {W A} (m : Prog W A) : Prop :=
  forall s, owner (snd (m s)) = owner s /\ repo (snd (m s)) = repo s.

End Target.

(** ** Runs of streak updates, and the streak message (utils/streak.ts) *)

Module Run.
Import JsDate Store Streak.



(** The store after [updateStreak] at each push, one call after the
    other. *)
Definition updateStreaks {host : Host} (pushes : list (Z * Z)) (st : Storage)
  : Storage :=
  fold_left (fun st push => fst (updateStreak (fst push) (snd push) st)) pushes st.



End Run.

Module StreakMessage.

(** [getStreakEmoji(streak)] *)
Definition getStreakEmoji (streak : Z) : string :=
  if 100 <=? streak then "🌟"
  else if 50 <=? streak then "🏆"
  else if 30 <=? streak then "💎"
  else if 7 <=? streak then "🔥"
  else "✨".

(** [formatStreakMessage(streak)] *)
Definition formatStreakMessage (streak : Z) : string :=
  getStreakEmoji streak +:+ " " +:+ Dom.numberToString streak
  +:+ "-Day Streak! Keep it up! 💪".

End StreakMessage.

(** ** The counters of the store *)

Module Counters.
Import Store Daily.

(** The sum of [f] over the buckets, from the left. *)
Definition sumOf (f : DailySubmissionData -> Z) (l : list DailySubmissionData) : Z :=
  fold_left (fun sum day => sum + f day) l 0.

(** SubmissionCalendar.tsx:
    [dailySubmissions.reduce((sum, day) => sum + day.submissions, 0)] *)
Definition totalSubmissions (l : list DailySubmissionData) : Z :=
  sumOf submissions l.

(** A bucket counts at least one submission, and its difficulty counters
    are not negative and count no more than the bucket. *)
Definition bucket_counted (b : DailySubmissionData) : Prop :=
  1 <= submissions b /\
  0 <= p_easy (problems b) /\ 0 <= p_medium (problems b) /\
  0 <= p_hard (problems b) /\
  p_easy (problems b) + p_medium (problems b) + p_hard (problems b)
    <= submissions b.

(** The counters of the store agree with its buckets. *)
Definition counted (st : Storage) : Prop :=
  Forall bucket_counted (buckets st) /\
  totalSubmissions (buckets st) <= or0 (totalSolved st) /\
  sumOf (fun b => p_easy (problems b)) (buckets st) <= or0 (easyCount st) /\
  sumOf (fun b => p_medium (problems b)) (buckets st) <= or0 (mediumCount st) /\
  sumOf (fun b => p_hard (problems b)) (buckets st) <= or0 (hardCount st) /\
  or0 (easyCount st) + or0 (mediumCount st) + or0 (hardCount st)
    <= or0 (totalSolved st).

End Counters.

(** ** The background script (background.ts) *)

Module Worker.
Import Text JsDate Store GitHub.

(** [chrome.notifications.create({ title, message })] *)
Record Notification := {
  n_title : string;
  n_message : string
}.

(** The state of the background script: the target of [githubService]
    ([null] when there is none), the remote and the requests sent to it,
    the store and the notifications shown. *)
Record State (W : Type) := {
  githubService : option (string * string);
  remote : W;
  requests : list Request;
  storage : Storage;
  shown : list Notification
}.
Arguments githubService {W}. Arguments remote {W}. Arguments requests {W}.
Arguments storage {W}. Arguments shown {W}.

(** What [handleNewSubmission] throws: an [Error] with a message, or what
    it caught, thrown again. *)
Inductive Failure :=
| Failed (msg : string)
| Rethrown (t : TransportError).

Definition savedNotification (streak : Z) (data : Daily.SubmissionData)
  : Notification :=
  {| n_title := "✅ Solution Saved to GitHub";
     n_message := StreakMessage.formatStreakMessage streak +:+ GitHubV1.nl
                  +:+ Daily.platform data +:+ " - " +:+ Daily.problemId data |}.

Definition achievementNotification (a : Streak.Achievement) : Notification :=
  {| n_title := Streak.emoji a +:+ " New Achievement!";
     n_message := Streak.message a |}.

Definition failedNotification (data : Daily.SubmissionData) : Notification :=
  {| n_title := "❌ Submission Failed";
     n_message := "Failed to save " +:+ Daily.platform data
                  +:+ " solution. Check settings." |}.

Section Handlers.
Context {host : Host} {W : Type} {client : Octokit W}.

(** [handleNewSubmission(data)]; [now1] and [later1] are the clock
    readings of [updateDailySubmissions], [now2] and [later2] those of
    [updateStreak].  The
    calls of [chrome.storage] and [chrome.notifications] answer: in the
    [try] block only [saveSolution] throws. *)
Definition handleNewSubmission (data : Daily.SubmissionData)
    (now1 later1 now2 later2 : Z)
    (bg : State W) : (Failure + unit) * State W :=
  match githubService bg with
  | None =>
      (inl (Failed "GitHub service not initialized. Please check your settings."),
       bg)
  | Some (o, r) =>
      match saveSolution (Daily.platform data) (Daily.problemId data)
              (Daily.code data) (Daily.language data)
              {| owner := o; repo := r; world := remote bg;
                 sent := requests bg |} with
      | (Return _, service) =>
          let st1 := Daily.updateDailySubmissions data now1 later1 (storage bg) in
          let '(st2, (streak, newAchievements)) :=
            Streak.updateStreak now2 later2 st1 in
          (inr tt,
           {| githubService := Some (owner service, repo service);
              remote := world service; requests := sent service;
              storage := st2;
              shown := (shown bg ++ savedNotification streak data ::
                        map achievementNotification newAchievements)%list |})
      | (Throw error, service) =>
          let bg' :=
            {| githubService := Some (owner service, repo service);
               remote := world service; requests := sent service;
               storage := storage bg;
               shown := (shown bg ++ [failedNotification data])%list |} in
          match error with
          | ThrownGitHubError e =>
              (inl (Failed ("GitHub Error: " +:+ message e +:+ " (" +:+ code e
                            +:+ ")")), bg')
          | ThrownTransport t => (inl (Rethrown t), bg')
          end
      end
  end.

End Handlers.

(** [handleDailyCheck()], with the setting [notifications] of the store
    and the reading [now] of the clock: the notifications it shows. *)
Definition handleDailyCheck (notifications : bool) (now : Z) (st : Storage)
  : list Notification :=
  let stats := Streak.getStreakStats st in
  let today := isoDate now in
  if notifications && negb (String.eqb (Streak.sd_lastPushDate stats) today)
  then [ {| n_title := "Daily Reminder";
            n_message := "Don't forget to code today! "
                         +:+ StreakMessage.formatStreakMessage
                               (Streak.sd_streak stats) |} ]
  else [].

(** The messages of the listener that change the state. *)
Inductive Message :=
| NEW_SUBMISSION (data : Daily.SubmissionData) (now1 later1 now2 later2 : Z)
| GITHUB_CONFIG_UPDATED (token owner repo : string).

(** What the sender of a message receives: [{ success: true }],
    [{ success: false, error }], or nothing when the listener threw. *)
Inductive Reply :=
| Success
| Failure_ (error : option string)
| NoReply.

(** [error.message] *)
Definition failureMessage (f : Failure) : option string :=
  match f with
  | Failed msg => Some msg
  | Rethrown (RequestError msg _ _) => Some msg
  | Rethrown NotAnError => None
  end.

Section Listener.
Context {host : Host} {W : Type} {client : Octokit W}.

(** The listener of [chrome.runtime.onMessage]. *)
Definition onMessage (m : Message) (bg : State W) : Reply * State W :=
  match m with
  | NEW_SUBMISSION data now1 later1 now2 later2 =>
      match handleNewSubmission data now1 later1 now2 later2 bg with
      | (inr _, bg') => (Success, bg')
      | (inl f, bg') => (Failure_ (failureMessage f), bg')
      end
  | GITHUB_CONFIG_UPDATED token o r =>
      match construct token o r (remote bg) with
      | inr service =>
          (Success,
           {| githubService := Some (owner service, repo service);
              remote := remote bg; requests := requests bg;
              storage := storage bg; shown := shown bg |})
      | inl _ => (NoReply, bg)
      end
  end.

(** The state after the messages, one after the other, with the replies. *)
Fixpoint onMessages (ms : list Message) (bg : State W) : list Reply * State W :=
  match ms with
  | [] => ([], bg)
  | m :: rest =>
      let '(reply, bg1) := onMessage m bg in
      let '(replies, bg2) := onMessages rest bg1 in
      (reply :: replies, bg2)
  end.

End Listener.

(** The script before any configuration, over the empty remote. *)
Definition installed : State (gmap (string * string * string) Remote.RemoteFile) :=
  {| githubService := None; remote := ∅; requests := [];
     storage := Store.empty; shown := [] |}.

End Worker.

(** ** Strings over a class of characters *)

Module Chars.

(** Every character of [s] satisfies [p]. *)
Fixpoint all_chars (p : ascii -> bool) (s : string) : bool :=
  match s with
  | EmptyString => true
  | String c s' => p c && all_chars p s'
  end.

End Chars.

(** ** The pages of the extension *)

Module Pages.
Import Store.

(** achievements/achievements.tsx, [Badge]. *)
Record Badge := {
  badge_id : string;
  name : string;
  desc : string;
  earned : bool
}.

(** achievements.tsx, [earnedBadges]: built from the keys [streak] and
    [totalSolved] of the store. *)
Definition earnedBadges (st : Storage) : list Badge :=
  let streak := or0 (Store.streak st) in
  let solved := or0 (totalSolved st) in
  [ {| badge_id := "streak7"; name := "🔥 7-Day Streak";
       desc := "Solve daily for 7 days"; earned := 7 <=? streak |};
    {| badge_id := "streak30"; name := "🔥 30-Day Streak";
       desc := "1 month consistency"; earned := 30 <=? streak |};
    {| badge_id := "easy10"; name := "🟢 Easy Master";
       desc := "10 Easy problems solved"; earned := 10 <=? solved |};
    {| badge_id := "hard5"; name := "🔴 Hard Grinder";
       desc := "5 Hard problems solved"; earned := 5 <=? solved |} ].

(** The badge [id] is shown as earned. *)
Definition isEarned (id : string) (st : Storage) : bool :=
  match List.find (fun b => String.eqb (badge_id b) id) (earnedBadges st) with
  | Some b => earned b
  | None => false
  end.

(** The loop of [calculateMaxStreak] of the calendar of the settings
    page, over [sortedData]. *)
Fixpoint maxStreakLoop (sortedData : list DailySubmissionData)
    (maxStreak currentStreak : Z) : Z :=
  match sortedData with
  | [] => maxStreak
  | d :: rest =>
      if 0 <? submissions d
      then maxStreakLoop rest (Z.max maxStreak (currentStreak + 1)) (currentStreak + 1)
      else maxStreakLoop rest maxStreak 0
  end.

(** [calculateMaxStreak(monthData)], given the array [sortedData] that
    [monthData.sort(...)] returns. *)
Definition calculateMaxStreak (sortedData : list DailySubmissionData) : Z :=
  maxStreakLoop sortedData 0 0.

(** [monthlySubmissions.filter(day => day.submissions > 0).length] *)
Definition activeDays (monthlySubmissions : list DailySubmissionData) : Z :=
  Z.of_nat (length (List.filter (fun day => 0 <? submissions day) monthlySubmissions)).

(** popup/App.tsx, the handler of the button [+1 Manual Boost], on the
    keys it shares with the background script: [streak] and [easy] are
    the values the popup shows; the keys [lastUpdated] and [dailyData] it
    also writes are read by the popup only. *)
Definition manualBoost (streak easy : Z) (st : Storage) : Storage :=
  {| Store.streak := Some (streak + 1);
     lastPushDate := lastPushDate st;
     longestStreak := longestStreak st;
     unlockedAchievements := unlockedAchievements st;
     dailySubmissions := dailySubmissions st;
     totalSolved := totalSolved st;
     easyCount := Some (easy + 1);
     mediumCount := mediumCount st;
     hardCount := hardCount st;
     lastSubmissionDate := lastSubmissionDate st |}.

(** A first push at ten o'clock on 2025-01-01, the button pressed in the
    popup, which shows the stored values, and a second push at eight in
    the evening of the same day. *)
Definition first_push : Storage :=
  fst (Streak.updateStreak (host := JsDate.utc)
         (20089 * JsDate.ms_per_day + 36000000)
         (20089 * JsDate.ms_per_day + 36000001) Store.empty).

Definition boosted_push : Storage :=
  manualBoost (or0 (Store.streak first_push)) (or0 (easyCount first_push))
    first_push.

Definition second_push : Storage :=
  fst (Streak.updateStreak (host := JsDate.utc)
         (20089 * JsDate.ms_per_day + 72000000)
         (20089 * JsDate.ms_per_day + 72000001) boosted_push).

(** The store after seven pushes on seven days in a row, ending on
    2025-01-07. *)
Definition week : Storage :=
  Run.updateStreaks (host := JsDate.utc)
    (map (fun i => ((20089 + i) * JsDate.ms_per_day,
                    (20089 + i) * JsDate.ms_per_day + 1))
         [0; 1; 2; 3; 4; 5; 6])
    Store.empty.

End Pages.

(* ================================================================== *)
(** * Part II: properties                                              *)
(* ================================================================== *)

Section SlugExamples.
Import Slug.

Example sanitize_two_sum : sanitizeFileName "Two Sum! (Easy)" = "two-sum-easy".
Proof. reflexivity. Qed.

Example titleSlug_two_sum : titleSlug "Two Sum! (Easy)" = "two-sum-easy".
Proof. reflexivity. Qed.

Example spec_two_sum : slugify_spec "Two Sum! (Easy)" = "two-sum-easy".
Proof. reflexivity. Qed.

Example sanitize_underscore : sanitizeFileName "a_b" = "a_b".
Proof. reflexivity. Qed.

Example spec_underscore : slugify_spec "a_b" = "a-b".
Proof. reflexivity. Qed.

Example sanitize_edges : sanitizeFileName "--A  b--c__" = "a-b-c__".
Proof. reflexivity. Qed.

End SlugExamples.

(** ** Slugification *)

Section SlugFacts.
Import Text Slug.

Lemma is_slug_not_hyphen c : is_slug_char c = true -> is_hyphen c = false.
Proof.
  unfold is_slug_char, is_hyphen, is_lower, is_digit, in_range, code, hyphen.
  destruct (Ascii.eqb_spec c "-"%char) as [->|]; [vm_compute; intros; discriminate | reflexivity].
Qed.

Lemma lower_char_not_underscore c :
  Ascii.eqb c underscore = false -> Ascii.eqb (lower_char c) underscore = false.
Proof.
  destruct c as [[] [] [] [] [] [] [] []]; vm_compute; congruence.
Qed.

Lemma toLowerCase_no_underscore s :
  has_underscore s = false -> has_underscore (toLowerCase s) = false.
Proof.
  induction s as [|c s IH]; simpl; [reflexivity|].
  intros H. apply orb_false_iff in H as [Hc Hs].
  rewrite lower_char_not_underscore by assumption. simpl. auto.
Qed.

(** Without underscores the file-name class is the slug class plus the
    hyphen. *)
Lemma is_file_char_slug c :
  Ascii.eqb c underscore = false ->
  is_file_char c = is_slug_char c || is_hyphen c.
Proof.
  intros H. unfold is_file_char, is_slug_char, is_hyphen.
  rewrite H, orb_false_r. reflexivity.
Qed.

(** Replacing each foreign character and then squeezing hyphens is
    replacing each run of them. *)
Lemma squeeze_replace_each s :
  has_underscore s = false ->
  squeeze_hyphens (replace_each is_file_char s) = replace_runs is_slug_char s.
Proof.
  unfold squeeze_hyphens.
  induction s as [|c s IH]; [reflexivity|].
  intros H. simpl in H. apply orb_false_iff in H as [Hc Hs].
  specialize (IH Hs).
  cbn [replace_each replace_runs].
  rewrite (is_file_char_slug c Hc).
  destruct (is_slug_char c) eqn:Ec; cbn [orb].
  - rewrite (is_slug_not_hyphen c Ec). cbn [negb]. now rewrite IH.
  - assert (Hh : is_hyphen (if is_hyphen c then c else hyphen) = true).
    { destruct (is_hyphen c) eqn:Eh; [assumption | reflexivity]. }
    rewrite Hh. cbn [negb].
    destruct s as [|c' s']; [reflexivity|].
    cbn [replace_each].
    simpl in Hs. apply orb_false_iff in Hs as [Hc' Hs'].
    rewrite (is_file_char_slug c' Hc').
    destruct (is_slug_char c') eqn:Ec'; cbn [orb].
    + rewrite (is_slug_not_hyphen c' Ec'). cbn [negb].
      rewrite <- IH. cbn [replace_each]. rewrite (is_file_char_slug c' Hc'), Ec'.
      reflexivity.
    + assert (Hh' : is_hyphen (if is_hyphen c' then c' else hyphen) = true).
      { destruct (is_hyphen c') eqn:Eh; [assumption | reflexivity]. }
      rewrite Hh'. cbn [negb].
      rewrite <- IH. cbn [replace_each]. rewrite (is_file_char_slug c' Hc'), Ec'.
      reflexivity.
Qed.

(** A run of foreign characters becomes the hyphen written for its
    first character. *)
Lemma replace_runs_cons keep c s :
  replace_runs keep (String c s) =
  if keep c then String c (replace_runs keep s)
  else match s with
       | EmptyString => String hyphen EmptyString
       | String c' _ =>
           if keep c' then String hyphen (replace_runs keep s)
           else replace_runs keep s
       end.
Proof. reflexivity. Qed.

Lemma replace_runs_run keep c s :
  keep c = false ->
  replace_runs keep (String c s) =
  String hyphen (replace_runs keep (drop_while (fun x => negb (keep x)) s)).
Proof.
  revert c. induction s as [|c' s IH]; intros c Hc.
  - simpl. now rewrite Hc.
  - rewrite replace_runs_cons, Hc. cbn [drop_while].
    destruct (keep c') eqn:Ec'; cbn [negb]; [reflexivity|].
    now apply IH.
Qed.

Lemma hyphenate_runs_replace s :
  hyphenate_runs false s = replace_runs is_slug_char s /\
  hyphenate_runs true s =
    replace_runs is_slug_char (drop_while (fun x => negb (is_slug_char x)) s).
Proof.
  induction s as [|c s [IHf IHt]]; [split; reflexivity|].
  destruct (is_slug_char c) eqn:Ec.
  - split.
    + rewrite replace_runs_cons. cbn [hyphenate_runs]. rewrite Ec. now rewrite IHf.
    + cbn [hyphenate_runs drop_while]. rewrite Ec. cbn [negb].
      rewrite replace_runs_cons, Ec. now rewrite IHf.
  - split.
    + rewrite replace_runs_run by assumption.
      cbn [hyphenate_runs]. rewrite Ec. now rewrite IHt.
    + cbn [hyphenate_runs drop_while]. rewrite Ec. cbn [negb]. exact IHt.
Qed.

Lemma replace_runs_squeezed s : squeezed (replace_runs is_slug_char s) = true.
Proof.
  induction s as [|c s IH]; [reflexivity|].
  rewrite replace_runs_cons.
  destruct (is_slug_char c) eqn:Ec.
  - cbn [squeezed]. destruct (replace_runs is_slug_char s) eqn:Er; [reflexivity|].
    rewrite (is_slug_not_hyphen c Ec). simpl. exact IH.
  - destruct s as [|c' s']; [reflexivity|].
    destruct (is_slug_char c') eqn:Ec'; [|exact IH].
    revert IH. rewrite replace_runs_cons, Ec'.
    set (r := replace_runs is_slug_char s'). intros IH.
    change (squeezed (String hyphen (String c' r)))
      with (negb (is_hyphen hyphen && is_hyphen c') && squeezed (String c' r)).
    rewrite IH, (is_slug_not_hyphen c' Ec'). reflexivity.
Qed.

Lemma squeezed_tail c s : squeezed (String c s) = true -> squeezed s = true.
Proof.
  cbn [squeezed]. destruct s; [reflexivity|].
  intros H. apply andb_true_iff in H. tauto.
Qed.

Lemma strip_first_squeezed s :
  squeezed s = true -> strip_first_hyphen s = drop_while is_hyphen s.
Proof.
  destruct s as [|c s]; [reflexivity|].
  cbn [strip_first_hyphen drop_while squeezed].
  destruct (is_hyphen c) eqn:Ec; [|reflexivity].
  destruct s as [|c' s']; [reflexivity|].
  cbn [andb drop_while]. destruct (is_hyphen c'); [discriminate | reflexivity].
Qed.

Lemma strip_first_keeps_squeezed s :
  squeezed s = true -> squeezed (strip_first_hyphen s) = true.
Proof.
  destruct s as [|c s]; [reflexivity|]. intros H.
  cbn [strip_first_hyphen]. destruct (is_hyphen c); [|assumption].
  exact (squeezed_tail _ _ H).
Qed.

Lemma strip_last_empty c s :
  strip_last_hyphen (String c s) = EmptyString ->
  s = EmptyString /\ is_hyphen c = true.
Proof.
  destruct s as [|d s]; cbn [strip_last_hyphen].
  - destruct (is_hyphen c); [auto | discriminate].
  - discriminate.
Qed.

Lemma strip_last_squeezed s :
  squeezed s = true -> strip_last_hyphen s = drop_while_end is_hyphen s.
Proof.
  induction s as [|c s IH]; [reflexivity|]. intros Hsq.
  specialize (IH (squeezed_tail _ _ Hsq)).
  destruct s as [|d s]; [reflexivity|].
  change (strip_last_hyphen (String c (String d s)))
    with (String c (strip_last_hyphen (String d s))).
  change (drop_while_end is_hyphen (String c (String d s)))
    with (match drop_while_end is_hyphen (String d s) with
          | EmptyString => if is_hyphen c then EmptyString else String c EmptyString
          | r => String c r
          end).
  rewrite <- IH.
  destruct (strip_last_hyphen (String d s)) eqn:El; [|reflexivity].
  apply strip_last_empty in El as [-> Hd].
  cbn [squeezed] in Hsq. rewrite Hd in Hsq.
  destruct (is_hyphen c); [discriminate Hsq | reflexivity].
Qed.

Lemma drop_while_end_empty s :
  drop_while_end is_hyphen s = EmptyString <-> all_hyphens s = true.
Proof.
  induction s as [|c s IH]; [simpl; tauto|].
  cbn [drop_while_end all_hyphens].
  destruct (drop_while_end is_hyphen s) eqn:Ed.
  - destruct IH as [IH _]. rewrite (IH eq_refl), andb_true_r.
    destruct (is_hyphen c); split; congruence.
  - split; [discriminate|]. intros H. apply andb_true_iff in H as [_ H].
    destruct IH as [_ IH]. specialize (IH H). discriminate.
Qed.

Lemma rtrim_hyphens_drop s : rtrim_hyphens s = drop_while_end is_hyphen s.
Proof.
  induction s as [|c s IH]; [reflexivity|].
  cbn [rtrim_hyphens drop_while_end]. rewrite IH.
  destruct (all_hyphens (String c s)) eqn:Ea.
  - apply drop_while_end_empty in Ea. cbn [drop_while_end] in Ea.
    now rewrite Ea.
  - destruct (drop_while_end is_hyphen s) eqn:Ed; [|reflexivity].
    apply drop_while_end_empty in Ed. cbn [all_hyphens] in Ea.
    rewrite Ed, andb_true_r in Ea. now rewrite Ea.
Qed.

(** The extractor's slug is the rule of the specification. *)
Lemma titleSlug_spec title : titleSlug title = slugify_spec title.
Proof.
  unfold titleSlug, slugify_spec, trim_hyphens, ltrim_hyphens.
  rewrite rtrim_hyphens_drop.
  now rewrite (proj1 (hyphenate_runs_replace (toLowerCase title))).
Qed.

(** The file-name sanitiser agrees with the extractor's slug on names
    without underscore. *)
Lemma sanitizeFileName_titleSlug name :
  has_underscore name = false -> sanitizeFileName name = titleSlug name.
Proof.
  intros H. unfold sanitizeFileName, titleSlug, trim_hyphens.
  rewrite squeeze_replace_each by now apply toLowerCase_no_underscore.
  pose proof (replace_runs_squeezed (toLowerCase name)) as Hsq.
  rewrite strip_last_squeezed by now apply strip_first_keeps_squeezed.
  now rewrite strip_first_squeezed.
Qed.

End SlugFacts.

(** ** Slugs are fixed by the slug functions *)

Section SlugIdempotence.
Import Text Slug.

Lemma is_hyphen_eq c : is_hyphen c = true -> c = hyphen.
Proof. unfold is_hyphen. apply Ascii.eqb_eq. Qed.

Lemma lower_char_slug c :
  is_slug_char c || is_hyphen c = true -> lower_char c = c.
Proof.
  destruct c as [[] [] [] [] [] [] [] []]; vm_compute; congruence.
Qed.

Lemma toLowerCase_slug s : slug_chars s = true -> toLowerCase s = s.
Proof.
  induction s as [|c s IH]; simpl; [reflexivity|].
  intros [Hc Hs]%andb_true_iff. now rewrite lower_char_slug, IH.
Qed.

Lemma slug_no_underscore s : slug_chars s = true -> has_underscore s = false.
Proof.
  induction s as [|c s IH]; simpl; [reflexivity|].
  intros [Hc Hs]%andb_true_iff. rewrite IH by assumption.
  rewrite orb_false_r. revert Hc.
  destruct c as [[] [] [] [] [] [] [] []]; vm_compute; congruence.
Qed.

Lemma replace_runs_slug s :
  slug_chars s = true -> squeezed s = true ->
  replace_runs is_slug_char s = s.
Proof.
  induction s as [|c s IH]; [reflexivity|].
  intros Hc Hq. pose proof (squeezed_tail _ _ Hq) as Hq'.
  cbn [slug_chars] in Hc. apply andb_true_iff in Hc as [Hc Hs].
  specialize (IH Hs Hq'). rewrite replace_runs_cons.
  destruct (is_slug_char c) eqn:Ec; [now rewrite IH|].
  cbn [orb] in Hc. rewrite (is_hyphen_eq c Hc) in *.
  destruct s as [|c' s']; [reflexivity|].
  cbn [squeezed] in Hq. apply andb_true_iff in Hq as [Hn _].
  cbn [slug_chars] in Hs. apply andb_true_iff in Hs as [Hc' _].
  destruct (is_slug_char c') eqn:Ec'; [now rewrite IH|].
  cbn [orb] in Hc'. rewrite Hc' in Hn. vm_compute in Hn. discriminate.
Qed.

Lemma replace_runs_slug_chars s : slug_chars (replace_runs is_slug_char s) = true.
Proof.
  induction s as [|c s IH]; [reflexivity|].
  rewrite replace_runs_cons. destruct (is_slug_char c) eqn:Ec.
  - cbn [slug_chars]. now rewrite Ec, IH.
  - destruct s as [|c' s']; [reflexivity|].
    destruct (is_slug_char c'); [|exact IH].
    cbn [slug_chars]. rewrite IH. reflexivity.
Qed.

Lemma drop_while_slug_chars p s :
  slug_chars s = true -> slug_chars (drop_while p s) = true.
Proof.
  induction s as [|c s IH]; simpl; [auto|].
  intros H. destruct (p c); [|exact H].
  apply andb_true_iff in H as [_ H]. auto.
Qed.

Lemma drop_while_squeezed p s :
  squeezed s = true -> squeezed (drop_while p s) = true.
Proof.
  induction s as [|c s IH]; [auto|].
  intros H. cbn [drop_while]. destruct (p c); [|exact H].
  apply IH. exact (squeezed_tail _ _ H).
Qed.

(** What [drop_while_end] keeps starts as the string does. *)
Lemma drop_while_end_cons p s :
  match drop_while_end p s with
  | EmptyString => True
  | String d _ => exists s', s = String d s'
  end.
Proof.
  destruct s as [|c s]; simpl; [exact I|].
  destruct (drop_while_end p s); [destruct (p c)|]; simpl; eauto.
Qed.

Lemma drop_while_end_slug_chars p s :
  slug_chars s = true -> slug_chars (drop_while_end p s) = true.
Proof.
  induction s as [|c s IH]; [auto|].
  cbn [slug_chars drop_while_end]. intros [Hc Hs]%andb_true_iff.
  specialize (IH Hs).
  destruct (drop_while_end p s) as [|d r].
  - destruct (p c); [reflexivity|]. cbn [slug_chars]. now rewrite Hc.
  - cbn [slug_chars] in *. now rewrite Hc, IH.
Qed.

Lemma drop_while_end_squeezed p s :
  squeezed s = true -> squeezed (drop_while_end p s) = true.
Proof.
  induction s as [|c s IH]; [auto|].
  intros Hq. specialize (IH (squeezed_tail _ _ Hq)).
  cbn [drop_while_end]. pose proof (drop_while_end_cons p s) as Hh.
  destruct (drop_while_end p s) as [|d r].
  - destruct (p c); reflexivity.
  - destruct Hh as [s' ->]. cbn [squeezed] in Hq.
    apply andb_true_iff in Hq as [Hn _].
    change (squeezed (String c (String d r)))
      with (negb (is_hyphen c && is_hyphen d) && squeezed (String d r)).
    now rewrite Hn, IH.
Qed.

Lemma drop_while_fixed p s :
  drop_while p (drop_while p s) = drop_while p s.
Proof.
  induction s as [|c s IH]; [reflexivity|].
  cbn [drop_while]. destruct (p c) eqn:E; [exact IH|].
  cbn [drop_while]. now rewrite E.
Qed.

Lemma drop_while_end_fixed p s :
  drop_while_end p (drop_while_end p s) = drop_while_end p s.
Proof.
  induction s as [|c s IH]; [reflexivity|].
  cbn [drop_while_end].
  destruct (drop_while_end p s) as [|d r] eqn:E.
  - destruct (p c) eqn:Ec; [reflexivity|]. cbn [drop_while_end]. now rewrite Ec.
  - change (drop_while_end p (String c (String d r)))
      with (match drop_while_end p (String d r) with
            | EmptyString => if p c then EmptyString else String c EmptyString
            | x => String c x
            end).
    rewrite IH. reflexivity.
Qed.

(** Dropping at the end leaves a string that starts with a character
    outside [p] starting so. *)
Lemma drop_while_drop_while_end p s :
  drop_while p s = s ->
  drop_while p (drop_while_end p s) = drop_while_end p s.
Proof.
  intros H. pose proof (drop_while_end_cons p s) as Hh.
  destruct (drop_while_end p s) as [|d r]; [reflexivity|].
  destruct Hh as [s' ->]. cbn [drop_while] in *.
  destruct (p d) eqn:E; [|reflexivity].
  exfalso. clear -H.
  assert (Hlen : forall t, (String.length (drop_while p t) <= String.length t)%nat).
  { induction t as [|c t IHt]; simpl; [lia|]. destruct (p c); simpl; lia. }
  specialize (Hlen s'). rewrite H in Hlen. simpl in Hlen. lia.
Qed.

(** The slug of a title is a fixed point of the slug functions. *)
Lemma titleSlug_fixed title :
  titleSlug (titleSlug title) = titleSlug title /\
  sanitizeFileName (titleSlug title) = titleSlug title.
Proof.
  set (u := replace_runs is_slug_char (toLowerCase title)).
  assert (Hc : slug_chars (titleSlug title) = true).
  { unfold titleSlug, trim_hyphens.
    apply drop_while_end_slug_chars, drop_while_slug_chars, replace_runs_slug_chars. }
  assert (Hq : squeezed (titleSlug title) = true).
  { unfold titleSlug, trim_hyphens.
    apply drop_while_end_squeezed, drop_while_squeezed, replace_runs_squeezed. }
  assert (Hfix : titleSlug (titleSlug title) = titleSlug title).
  { unfold titleSlug at 1.
    rewrite toLowerCase_slug, replace_runs_slug by assumption.
    unfold titleSlug, trim_hyphens. fold u.
    rewrite drop_while_drop_while_end by apply drop_while_fixed.
    apply drop_while_end_fixed. }
  split; [exact Hfix|].
  rewrite sanitizeFileName_titleSlug by now apply slug_no_underscore.
  exact Hfix.
Qed.

End SlugIdempotence.

(** ** Calendar arithmetic *)

Section DateFacts.
Import Text JsDate.

Example isoDay_epoch : isoDay 0 = "1970-01-01".
Proof. reflexivity. Qed.

Example isoDay_2025 : isoDay 20089 = "2025-01-01".
Proof. reflexivity. Qed.

Example isoDay_leap : isoDay 19782 = "2024-02-29".
Proof. reflexivity. Qed.

Example parseDay_2025 : parseDay "2025-01-05" = Some 20093.
Proof. reflexivity. Qed.

Example parseDay_rolls : parseDay "2025-02-30" = parseDay "2025-03-02".
Proof. reflexivity. Qed.

Example parseDay_bad : parseDay "2025-1-5" = None.
Proof. reflexivity. Qed.

Example isoDay_bounds :
  isoDay first_day = "0000-01-01" /\ isoDay last_day = "9999-12-31".
Proof. split; reflexivity. Qed.

Lemma era_year_range doe : 0 <= doe < 146097 -> 0 <= era_year doe <= 399.
Proof. intros H. unfold era_year. Z.div_mod_to_equations; lia. Qed.

Lemma era_doy_range doe :
  0 <= doe < 146097 -> 0 <= doe - year_start (era_year doe) <= 365.
Proof. intros H. unfold era_year, year_start. Z.div_mod_to_equations; lia. Qed.

(** The last sixty days of an era are January and February of its last
    year. *)
Lemma era_tail doe :
  0 <= doe < 146097 ->
  (146037 <= doe -> era_year doe = 399 /\ 306 <= doe - year_start (era_year doe)) /\
  (doe < 146037 -> era_year doe = 399 -> doe - year_start (era_year doe) < 306).
Proof. intros H. unfold era_year, year_start. Z.div_mod_to_equations; lia. Qed.

Lemma month_day_range doy :
  0 <= doy <= 365 ->
  let mp := (5 * doy + 2) / 153 in
  0 <= mp <= 11 /\ 1 <= doy - (153 * mp + 2) / 5 + 1 <= 31 /\
  (mp < 10 <-> doy < 306).
Proof. intros H mp. subst mp. Z.div_mod_to_equations; lia. Qed.

(** [civil_from_days] yields a valid date, of which [days_from_civil] is
    the day number. *)
Lemma civil_from_days_valid day :
  match civil_from_days day with
  | (y, m, d) =>
      days_from_civil y m d = day /\ 1 <= m <= 12 /\ 1 <= d <= 31 /\
      (first_day <= day <= last_day -> 0 <= y <= 9999)
  end.
Proof.
  unfold civil_from_days, days_from_civil, first_day, last_day.
  set (z := day + 719468).
  assert (Hdoe : 0 <= z mod 146097 < 146097) by (apply Z.mod_pos_bound; lia).
  assert (Hz : z = 146097 * (z / 146097) + z mod 146097)
    by (apply Z.div_mod; lia).
  set (era := z / 146097) in *. set (doe := z mod 146097) in *.
  pose proof (era_year_range doe Hdoe) as Hy.
  pose proof (era_doy_range doe Hdoe) as Hd.
  pose proof (era_tail doe Hdoe) as [Ht1 Ht2].
  set (yoe := era_year doe) in *.
  set (doy := doe - year_start yoe) in *.
  pose proof (month_day_range doy Hd) as Hm. cbv zeta in Hm.
  set (mp := (5 * doy + 2) / 153) in *.
  destruct Hm as (Hmp & Hdd & Hsplit).
  set (d := doy - (153 * mp + 2) / 5 + 1) in *.
  destruct (mp <? 10) eqn:E10.
  - apply Z.ltb_lt in E10.
    replace (mp + 3 <=? 2) with false by (symmetry; apply Z.leb_gt; lia).
    replace (mp + 3 - 3) with mp by lia.
    assert (Hq : (yoe + era * 400) / 400 = era)
      by (symmetry; apply (Z.div_unique _ 400 era yoe); lia).
    assert (Hr : (yoe + era * 400) mod 400 = yoe)
      by (symmetry; apply (Z.mod_unique _ 400 era yoe); lia).
    rewrite Hq, Hr. subst d doy z. repeat split; lia.
  - apply Z.ltb_ge in E10.
    replace (mp - 9 <=? 2) with true by (symmetry; apply Z.leb_le; lia).
    replace (mp - 9 + 9) with mp by lia.
    replace (yoe + era * 400 + 1 - 1) with (yoe + era * 400) by lia.
    assert (Hq : (yoe + era * 400) / 400 = era)
      by (symmetry; apply (Z.div_unique _ 400 era yoe); lia).
    assert (Hr : (yoe + era * 400) mod 400 = yoe)
      by (symmetry; apply (Z.mod_unique _ 400 era yoe); lia).
    rewrite Hq, Hr. subst d doy z. repeat split; lia.
Qed.

Lemma digit_val_char k : digit_val (digit_char k) = Some (k mod 10).
Proof.
  unfold digit_char.
  assert (H : 0 <= k mod 10 < 10) by (apply Z.mod_pos_bound; lia).
  set (r := k mod 10) in *.
  assert (Hr : r = 0 \/ r = 1 \/ r = 2 \/ r = 3 \/ r = 4 \/ r = 5 \/
               r = 6 \/ r = 7 \/ r = 8 \/ r = 9) by lia.
  destruct Hr as [->|[->|[->|[->|[->|[->|[->|[->|[->| ->]]]]]]]]]; reflexivity.
Qed.

Lemma parseDay_print y m d :
  0 <= y <= 9999 -> 1 <= m <= 12 -> 1 <= d <= 31 ->
  parseDay (pad4 y +:+ "-" +:+ pad2 m +:+ "-" +:+ pad2 d) =
  Some (days_from_civil y m d).
Proof.
  intros Hy Hm Hd. unfold pad4, pad2. unfold parseDay.
  simpl.
  rewrite !digit_val_char. cbv beta iota.
  replace (1000 * ((y / 1000) mod 10) + 100 * ((y / 100) mod 10)
           + 10 * ((y / 10) mod 10) + y mod 10) with y
    by (Z.div_mod_to_equations; lia).
  replace (10 * ((m / 10) mod 10) + m mod 10) with m
    by (Z.div_mod_to_equations; lia).
  replace (10 * ((d / 10) mod 10) + d mod 10) with d
    by (Z.div_mod_to_equations; lia).
  replace (1 <=? m) with true by (symmetry; apply Z.leb_le; lia).
  replace (m <=? 12) with true by (symmetry; apply Z.leb_le; lia).
  replace (1 <=? d) with true by (symmetry; apply Z.leb_le; lia).
  replace (d <=? 31) with true by (symmetry; apply Z.leb_le; lia).
  reflexivity.
Qed.

(** Parsing a printed day gives the day back. *)
Lemma parseDay_isoDay day :
  first_day <= day <= last_day -> parseDay (isoDay day) = Some day.
Proof.
  intros H. unfold isoDay.
  pose proof (civil_from_days_valid day) as Hv.
  destruct (civil_from_days day) as [[y m] d].
  destruct Hv as (Hback & Hm & Hd & Hy).
  rewrite parseDay_print by auto. now rewrite Hback.
Qed.


End DateFacts.

(** ** Streak updates *)

Section StreakFacts.
Import Text JsDate Store Streak.
Context {host : Host}.

Lemma isoDay_nonempty day : isoDay day <> EmptyString.
Proof.
  unfold isoDay. destruct (civil_from_days day) as [[y m] d].
  unfold pad4. simpl. discriminate.
Qed.

(** The day before: one day of milliseconds earlier. *)
Lemma isoDate_yesterday now :
  isoDate (now - ms_per_day) = isoDay (now / ms_per_day - 1).
Proof.
  unfold isoDate, ms_per_day. f_equal.
  replace (now - 86400000) with (now + (-1) * 86400000) by lia.
  rewrite Z.div_add by lia. lia.
Qed.

(** Where the offset of the zone does not change, a day of local time is
    24 hours. *)
Lemma setDateBack_constant offset k t :
  constantOffset offset -> setDateBack k t = t - k * ms_per_day.
Proof.
  intros [Ha Hl]. unfold setDateBack, UTC, LocalTime. rewrite Ha, Hl. lia.
Qed.

(** So two readings on one UTC day are steady there. *)
Lemma steady_constant offset now later :
  constantOffset offset -> later / ms_per_day = now / ms_per_day ->
  steady now later.
Proof.
  intros Hc Hd. unfold steady. rewrite (setDateBack_constant offset) by exact Hc.
  rewrite <- Hd. unfold ms_per_day.
  replace (later - 1 * 86400000) with (later + (-1) * 86400000) by lia.
  rewrite Z.div_add by lia. lia.
Qed.

Lemma steady_yesterday now later :
  steady now later -> isoDate (setDateBack 1 later) = isoDay (now / ms_per_day - 1).
Proof. unfold steady, isoDate. now intros ->. Qed.

(** [checkAchievements] leaves the streak fields alone. *)
Lemma checkAchievements_streak_fields k st :
  let st' := fst (checkAchievements k st) in
  streak st' = streak st /\ lastPushDate st' = lastPushDate st /\
  longestStreak st' = longestStreak st /\
  dailySubmissions st' = dailySubmissions st.
Proof.
  unfold checkAchievements.
  destruct (fold_left _ _ _) as [u n].
  destruct (0 <? Z.of_nat (length n)); simpl; auto.
Qed.

Lemma updateStreak_same_day now later st :
  lastPushDate st = Some (isoDate now) ->
  updateStreak now later st = (st, (or0 (streak st), [])).
Proof.
  intros H. unfold updateStreak.
  rewrite bool_decide_eq_true_2 by assumption. reflexivity.
Qed.

Lemma updateStreak_new_day now later st :
  lastPushDate st <> Some (isoDate now) ->
  let st' := fst (updateStreak now later st) in
  streak st' = Some (nextStreak later st) /\
  lastPushDate st' = Some (isoDate now) /\
  longestStreak st' = Some (Z.max (nextStreak later st) (or0 (longestStreak st))) /\
  fst (snd (updateStreak now later st)) = nextStreak later st.
Proof.
  intros H. unfold updateStreak.
  rewrite bool_decide_eq_false_2 by assumption.
  set (newStreak := match lastPushDate st with Some _ => _ | None => _ end).
  assert (E : newStreak = nextStreak later st).
  { subst newStreak. unfold nextStreak.
    destruct (lastPushDate st) as [last|].
    - destruct last as [|c last'].
      + cbn [truthy]. rewrite bool_decide_eq_false_2; [reflexivity|].
        intros E. injection E as E. symmetry in E.
        now apply isoDay_nonempty in E.
      + cbn [truthy].
        destruct (bool_decide_reflect
                    (String c last' = isoDate (setDateBack 1 later))) as [E|E].
        * rewrite bool_decide_eq_true_2 by congruence. reflexivity.
        * rewrite bool_decide_eq_false_2 by congruence. reflexivity.
    - rewrite bool_decide_eq_false_2 by discriminate. reflexivity. }
  rewrite E.
  pose proof (checkAchievements_streak_fields (nextStreak later st)
    (setStreak (nextStreak later st) (isoDate now)
       (Z.max (nextStreak later st) (or0 (longestStreak st))) st)) as Hc.
  cbv zeta in Hc.
  destruct (checkAchievements _ _) as [st2 newA]. simpl in *.
  destruct Hc as (-> & -> & -> & _). auto.
Qed.

Lemma lastPushDate_is d st :
  d <> EmptyString ->
  (Spec.lastContributionDate (Spec.streakState st) = d <-> lastPushDate st = Some d).
Proof.
  intros Hd. unfold Spec.streakState, getStreakStats. simpl.
  destruct (lastPushDate st) as [last|]; split; congruence.
Qed.

(** Where the host's day before is the day before in UTC, [updateStreak]
    is the transition function of the specification on the streak
    state. *)
Lemma streakState_updateStreak now later st :
  steady now later ->
  Spec.streakState (fst (updateStreak now later st)) =
  Spec.streakUpdate (now / ms_per_day) (Spec.streakState st).
Proof.
  intros Hsteady. apply steady_yesterday in Hsteady.
  unfold Spec.streakUpdate.
  destruct (decide (lastPushDate st = Some (isoDate now))) as [Hsame|Hnew].
  - rewrite updateStreak_same_day by assumption. simpl.
    rewrite bool_decide_eq_true_2; [reflexivity|].
    apply lastPushDate_is; [apply isoDay_nonempty | exact Hsame].
  - pose proof (updateStreak_new_day now later st Hnew) as (Hs & Hd & Hl & _).
    rewrite bool_decide_eq_false_2.
    2:{ intros E. apply lastPushDate_is in E; [|apply isoDay_nonempty].
        now apply Hnew. }
    assert (Hn : (if bool_decide (Spec.lastContributionDate (Spec.streakState st)
                                  = isoDay (now / ms_per_day - 1))
                  then Spec.currentStreak (Spec.streakState st) + 1 else 1)
                 = nextStreak later st).
    { unfold nextStreak. rewrite Hsteady.
      destruct (decide (lastPushDate st = Some (isoDay (now / ms_per_day - 1))))
        as [E|E].
      - rewrite !bool_decide_eq_true_2; auto.
        apply lastPushDate_is; [apply isoDay_nonempty | exact E].
      - rewrite !bool_decide_eq_false_2; auto.
        intros E'. apply lastPushDate_is in E'; [|apply isoDay_nonempty].
        now apply E. }
    cbv zeta. rewrite Hn.
    unfold Spec.streakState at 1. unfold getStreakStats.
    rewrite Hs, Hd, Hl. simpl. f_equal. apply Z.max_comm.
Qed.

Lemma updateDailySubmissions_streak_fields data now later st :
  let st' := Daily.updateDailySubmissions data now later st in
  streak st' = streak st /\ lastPushDate st' = lastPushDate st /\
  longestStreak st' = longestStreak st /\
  unlockedAchievements st' = unlockedAchievements st.
Proof.
  unfold Daily.updateDailySubmissions.
  destruct (Daily.withToday _ _) as [l1 i]; simpl; auto.
Qed.

Lemma updateStreak_new_day_bounded now later st :
  lastPushDate st <> Some (isoDate now) ->
  streak_bounded (fst (updateStreak now later st)).
Proof.
  intros H. destruct (updateStreak_new_day now later st H) as (Hs & _ & Hl & _).
  unfold streak_bounded. rewrite Hs, Hl. simpl. lia.
Qed.

Lemma updateStreak_bounded now later st :
  streak_bounded st -> streak_bounded (fst (updateStreak now later st)).
Proof.
  intros Hinv.
  destruct (decide (lastPushDate st = Some (isoDate now))) as [Hsame|Hnew].
  - now rewrite updateStreak_same_day.
  - now apply updateStreak_new_day_bounded.
Qed.

Lemma updateStreak_longest_mono now later st :
  or0 (longestStreak st) <= or0 (longestStreak (fst (updateStreak now later st))).
Proof.
  destruct (decide (lastPushDate st = Some (isoDate now))) as [Hsame|Hnew].
  - rewrite updateStreak_same_day by assumption. simpl. lia.
  - destruct (updateStreak_new_day now later st Hnew) as (_ & _ & Hl & _).
    rewrite Hl. simpl. lia.
Qed.

Lemma step_bounded st st' :
  Background.step st st' -> streak_bounded st -> streak_bounded st'.
Proof.
  intros [now later|k|data now later] Hinv.
  - now apply updateStreak_bounded.
  - destruct (checkAchievements_streak_fields k st) as (Hs & _ & Hl & _).
    unfold streak_bounded. now rewrite Hs, Hl.
  - destruct (updateDailySubmissions_streak_fields data now later st)
      as (Hs & _ & Hl & _).
    unfold streak_bounded. now rewrite Hs, Hl.
Qed.

Lemma step_longest_mono st st' :
  Background.step st st' -> or0 (longestStreak st) <= or0 (longestStreak st').
Proof.
  intros [now later|k|data now later].
  - apply updateStreak_longest_mono.
  - destruct (checkAchievements_streak_fields k st) as (_ & _ & Hl & _).
    rewrite Hl. lia.
  - destruct (updateDailySubmissions_streak_fields data now later st)
      as (_ & _ & Hl & _).
    rewrite Hl. lia.
Qed.

Lemma reachable_bounded st st' :
  Background.reachable st st' -> streak_bounded st -> streak_bounded st'.
Proof.
  induction 1 as [|st1 st2 _ IH Hstep]; intros Hinv; [assumption|].
  eapply step_bounded; eauto.
Qed.

Lemma reachable_longest_mono st st' :
  Background.reachable st st' -> or0 (longestStreak st) <= or0 (longestStreak st').
Proof.
  induction 1 as [|st1 st2 _ IH Hstep]; [lia|].
  pose proof (step_longest_mono _ _ Hstep). lia.
Qed.

Lemma updateStreak_all_sorted nows st :
  Sorted Z.le (map (fun s => or0 (longestStreak s)) (st :: updateStreak_all nows st)).
Proof.
  revert st. induction nows as [|[now later] rest IH]; intros st.
  - simpl. repeat constructor.
  - cbn [updateStreak_all map]. constructor.
    + exact (IH (fst (updateStreak now later st))).
    + constructor. apply updateStreak_longest_mono.
Qed.

Example gap_dates :
  map (fun push => isoDate (fst push)) gap_clock
  = ["2025-01-01"; "2025-01-02"; "2025-01-05"].
Proof. reflexivity. Qed.

Example gap_resets_streak :
  map Spec.streakState (updateStreak_all (host := utc) gap_clock Store.empty) =
  [ {| Spec.currentStreak := 1; Spec.longestStreak := 1;
       Spec.lastContributionDate := "2025-01-01" |};
    {| Spec.currentStreak := 2; Spec.longestStreak := 2;
       Spec.lastContributionDate := "2025-01-02" |};
    {| Spec.currentStreak := 1; Spec.longestStreak := 2;
       Spec.lastContributionDate := "2025-01-05" |} ].
Proof. vm_compute. reflexivity. Qed.

(** The streak update as the specification has it, at readings of the
    clock where the host's day before is the day before in UTC: on the
    reported streak state, [updateStreak] at a clock reading of day [d]
    does what [Spec.streakUpdate d] says; on a same-day repeat the store
    is left as it is; the returned streak is the stored one. *)
Lemma streak_transition_steady :
  (forall now later st,
      steady now later ->
      Spec.streakState (fst (updateStreak now later st)) =
      Spec.streakUpdate (now / ms_per_day) (Spec.streakState st)) /\
  (forall now later st,
      lastPushDate st = Some (isoDate now) ->
      fst (updateStreak now later st) = st) /\
  (forall now later st,
      fst (snd (updateStreak now later st)) =
      Spec.currentStreak (Spec.streakState (fst (updateStreak now later st)))).
Proof.
  split; [exact streakState_updateStreak|].
  split; [intros now later st H; now rewrite updateStreak_same_day|].
  intros now later st.
  destruct (decide (lastPushDate st = Some (isoDate now))) as [Hsame|Hnew].
  - now rewrite updateStreak_same_day.
  - destruct (updateStreak_new_day now later st Hnew) as (Hs & _ & _ & Hr).
    rewrite Hr. unfold Spec.streakState, getStreakStats. simpl.
    now rewrite Hs.
Qed.

End StreakFacts.

Section FixedOffset.
Import JsDate.

Lemma tame_fixedOffset offset : tame (host := fixedOffset offset).
Proof. intros t l. unfold ms_per_day. simpl. lia. Qed.

Lemma constantOffset_fixedOffset offset :
  constantOffset (host := fixedOffset offset) offset.
Proof. split; reflexivity. Qed.

Lemma prompt_next now : prompt now (now + 1).
Proof. unfold prompt, ms_per_day. lia. Qed.

End FixedOffset.

Section StreakClaims.
Import Text JsDate Store Streak.

(** C3. The streak update is not the transition function of the
    specification where the clocks of the host change.  On the evening of
    2 November 2025 in New York, which is 2025-11-03T00:30Z, with a last
    push on 2025-11-02 and a streak of 3: the event date is the day after
    the last contribution date, so the specification continues the streak
    to 4; [updateStreak] moves the clock reading one day of local time
    back, to 2025-11-01T23:30Z because the clocks were set back that
    morning, compares the last push date with 2025-11-01, and resets the
    streak to 1.  In a zone of fixed offset the same call gives 4. *)
Theorem C3_streak_reset_after_clock_change :
  isoDate evening_of_2_november = "2025-11-03" /\
  lastPushDate pushed_on_2_november = Some "2025-11-02" /\
  Spec.currentStreak
    (Spec.streakUpdate (evening_of_2_november / ms_per_day)
       (Spec.streakState pushed_on_2_november)) = 4 /\
  isoDate (setDateBack (host := new_york) 1 evening_of_2_november) = "2025-11-01" /\
  Spec.currentStreak
    (Spec.streakState
       (fst (updateStreak (host := new_york)
               evening_of_2_november evening_of_2_november
               pushed_on_2_november))) = 1 /\
  fst (snd (updateStreak (host := new_york)
              evening_of_2_november evening_of_2_november
              pushed_on_2_november)) = 1 /\
  fst (snd (updateStreak (host := utc)
              evening_of_2_november evening_of_2_november
              pushed_on_2_november)) = 4.
Proof. vm_compute. repeat split; reflexivity. Qed.

(** C6 (amended). The longest streak is at least the current streak
    after every streak update that changes the day, and after every
    streak update of a store in which it was; so it is in every store
    the background
    script reaches from the empty one, and in every store it reaches
    from one where it holds.  A streak update on the day of the last push
    leaves the store as it is.  The longest streak never decreases along
    any run of the background script, in particular along any sequence of
    streak updates, whatever the dates of the events. *)
Theorem C6_longest_streak_invariant {host : Host} :
  (forall now later st,
      lastPushDate st <> Some (isoDate now) ->
      streak_bounded (fst (updateStreak now later st))) /\
  (forall now later st,
      streak_bounded st -> streak_bounded (fst (updateStreak now later st))) /\
  (forall now later st,
      lastPushDate st = Some (isoDate now) ->
      fst (updateStreak now later st) = st) /\
  (forall st st',
      streak_bounded st -> Background.reachable st st' -> streak_bounded st') /\
  (forall st, Background.reachable Store.empty st -> streak_bounded st) /\
  (forall st st',
      Background.reachable st st' ->
      or0 (longestStreak st) <= or0 (longestStreak st')) /\
  (forall nows st,
      Sorted Z.le
        (map (fun s => or0 (longestStreak s)) (st :: updateStreak_all nows st))).
Proof.
  split; [exact updateStreak_new_day_bounded|].
  split; [exact updateStreak_bounded|].
  split; [intros now later st H; now rewrite updateStreak_same_day|].
  split; [intros st st' Hinv Hr; exact (reachable_bounded st st' Hr Hinv)|].
  split.
  - intros st Hr. apply (reachable_bounded _ _ Hr). unfold streak_bounded. simpl. lia.
  - split; [exact reachable_longest_mono | exact updateStreak_all_sorted].
Qed.

(** A second-day update at a concrete store. *)
Lemma C6_longest_streak_invariant_witness :
  lastPushDate (setStreak 4 "2025-01-04" 9 Store.empty)
    <> Some (isoDate (20093 * ms_per_day + 5000)) /\
  streak_bounded
    (fst (updateStreak (host := new_york)
            (20093 * ms_per_day + 5000) (20093 * ms_per_day + 5001)
            (setStreak 4 "2025-01-04" 9 Store.empty))).
Proof.
  assert (H : lastPushDate (setStreak 4 "2025-01-04" 9 Store.empty)
              <> Some (isoDate (20093 * ms_per_day + 5000))).
  { vm_compute. discriminate. }
  split; [exact H|].
  apply (proj1 (C6_longest_streak_invariant (host := new_york))). exact H.
Defined.

(** C6 (as stated, refuted). A push, the button [+1 Manual Boost] of the
    popup, and a second push on the same day: the second streak update
    finds the last push date to be today and leaves the store as it is,
    with a streak of 2 above a longest streak of 1. *)
Lemma C6_counterexample :
  streak Pages.first_push = Some 1 /\
  longestStreak Pages.first_push = Some 1 /\
  streak Pages.boosted_push = Some 2 /\
  longestStreak Pages.boosted_push = Some 1 /\
  lastPushDate Pages.boosted_push = Some "2025-01-01" /\
  isoDate (20089 * ms_per_day + 72000000) = "2025-01-01" /\
  streak Pages.second_push = Some 2 /\
  longestStreak Pages.second_push = Some 1 /\
  ~ streak_bounded Pages.second_push.
Proof.
  repeat (split; [vm_compute; reflexivity|]).
  unfold streak_bounded. vm_compute. intros H. now apply H.
Qed.

End StreakClaims.

(** ** Achievements *)

Section AchievementFacts.
Import Text JsDate Store Streak.
Context {host : Host}.

Lemma JsSet_has_true s x : JsSet.has s x = true <-> x ∈ s.
Proof. unfold JsSet.has. apply bool_decide_eq_true. Qed.

Lemma JsSet_has_false s x : JsSet.has s x = false <-> x ∉ s.
Proof. unfold JsSet.has. apply bool_decide_eq_false. Qed.

Lemma JsSet_add_elem s y x : x ∈ JsSet.add s y <-> x ∈ s \/ x = y.
Proof.
  unfold JsSet.add. destruct (JsSet.has s y) eqn:E.
  - apply JsSet_has_true in E. split; [auto|]. intros [H| ->]; assumption.
  - rewrite elem_of_app, list_elem_of_singleton. reflexivity.
Qed.

Lemma JsSet_of_array_acc l : forall acc x,
  x ∈ fold_left JsSet.add l acc <-> x ∈ acc \/ x ∈ l.
Proof.
  induction l as [|y l IH]; intros acc x; simpl.
  - rewrite elem_of_nil. tauto.
  - rewrite IH, JsSet_add_elem, elem_of_cons. tauto.
Qed.

Lemma JsSet_of_array_elem l x : x ∈ JsSet.of_array l <-> x ∈ l.
Proof.
  unfold JsSet.of_array. rewrite JsSet_of_array_acc, elem_of_nil. tauto.
Qed.

(** The loop of [checkAchievements]: what it appends and what it unlocks. *)
Lemma checkOne_fold k l : forall u0 n0,
  exists u added,
    fold_left (checkOne k) l (u0, n0) = (u, (n0 ++ added)%list) /\
    (forall x, x ∈ u <-> x ∈ u0 \/ x ∈ map id added) /\
    (forall a, a ∈ added -> a ∈ l /\ (id a ∉ u0) /\ condition a k = true) /\
    NoDup (map id added).
Proof.
  induction l as [|a l IH]; intros u0 n0.
  - exists u0, []. simpl. rewrite app_nil_r. split; [reflexivity|].
    split; [|split].
    + intros x. rewrite elem_of_nil. tauto.
    + intros a H. now apply elem_of_nil in H.
    + constructor.
  - cbn [fold_left]. unfold checkOne at 2.
    destruct (negb (JsSet.has u0 (id a)) && condition a k) eqn:E.
    + apply andb_true_iff in E as [Hn Hc]. apply negb_true_iff in Hn.
      apply JsSet_has_false in Hn.
      destruct (IH (JsSet.add u0 (id a)) (n0 ++ [a])%list)
        as (u & added & Hf & Hu & Ha & Hd).
      exists u, (a :: added). split; [|split; [|split]].
      * rewrite Hf. now rewrite <- app_assoc.
      * intros x. rewrite Hu, JsSet_add_elem. cbn [map].
        rewrite elem_of_cons. tauto.
      * intros a' [->|Hin]%elem_of_cons.
        -- split; [apply elem_of_cons; auto | auto].
        -- destruct (Ha a' Hin) as (Hl & Hnot & Hcond).
           split; [apply elem_of_cons; auto|]. split; [|assumption].
           intros Hx. apply Hnot. apply JsSet_add_elem. auto.
      * cbn [map]. apply NoDup_cons. split; [|assumption].
        intros Hin. apply list_elem_of_fmap in Hin as (a' & Hid & Hin').
        destruct (Ha a' Hin') as (_ & Hnot & _).
        apply Hnot. apply JsSet_add_elem. auto.
    + destruct (IH u0 n0) as (u & added & Hf & Hu & Ha & Hd).
      exists u, added. split; [assumption|]. split; [assumption|].
      split; [|assumption].
      intros a' Hin. destruct (Ha a' Hin) as (Hl & Hrest).
      split; [apply elem_of_cons; auto | assumption].
Qed.

(** What one call of [checkAchievements] returns and stores. *)
Lemma checkAchievements_spec k st :
  let st' := fst (checkAchievements k st) in
  let new := snd (checkAchievements k st) in
  (forall a, a ∈ new ->
     a ∈ achievements /\ (id a ∉ orNil (unlockedAchievements st)) /\
     condition a k = true /\
     id a ∈ orNil (unlockedAchievements st')) /\
  (forall x, x ∈ orNil (unlockedAchievements st) ->
     x ∈ orNil (unlockedAchievements st')) /\
  (forall x, x ∈ orNil (unlockedAchievements st') ->
     x ∈ orNil (unlockedAchievements st) \/ x ∈ map id new) /\
  NoDup (map id new).
Proof.
  unfold checkAchievements.
  destruct (checkOne_fold k achievements
              (JsSet.of_array (orNil (unlockedAchievements st))) [])
    as (u & added & Hf & Hu & Ha & Hd).
  rewrite Hf. cbn [app].
  destruct added as [|a0 added'].
  - simpl. split; [|split; [|split]].
    + intros a H. now apply elem_of_nil in H.
    + auto.
    + auto.
    + constructor.
  - cbn [length Z.of_nat]. 
    replace (0 <? Z.of_nat (S (length added'))) with true
      by (symmetry; apply Z.ltb_lt; lia).
    cbn [fst snd]. unfold JsSet.to_array. simpl unlockedAchievements.
    cbn [orNil]. split; [|split; [|split]].
    + intros a H. destruct (Ha a H) as (Hl & Hnot & Hc).
      split; [assumption|]. split; [|split; [assumption|]].
      * intros Hx. apply Hnot. now apply JsSet_of_array_elem.
      * apply Hu. right. apply list_elem_of_fmap. eauto.
    + intros x Hx. apply Hu. left. now apply JsSet_of_array_elem.
    + intros x Hx. apply Hu in Hx as [Hx|Hx]; [left|right; exact Hx].
      now apply JsSet_of_array_elem.
    + exact Hd.
Qed.

(** On a new day [updateStreak] stores the new streak fields and then
    checks the achievements. *)
Lemma updateStreak_unlocked now later st :
  fst (updateStreak now later st) = st /\
  snd (snd (updateStreak now later st)) = [] \/
  exists k st1,
    unlockedAchievements st1 = unlockedAchievements st /\
    fst (updateStreak now later st) = fst (checkAchievements k st1) /\
    snd (snd (updateStreak now later st)) = snd (checkAchievements k st1).
Proof.
  unfold updateStreak.
  destruct (bool_decide (lastPushDate st = Some (isoDate now))); [left; auto|].
  right.
  match goal with
  | |- context [checkAchievements ?k ?s] => exists k, s
  end.
  split; [reflexivity|].
  destruct (checkAchievements _ _) as [st2 newA]. auto.
Qed.

(** What one operation of the background script reports and unlocks. *)
Lemma exec_unlocked op st :
  let st' := fst (Background.exec op st) in
  let new := snd (Background.exec op st) in
  (forall a, a ∈ new ->
     (id a ∉ orNil (unlockedAchievements st)) /\
     id a ∈ orNil (unlockedAchievements st')) /\
  (forall x, x ∈ orNil (unlockedAchievements st) ->
     x ∈ orNil (unlockedAchievements st')) /\
  NoDup (map id new).
Proof.
  destruct op as [now later|k|data now later]; cbn [Background.exec].
  - destruct (updateStreak now later st) as [st' [r newA]] eqn:E.
    destruct (updateStreak_unlocked now later st) as [[H1 H2]|(k & st1 & Hu & H1 & H2)];
      rewrite E in H1, H2; cbn [fst snd] in *.
    + subst. split; [|split; [auto | constructor]].
      intros a H. now apply elem_of_nil in H.
    + destruct (checkAchievements_spec k st1) as (Ha & Hg & _ & Hd).
      cbv zeta in *. rewrite <- H1, <- H2, Hu in *.
      split; [|split; [exact Hg | exact Hd]].
      intros a H. destruct (Ha a H) as (_ & Hn & _ & Hi). auto.
  - destruct (checkAchievements_spec k st) as (Ha & Hg & _ & Hd).
    split; [|split; [exact Hg | exact Hd]].
    intros a H. destruct (Ha a H) as (_ & Hn & _ & Hi). auto.
  - cbn [fst snd].
    destruct (updateDailySubmissions_streak_fields data now later st)
      as (_ & _ & _ & Hu).
    rewrite Hu. split; [|split; [auto | constructor]].
    intros a H. now apply elem_of_nil in H.
Qed.

(** Along a run, nothing already unlocked is reported, nothing is
    reported twice, and the unlocked set grows. *)
Lemma run_unlocked ops : forall st,
  let st' := fst (Background.run ops st) in
  let reported := snd (Background.run ops st) in
  (forall a, a ∈ reported -> id a ∉ orNil (unlockedAchievements st)) /\
  (forall x, x ∈ orNil (unlockedAchievements st) ->
     x ∈ orNil (unlockedAchievements st')) /\
  NoDup (map id reported).
Proof.
  induction ops as [|op rest IH]; intros st; cbn [Background.run].
  - cbn [fst snd]. split; [|split; [auto | constructor]].
    intros a H. now apply elem_of_nil in H.
  - pose proof (exec_unlocked op st) as (Ha & Hg & Hd). cbv zeta in *.
    destruct (Background.exec op st) as [st1 reported] eqn:E.
    specialize (IH st1). cbv zeta in IH.
    destruct (Background.run rest st1) as [st2 later] eqn:Er.
    cbn [fst snd] in *. destruct IH as (Ha' & Hg' & Hd').
    split; [|split].
    + intros a [H|H]%elem_of_app.
      * now apply Ha.
      * intros Hx. apply (Ha' a H). now apply Hg.
    + intros x Hx. apply Hg'. now apply Hg.
    + rewrite map_app. apply NoDup_app. split; [assumption|]. split; [|assumption].
      intros x Hx Hy.
      apply list_elem_of_fmap in Hx as (a & -> & Hin).
      apply list_elem_of_fmap in Hy as (a' & Hid & Hin').
      apply (Ha' a' Hin'). rewrite <- Hid. now apply Ha.
Qed.

Lemma step_is_exec st st' :
  Background.step st st' <-> exists op, st' = fst (Background.exec op st).
Proof.
  split.
  - intros [now later|k|data now later].
    + exists (Background.UpdateStreak now later). cbn [Background.exec].
      now destruct (updateStreak now later st) as [? [? ?]].
    + now exists (Background.CheckAchievements k).
    + now exists (Background.UpdateDailySubmissions data now later).
  - intros [[now later|k|data now later] ->]; cbn [Background.exec].
    + pose proof (Background.step_updateStreak st now later) as H.
      now destruct (updateStreak now later st) as [? [? ?]].
    + constructor.
    + constructor.
Qed.

Lemma reachable_unlocked st st' :
  Background.reachable st st' ->
  forall x, x ∈ orNil (unlockedAchievements st) ->
            x ∈ orNil (unlockedAchievements st').
Proof.
  induction 1 as [|st1 st2 _ IH Hstep]; intros x Hx; [assumption|].
  apply step_is_exec in Hstep as [op ->].
  apply (exec_unlocked op st1). now apply IH.
Qed.

Example achievements_ids_distinct : NoDup (map id achievements).
Proof. apply (bool_decide_unpack _). vm_compute. exact I. Qed.

End AchievementFacts.

Section AchievementClaims.
Import Text JsDate Store Streak.

(** C8. The set of unlocked achievement ids only grows, along every run of
    the background script; [checkAchievements] never returns an id that
    is already unlocked, and what it returns is unlocked afterwards; over
    any run, whatever the streaks, each id is reported as newly unlocked
    at most once. *)
Theorem C8_achievements_unlock_once {host : Host} :
  (forall k st a,
      a ∈ snd (checkAchievements k st) ->
      (id a ∉ orNil (unlockedAchievements st)) /\
      id a ∈ orNil (unlockedAchievements (fst (checkAchievements k st)))) /\
  (forall st st' x,
      Background.reachable st st' ->
      x ∈ orNil (unlockedAchievements st) ->
      x ∈ orNil (unlockedAchievements st')) /\
  (forall ops st, NoDup (map id (snd (Background.run ops st)))) /\
  (forall ops st a,
      a ∈ snd (Background.run ops st) ->
      id a ∉ orNil (unlockedAchievements st)).
Proof.
  split; [|split; [|split]].
  - intros k st a H. destruct (checkAchievements_spec k st) as (Ha & _).
    destruct (Ha a H) as (_ & Hn & _ & Hi). auto.
  - intros st st' x Hr. now apply reachable_unlocked.
  - intros ops st. apply (run_unlocked ops st).
  - intros ops st a. apply (run_unlocked ops st).
Qed.

(** Reaching a streak of 7 on an empty store: the one-week badge is
    returned and unlocked; holding the streak does not return it again. *)
Lemma C8_achievements_unlock_once_witness :
  map id (snd (checkAchievements 7 Store.empty)) = ["streak-7"] /\
  ("streak-7" ∉ orNil (unlockedAchievements Store.empty)) /\
  "streak-7" ∈ orNil (unlockedAchievements (fst (checkAchievements 7 Store.empty))) /\
  map id (snd (Background.run (host := utc)
                 [Background.CheckAchievements 7; Background.CheckAchievements 8]
                 Store.empty)) = ["streak-7"].
Proof.
  split; [reflexivity|].
  assert (H : {| id := "streak-7"; title := "1 Week Streak";
                 message := "🔥 You've been coding for 7 days straight!";
                 emoji := "🔥";
                 condition := fun streak => 7 <=? streak |}
              ∈ snd (checkAchievements 7 Store.empty)).
  { vm_compute. constructor. }
  destruct (proj1 (C8_achievements_unlock_once (host := utc)) 7 Store.empty _ H)
    as [H1 H2].
  split; [exact H1|]. split; [exact H2 | reflexivity].
Defined.

End AchievementClaims.

(** ** Daily buckets *)

Section DailyFacts.
Import Text JsDate Store Daily.
Context {host : Host}.

Lemma findToday_Some today l i :
  findToday today l = Some i ->
  exists b, l !! i = Some b /\ date b = today.
Proof.
  revert i. induction l as [|b l IH]; intros i; simpl; [discriminate|].
  destruct (bool_decide_reflect (date b = today)) as [E|E].
  - intros [= <-]. exists b. auto.
  - destruct (findToday today l) as [j|]; simpl; [|discriminate].
    intros [= <-]. apply (IH j eq_refl).
Qed.

Lemma findToday_None today l :
  findToday today l = None -> today ∉ map date l.
Proof.
  induction l as [|b l IH]; simpl; intros H.
  - apply not_elem_of_nil.
  - destruct (bool_decide_reflect (date b = today)) as [E|E]; [discriminate|].
    destruct (findToday today l); [discriminate|].
    apply not_elem_of_cons. split; [congruence | now apply IH].
Qed.

(** Once [todayData] is located, the array has a bucket for today at its
    position, and nothing else is new. *)
Lemma withToday_spec today l :
  let '(l1, i) := withToday today l in
  (exists b, l1 !! i = Some b /\ date b = today /\
             (b ∈ l \/ (today ∉ map date l) /\ b = freshBucket today)) /\
  (forall b, b ∈ l1 -> b ∈ l \/ b = freshBucket today) /\
  (forall b, b ∈ l -> b ∈ l1) /\
  (NoDup (map date l) -> NoDup (map date l1)).
Proof.
  unfold withToday. destruct (findToday today l) as [i|] eqn:E.
  - destruct (findToday_Some _ _ _ E) as (b & Hb & Hd).
    split; [|auto].
    exists b. split; [assumption|]. split; [assumption|].
    left. eapply list_elem_of_lookup_2; eauto.
  - apply findToday_None in E. split; [|split; [|split]].
    + exists (freshBucket today).
      split; [|auto].
      rewrite lookup_app_r by lia. now rewrite Nat.sub_diag.
    + intros b [H|H]%elem_of_app; [auto|].
      apply list_elem_of_singleton in H. auto.
    + intros b H. apply elem_of_app. auto.
    + intros Hnd. rewrite map_app. apply NoDup_app.
      split; [assumption|]. split; [|apply NoDup_singleton].
      intros x Hx Hy. apply list_elem_of_singleton in Hy. simpl in Hy. congruence.
Qed.

Lemma date_bump d b : date (bump d b) = date b.
Proof. reflexivity. Qed.

Lemma map_date_alter d (i : nat) (l : list DailySubmissionData) : map date (alter (bump d) i l) = map date l.
Proof.
  revert i. induction l as [|b l IH]; intros [|i]; simpl; try reflexivity.
  f_equal. apply IH.
Qed.

Lemma bucket_of_alter (f : DailySubmissionData -> DailySubmissionData)
    (i : nat) (l : list DailySubmissionData) b :
  b ∈ alter f i l ->
  b ∈ l \/ exists b0, l !! i = Some b0 /\ b = f b0.
Proof.
  revert i. induction l as [|c l IH]; intros [|i]; simpl.
  - intros H. now apply elem_of_nil in H.
  - intros H. now apply elem_of_nil in H.
  - intros [->|H]%elem_of_cons.
    + right. eauto.
    + left. apply elem_of_cons. auto.
  - intros [->|H]%elem_of_cons.
    + left. apply elem_of_cons. auto.
    + destruct (IH i H) as [H'|H']; [left; apply elem_of_cons; auto | right; exact H'].
Qed.

Lemma bucket_of_filter (p : DailySubmissionData -> bool)
    (l : list DailySubmissionData) b :
  b ∈ List.filter p l <-> b ∈ l /\ p b = true.
Proof. rewrite !list_elem_of_In. apply filter_In. Qed.

Lemma NoDup_map_date_filter (p : DailySubmissionData -> bool) l :
  NoDup (map date l) -> NoDup (map date (List.filter p l)).
Proof.
  induction l as [|b l IH]; simpl; [auto|].
  intros [Hn Hd]%NoDup_cons. destruct (p b); simpl; [|auto].
  apply NoDup_cons. split; [|auto].
  intros Hin. apply Hn.
  apply list_elem_of_fmap in Hin as (b' & Hb' & Hin).
  apply bucket_of_filter in Hin as [Hin _].
  apply list_elem_of_fmap. eauto.
Qed.

(** Where the offsets of the zone differ by less than a day, a [Date]
    moved [k] days back is less than a day away from [k] times 24 hours
    earlier. *)
Lemma setDateBack_tame k t :
  tame ->
  t - k * ms_per_day - ms_per_day < setDateBack k t < t - k * ms_per_day + ms_per_day.
Proof.
  intros Ht. unfold setDateBack, UTC, LocalTime.
  specialize (Ht t (t + offsetAt t - k * ms_per_day)). lia.
Qed.

(** A bucket is kept only if [new Date] takes its date, for a time that
    is not before the cut. *)
Lemma withinYear_parsed later b :
  withinYear later b = true ->
  exists t, parseDate (date b) = Some t /\ setDateBack 365 later <= t.
Proof.
  unfold withinYear. destruct (parseDate (date b)) as [t|]; [|discriminate].
  intros H. apply Z.leb_le in H. eauto.
Qed.

(** A kept bucket with a date of the form [YYYY-MM-DD] is dated at most
    365 days before the day of the clock reading. *)
Lemma withinYear_day now later b day :
  tame -> now <= later ->
  withinYear later b = true -> parseDay (date b) = Some day ->
  now / ms_per_day - 365 <= day.
Proof.
  intros Ht Hl Hw Hp. apply withinYear_parsed in Hw as (t & Hd & Hle).
  unfold parseDate in Hd. rewrite Hp in Hd. injection Hd as <-.
  pose proof (setDateBack_tame 365 later Ht) as Hc.
  unfold ms_per_day in *. Z.div_mod_to_equations. lia.
Qed.

(** The bucket of the day of the clock reading is kept. *)
Lemma withinYear_today now later b :
  tame -> prompt now later ->
  first_day <= now / ms_per_day <= last_day ->
  date b = isoDate now -> withinYear later b = true.
Proof.
  intros Ht Hp Hr Hd. unfold withinYear, parseDate. rewrite Hd. unfold isoDate.
  rewrite parseDay_isoDay by assumption. apply Z.leb_le.
  pose proof (setDateBack_tame 365 later Ht) as Hc.
  unfold prompt, ms_per_day in *. Z.div_mod_to_equations. lia.
Qed.

(** The buckets stored by [updateDailySubmissions]. *)
Lemma buckets_updateDailySubmissions data now later st :
  buckets (updateDailySubmissions data now later st) =
  List.filter (withinYear later)
    (alter (bump (difficulty data))
       (snd (withToday (isoDate now) (buckets st)))
       (fst (withToday (isoDate now) (buckets st)))).
Proof.
  unfold updateDailySubmissions, buckets.
  destruct (withToday _ _) as [l1 i]. reflexivity.
Qed.

Lemma NoDup_map_date_inj (l : list DailySubmissionData) b b' :
  NoDup (map date l) -> b ∈ l -> b' ∈ l -> date b = date b' -> b = b'.
Proof.
  induction l as [|c l IH]; simpl.
  - intros _ H. now apply elem_of_nil in H.
  - intros [Hn Hd]%NoDup_cons [->|H]%elem_of_cons [->|H']%elem_of_cons E.
    + reflexivity.
    + exfalso. apply Hn. rewrite E. apply list_elem_of_fmap. eauto.
    + exfalso. apply Hn. rewrite <- E. apply list_elem_of_fmap. eauto.
    + now apply IH.
Qed.

(** At most one bucket per date: kept by an update. *)
Lemma updateDailySubmissions_nodup data now later st :
  NoDup (map date (buckets st)) ->
  NoDup (map date (buckets (updateDailySubmissions data now later st))).
Proof.
  intros Hnd. rewrite buckets_updateDailySubmissions.
  pose proof (withToday_spec (isoDate now) (buckets st)) as H.
  destruct (withToday _ _) as [l1 i]. destruct H as (_ & _ & _ & H).
  apply NoDup_map_date_filter. cbn [fst snd]. rewrite map_date_alter. auto.
Qed.

(** Every stored bucket of another date was there before, unchanged. *)
Lemma updateDailySubmissions_others data now later st b :
  b ∈ buckets (updateDailySubmissions data now later st) ->
  date b <> isoDate now -> b ∈ buckets st.
Proof.
  rewrite buckets_updateDailySubmissions.
  pose proof (withToday_spec (isoDate now) (buckets st)) as H.
  destruct (withToday _ _) as [l1 i].
  destruct H as ((b0 & Hi & Hd0 & _) & Hfrom & _ & _). cbn [fst snd].
  intros [Hin _]%bucket_of_filter Hne.
  apply bucket_of_alter in Hin as [Hin|(b1 & Hb1 & ->)].
  - destruct (Hfrom b Hin) as [?| ->]; [assumption|].
    exfalso. apply Hne. reflexivity.
  - rewrite Hi in Hb1. injection Hb1 as <-. rewrite date_bump in Hne.
    exfalso. apply Hne. exact Hd0.
Qed.

(** The bucket of the event date after the update: the bucket [find]
    returned, or a fresh one, with the submission counted. *)
Lemma updateDailySubmissions_today data now later st :
  tame -> prompt now later ->
  first_day <= now / ms_per_day <= last_day ->
  exists b0,
    bump (difficulty data) b0
      ∈ buckets (updateDailySubmissions data now later st) /\
    date b0 = isoDate now /\
    (b0 ∈ buckets st \/
     (isoDate now ∉ map date (buckets st)) /\ b0 = freshBucket (isoDate now)).
Proof.
  intros Ht Hp Hr. rewrite buckets_updateDailySubmissions.
  pose proof (withToday_spec (isoDate now) (buckets st)) as H.
  destruct (withToday _ _) as [l1 i].
  destruct H as ((b0 & Hi & Hd0 & Hor) & _). cbn [fst snd].
  exists b0. split; [|auto].
  apply bucket_of_filter. split.
  - apply list_elem_of_lookup. exists i. 
    rewrite list_lookup_alter_eq, Hi. reflexivity.
  - apply (withinYear_today now); assumption.
Qed.

(** Every stored bucket has a date that [new Date] takes, for a time
    that is not before the cut. *)
Lemma updateDailySubmissions_parsed data now later st b :
  b ∈ buckets (updateDailySubmissions data now later st) ->
  exists t, parseDate (date b) = Some t /\ setDateBack 365 later <= t.
Proof.
  rewrite buckets_updateDailySubmissions.
  intros [_ H]%bucket_of_filter. now apply withinYear_parsed.
Qed.

(** Every stored bucket with a date of the form [YYYY-MM-DD] is dated at
    most 365 days before the event. *)
Lemma updateDailySubmissions_within data now later st b day :
  tame -> now <= later ->
  b ∈ buckets (updateDailySubmissions data now later st) ->
  parseDay (date b) = Some day -> now / ms_per_day - 365 <= day.
Proof.
  intros Ht Hl. rewrite buckets_updateDailySubmissions.
  intros [_ H]%bucket_of_filter. now apply (withinYear_day now later b).
Qed.

Lemma step_nodup st st' :
  Background.step st st' ->
  NoDup (map date (buckets st)) -> NoDup (map date (buckets st')).
Proof.
  intros [now later|k|data now later] H.
  - destruct (decide (lastPushDate st = Some (isoDate now))) as [Hs|Hn].
    + now rewrite updateStreak_same_day.
    + unfold Streak.updateStreak.
      rewrite bool_decide_eq_false_2 by assumption.
      match goal with
      | |- context [Streak.checkAchievements ?k ?s] =>
          pose proof (checkAchievements_streak_fields k s) as (_ & _ & _ & Hd);
          destruct (Streak.checkAchievements k s) as [st2 newA]
      end.
      unfold buckets. cbn [fst snd] in *. now rewrite Hd.
  - destruct (checkAchievements_streak_fields k st) as (_ & _ & _ & Hd).
    unfold buckets. now rewrite Hd.
  - now apply updateDailySubmissions_nodup.
Qed.

Lemma reachable_nodup st st' :
  Background.reachable st st' ->
  NoDup (map date (buckets st)) -> NoDup (map date (buckets st')).
Proof.
  induction 1 as [|st1 st2 _ IH Hstep]; intros H; [assumption|].
  eapply step_nodup; eauto.
Qed.

End DailyFacts.

Section DailyClaims.
Import Text JsDate Store Daily.

(** C7. The invariant of the daily buckets under [updateDailySubmissions]
    at a clock reading of day [now / ms_per_day], the event date, the cut
    being taken at a reading [later]: at most one bucket per date (kept by
    every update, and true of every store reachable from the empty one);
    buckets of other dates are never created or changed, and the bucket
    of the event date is the one that was there, or a fresh one when
    there was none, with the submission counted; after every update every
    stored bucket has a date that [new Date] takes, not before the cut,
    and is dated at most 365 days before the event date, so a bucket
    dated earlier is gone after the very next update.  The bounds in days
    are for hosts whose zone offsets differ by less than a day and for
    readings of the clock that follow each other. *)
Theorem C7_daily_buckets {host : Host} :
  (forall data now later st,
      NoDup (map date (buckets st)) ->
      NoDup (map date (buckets (updateDailySubmissions data now later st)))) /\
  (forall st,
      Background.reachable Store.empty st -> NoDup (map date (buckets st))) /\
  (forall data now later st b,
      b ∈ buckets (updateDailySubmissions data now later st) ->
      date b <> isoDate now -> b ∈ buckets st) /\
  (forall data now later st,
      tame -> prompt now later ->
      first_day <= now / ms_per_day <= last_day ->
      (isoDate now ∉ map date (buckets st)) ->
      bump (difficulty data) (freshBucket (isoDate now))
        ∈ buckets (updateDailySubmissions data now later st)) /\
  (forall data now later st b,
      tame -> prompt now later ->
      first_day <= now / ms_per_day <= last_day ->
      NoDup (map date (buckets st)) ->
      b ∈ buckets st -> date b = isoDate now ->
      bump (difficulty data) b
        ∈ buckets (updateDailySubmissions data now later st)) /\
  (forall data now later st b,
      b ∈ buckets (updateDailySubmissions data now later st) ->
      exists t, parseDate (date b) = Some t /\ setDateBack 365 later <= t) /\
  (forall data now later st b day,
      tame -> now <= later ->
      b ∈ buckets (updateDailySubmissions data now later st) ->
      parseDay (date b) = Some day -> now / ms_per_day - 365 <= day) /\
  (forall data now later st b day,
      tame -> now <= later ->
      b ∈ buckets st ->
      parseDay (date b) = Some day -> day < now / ms_per_day - 365 ->
      date b ∉ map date (buckets (updateDailySubmissions data now later st))).
Proof.
  split; [exact updateDailySubmissions_nodup|].
  split; [intros st Hr; apply (reachable_nodup _ _ Hr); constructor|].
  split; [exact updateDailySubmissions_others|].
  split; [|split; [|split; [|split]]].
  - intros data now later st Ht Hp Hr Hnone.
    destruct (updateDailySubmissions_today data now later st Ht Hp Hr)
      as (b0 & Hin & Hd & [Hb0|[_ ->]]); [|assumption].
    exfalso. apply Hnone. rewrite <- Hd. apply list_elem_of_fmap. eauto.
  - intros data now later st b Ht Hp Hr Hnd Hb Hd.
    destruct (updateDailySubmissions_today data now later st Ht Hp Hr)
      as (b0 & Hin & Hd0 & [Hb0|[Hnone _]]).
    + rewrite (NoDup_map_date_inj _ b b0 Hnd Hb Hb0); [assumption | congruence].
    + exfalso. apply Hnone. rewrite <- Hd. apply list_elem_of_fmap. eauto.
  - exact updateDailySubmissions_parsed.
  - exact updateDailySubmissions_within.
  - intros data now later st b day Ht Hl Hb Hp Hold Hin.
    apply list_elem_of_fmap in Hin as (b' & Hd & Hin).
    rewrite Hd in Hp.
    pose proof (updateDailySubmissions_within _ _ _ _ _ _ Ht Hl Hin Hp). lia.
Qed.

(** An event on 2025-01-05 in a store whose only bucket is dated
    2023-12-31: the old bucket is dropped and the new one is created. *)
Lemma C7_daily_buckets_witness :
  buckets (updateDailySubmissions (host := utc) two_sum
             (20093 * ms_per_day + 1000) (20093 * ms_per_day + 1001) stale_store)
  = [ {| date := "2025-01-05"; submissions := 1;
         problems := {| p_easy := 1; p_medium := 0; p_hard := 0 |} |} ] /\
  ("2023-12-31" ∉
     map date (buckets (updateDailySubmissions (host := utc) two_sum
                          (20093 * ms_per_day + 1000)
                          (20093 * ms_per_day + 1001) stale_store))).
Proof.
  split; [reflexivity|].
  apply (proj2 (proj2 (proj2 (proj2 (proj2 (proj2 (proj2
           (C7_daily_buckets (host := utc))))))))
           two_sum (20093 * ms_per_day + 1000) (20093 * ms_per_day + 1001)
           stale_store
           {| date := "2023-12-31"; submissions := 2;
              problems := {| p_easy := 1; p_medium := 1; p_hard := 0 |} |}
           19722).
  - apply tame_fixedOffset.
  - unfold ms_per_day. lia.
  - constructor.
  - reflexivity.
  - reflexivity.
Defined.

End DailyClaims.

(** ** The GitHub service: what it throws *)

Section ServiceErrors.
Import Text Slug GitHub Codes.
Context {W : Type} {client : Octokit W}.

Lemma throws_ret {A} P (a : A) : throws (W:=W) P (mret a).
Proof. intros s. exact I. Qed.

Lemma throws_throw {A} (P : Thrown -> Prop) e : P e -> throws (W:=W) (A:=A) P (throw e).
Proof. intros H s. exact H. Qed.

Lemma throws_bind {A B} P (m : Prog W A) (k : A -> Prog W B) :
  throws P m -> (forall a, throws P (k a)) -> throws P (m ≫= k).
Proof.
  intros Hm Hk s. specialize (Hm s).
  unfold mbind, prog_bind, bind. destruct (m s) as [[a|e] s']; simpl in *.
  - apply Hk.
  - exact Hm.
Qed.

Lemma throws_try_catch {A} (Q P : Thrown -> Prop) (m : Prog W A) handler :
  throws Q m -> (forall e, Q e -> throws P (handler e)) ->
  throws P (try_catch m handler).
Proof.
  intros Hm Hh s. specialize (Hm s).
  unfold try_catch. destruct (m s) as [[a|e] s']; simpl in *.
  - exact I.
  - apply (Hh e Hm).
Qed.

Lemma throws_weaken {A} (P Q : Thrown -> Prop) (m : Prog W A) :
  (forall e, P e -> Q e) -> throws P m -> throws Q m.
Proof.
  intros H Hm s. specialize (Hm s). destruct (fst (m s)); auto.
Qed.

Lemma throws_send {A} codes req (act : W -> (TransportError + A) * W) :
  throws (raw_or codes) (send req act).
Proof.
  intros s. unfold send. destruct (act (world s)) as [[t|a] w']; simpl; exact I.
Qed.

Lemma throws_getOwner P : throws (W:=W) P getOwner.
Proof. intros s. exact I. Qed.

Lemma throws_getRepo P : throws (W:=W) P getRepo.
Proof. intros s. exact I. Qed.

Lemma throws_setTarget P o r : throws (W:=W) P (setTarget o r).
Proof. intros s. exact I. Qed.

Lemma statusCode_listed status : statusCode status ∈ listed.
Proof.
  unfold statusCode.
  destruct status as [z|]; [|vm_compute; set_solver].
  destruct (decide (z = 401)) as [->|]; [set_solver|].
  destruct (decide (z = 403)) as [->|]; [set_solver|].
  destruct (decide (z = 404)) as [->|]; [set_solver|].
  destruct (decide (z = 422)) as [->|]; [set_solver|].
  assert (E : match z with
              | 401 => "UNAUTHORIZED" | 403 => "FORBIDDEN" | 404 => "NOT_FOUND"
              | 422 => "VALIDATION_FAILED" | _ => "UNKNOWN_ERROR"
              end = "UNKNOWN_ERROR").
  { destruct z as [|p|p]; try reflexivity.
    do 9 (destruct p as [p|p|]; try reflexivity); lia. }
  rewrite E. set_solver.
Qed.

Lemma listed_thrown c : c ∈ listed -> c ∈ thrown.
Proof. unfold thrown. intros H. apply elem_of_app. auto. Qed.

(** [handleGitHubError] normalises what the transport throws and keeps a
    [GitHubError] as it is. *)
Lemma handle_normalized codes e :
  (forall c, c ∈ listed -> c ∈ codes) ->
  raw_or codes e -> normalized codes (ThrownGitHubError (handleGitHubError e)).
Proof.
  intros Hsub H. destruct e as [g|[msg st [resp|]|]]; simpl.
  - exact H.
  - apply Hsub, statusCode_listed.
  - apply Hsub. set_solver.
  - apply Hsub. set_solver.
Qed.

Lemma normalized_raw_or codes e : normalized codes e -> raw_or codes e.
Proof. destruct e; simpl; auto. Qed.

Lemma throws_rethrow {A} codes (m : Prog W A) :
  (forall c, c ∈ listed -> c ∈ codes) ->
  throws (raw_or codes) m ->
  throws (normalized codes)
    (try_catch m (fun error => throw (ThrownGitHubError (handleGitHubError error)))).
Proof.
  intros Hsub Hm. apply (throws_try_catch (raw_or codes)); [assumption|].
  intros e He. apply throws_throw. now apply handle_normalized.
Qed.

Lemma throws_octokit_getContent codes path :
  throws (raw_or codes) (octokit_getContent path).
Proof.
  unfold octokit_getContent.
  apply throws_bind; [apply throws_getOwner|]. intros o.
  apply throws_bind; [apply throws_getRepo|]. intros r.
  apply throws_send.
Qed.

Lemma throws_octokit_put codes path msg content sha :
  throws (raw_or codes) (octokit_createOrUpdateFileContents path msg content sha).
Proof.
  unfold octokit_createOrUpdateFileContents.
  apply throws_bind; [apply throws_getOwner|]. intros o.
  apply throws_bind; [apply throws_getRepo|]. intros r.
  apply throws_send.
Qed.

Lemma throws_checkFileExists path : throws (normalized listed) (checkFileExists path).
Proof.
  unfold checkFileExists. apply (throws_try_catch (raw_or listed)).
  - apply throws_bind; [apply throws_octokit_getContent|].
    intros _. apply throws_ret.
  - intros e He. destruct (hasStatus 404 e); [apply throws_ret|].
    apply throws_throw. now apply handle_normalized.
Qed.

Lemma throws_createFile path content msg :
  throws (normalized listed) (createFile path content msg).
Proof.
  unfold createFile. apply throws_rethrow; [auto|]. apply throws_octokit_put.
Qed.

Lemma throws_updateFile path content msg :
  throws (normalized thrown) (updateFile path content msg).
Proof.
  unfold updateFile. apply throws_rethrow; [exact listed_thrown|].
  apply throws_bind; [apply throws_octokit_getContent|].
  intros [sha|].
  - apply throws_octokit_put.
  - apply throws_throw. simpl. unfold thrown. set_solver.
Qed.

Lemma normalized_listed_thrown e : normalized listed e -> normalized thrown e.
Proof. destruct e; simpl; [apply listed_thrown | auto]. Qed.

Lemma throws_saveSolution platform problemId code language :
  throws (normalized thrown) (saveSolution platform problemId code language).
Proof.
  unfold saveSolution, getFilePath.
  repeat match goal with
         | |- context [String.eqb ?a ?b] => destruct (String.eqb a b)
         end;
    try (apply throws_throw; simpl; unfold thrown; set_solver).
  all: apply throws_bind;
    [eapply throws_weaken; [apply normalized_listed_thrown | apply throws_checkFileExists]|];
    intros fileExists; apply throws_rethrow; [exact listed_thrown|];
    apply (throws_weaken (normalized thrown)); [apply normalized_raw_or|];
    destruct fileExists;
    [apply throws_updateFile
    |eapply throws_weaken; [apply normalized_listed_thrown | apply throws_createFile]].
Qed.

Lemma throws_verifyRepoAccess : throws (normalized listed) verifyRepoAccess.
Proof.
  unfold verifyRepoAccess. apply throws_rethrow; [auto|].
  apply throws_bind; [apply throws_getOwner|]. intros o.
  apply throws_bind; [apply throws_getRepo|]. intros r.
  apply throws_bind; [apply throws_send|]. intros data. apply throws_ret.
Qed.

Lemma throws_forEach {A} P (xs : list A) (body : A -> Prog W unit) :
  (forall x, throws P (body x)) -> throws P (forEach xs body).
Proof.
  intros H. induction xs as [|x xs IH]; simpl.
  - apply throws_ret.
  - apply throws_bind; [apply H | intros _; exact IH].
Qed.

Lemma throws_ensure path content msg :
  throws (normalized listed)
    (exists_ ← checkFileExists path;
     if exists_ : bool then mret tt else createFile path content msg).
Proof.
  apply throws_bind; [apply throws_checkFileExists|].
  intros [|]; [apply throws_ret | apply throws_createFile].
Qed.

Lemma throws_initializeFolders_v1 :
  throws (normalized listed) GitHubV1.initializeFolders.
Proof.
  unfold GitHubV1.initializeFolders. apply throws_rethrow; [auto|].
  apply (throws_weaken (normalized listed)); [apply normalized_raw_or|].
  apply throws_bind; [apply throws_checkFileExists|]. intros readmeExists.
  apply throws_bind.
  - destruct readmeExists; [apply throws_ret | apply throws_createFile].
  - intros _. apply throws_forEach. intros folder. apply throws_ensure.
Qed.

Lemma throws_createRepositoryWithStructure repoName description :
  throws (normalized listed)
    (GitHubV1.createRepositoryWithStructure repoName description).
Proof.
  unfold GitHubV1.createRepositoryWithStructure.
  apply (throws_try_catch (raw_or listed)).
  - apply throws_bind.
    + apply (throws_try_catch (raw_or listed)); [apply throws_send|].
      intros e He. destruct (hasStatus 422 e).
      * apply (throws_try_catch (fun _ => True)).
        -- intros s. destruct (fst _); exact I.
        -- intros e' _. apply throws_throw. simpl. set_solver.
      * apply throws_throw. apply normalized_raw_or. now apply handle_normalized.
    + intros [[[login|] name url push]|];
        try (apply throws_throw; simpl; set_solver).
      apply throws_bind; [apply throws_setTarget|]. intros _.
      apply throws_bind.
      { eapply throws_weaken; [apply normalized_raw_or | apply throws_initializeFolders_v1]. }
      intros _.
      apply throws_bind; [apply throws_getOwner|]. intros o.
      apply throws_bind; [apply throws_getRepo|]. intros r. apply throws_ret.
  - intros [g|t] He; apply throws_throw.
    + exact He.
    + now apply handle_normalized.
Qed.

Lemma throws_initializeFolders_v2 :
  throws (normalized listed) GitHubV2.initializeFolders.
Proof.
  unfold GitHubV2.initializeFolders. apply throws_forEach. intros folder.
  apply throws_ensure.
Qed.

Lemma throws_createNewRepo name : throws (normalized listed) (GitHubV2.createNewRepo name).
Proof.
  unfold GitHubV2.createNewRepo. apply (throws_try_catch (raw_or listed)).
  - apply throws_bind; [apply throws_send|].
    intros [[[login|] rname url push]|];
      try (apply throws_throw; simpl; set_solver).
    apply throws_bind; [apply throws_setTarget|]. intros _.
    apply throws_bind; [|intros _; apply throws_ret].
    eapply throws_weaken; [apply normalized_raw_or | apply throws_verifyRepoAccess].
  - intros e He. destruct (hasStatus 422 e); apply throws_throw.
    + simpl. set_solver.
    + now apply handle_normalized.
Qed.

Lemma throws_setupRepo repoName isNew :
  throws (normalized listed) (GitHubV2.setupRepo repoName isNew).
Proof.
  unfold GitHubV2.setupRepo. apply throws_rethrow; [auto|].
  apply (throws_weaken (normalized listed)); [apply normalized_raw_or|].
  apply throws_bind; [|intros _; apply throws_initializeFolders_v2].
  destruct isNew; [apply throws_createNewRepo|].
  apply throws_bind; [apply throws_verifyRepoAccess|].
  intros [|]; [apply throws_ret | apply throws_throw; simpl; set_solver].
Qed.

(** An unsupported platform: the error is thrown at once. *)
Lemma saveSolution_unsupported platform problemId code language (s : Service W) :
  toLowerCase platform ∉ supported ->
  saveSolution platform problemId code language s =
  (Throw (ThrownGitHubError
            {| message := "Unsupported platform: " +:+ platform;
               GitHub.code := "INVALID_PLATFORM" |}), s).
Proof.
  intros H. unfold saveSolution, getFilePath.
  destruct (String.eqb_spec (toLowerCase platform) "leetcode") as [E|_].
  { exfalso. apply H. rewrite E. set_solver. }
  destruct (String.eqb_spec (toLowerCase platform) "codeforces") as [E|_].
  { exfalso. apply H. rewrite E. set_solver. }
  destruct (String.eqb_spec (toLowerCase platform) "codechef") as [E|_].
  { exfalso. apply H. rewrite E. set_solver. }
  reflexivity.
Qed.

Lemma getFilePath_supported platform problemId language :
  toLowerCase platform ∈ supported ->
  getFilePath platform problemId language =
  inr (toLowerCase platform +:+ "/" +:+ sanitizeFileName problemId +:+ "."
       +:+ getFileExtension language).
Proof.
  intros H. unfold getFilePath, supported in *.
  apply elem_of_cons in H as [->|H]; [reflexivity|].
  apply elem_of_cons in H as [->|H]; [reflexivity|].
  apply list_elem_of_singleton in H as ->. reflexivity.
Qed.

End ServiceErrors.

(** ** The GitHub service over a remote that answers *)

Section SaveSolution.
Import Text Slug GitHub Codes Remote.
Context (login : string) (sha_of : string -> string).

#[local] Instance the_client : Octokit (gmap (string * string * string) RemoteFile) :=
  ideal login sha_of.

Lemma checkFileExists_ideal (path : string) (s : Service (gmap (string * string * string) RemoteFile)) :
  checkFileExists path s =
  (Return (bool_decide (is_Some (world s !! (owner s, repo s, path)))),
   with_world s (world s) [ReqGetContent (owner s) (repo s) path]).
Proof.
  destruct (world s !! (owner s, repo s, path)) as [f|] eqn:E.
  - rewrite bool_decide_eq_true_2 by eauto.
    unfold checkFileExists, try_catch, octokit_getContent, with_world.
    unfold mbind, prog_bind, bind, getOwner, getRepo, send. cbn.
    unfold ideal_getContent. rewrite E. reflexivity.
  - rewrite bool_decide_eq_false_2 by (intros [? ?]; discriminate).
    unfold checkFileExists, try_catch, octokit_getContent, with_world.
    unfold mbind, prog_bind, bind, getOwner, getRepo, send. cbn.
    unfold ideal_getContent. rewrite E. reflexivity.
Qed.

Lemma createFile_ideal (path content msg : string) (s : Service (gmap (string * string * string) RemoteFile)) :
  world s !! (owner s, repo s, path) = None ->
  createFile path content msg s =
  (Return tt,
   with_world s (<[(owner s, repo s, path) := stored sha_of (base64 content)]> (world s))
     [ReqPutContent (owner s) (repo s) path msg (base64 content) None]).
Proof.
  intros H.
  unfold createFile, try_catch, octokit_createOrUpdateFileContents, with_world.
  unfold mbind, prog_bind, bind, getOwner, getRepo, send. cbn.
  unfold ideal_createOrUpdateFileContents. rewrite H. reflexivity.
Qed.

Lemma updateFile_ideal (path content msg : string) (f : RemoteFile) (s : Service (gmap (string * string * string) RemoteFile)) :
  world s !! (owner s, repo s, path) = Some f ->
  updateFile path content msg s =
  (Return tt,
   with_world s (<[(owner s, repo s, path) := stored sha_of (base64 content)]> (world s))
     [ReqGetContent (owner s) (repo s) path;
      ReqPutContent (owner s) (repo s) path msg (base64 content) (Some (file_sha f))]).
Proof.
  intros H.
  unfold updateFile, try_catch, octokit_getContent,
    octokit_createOrUpdateFileContents, with_world.
  unfold mbind, prog_bind, bind, getOwner, getRepo, send. cbn.
  unfold ideal_getContent. rewrite H. cbn.
  unfold ideal_createOrUpdateFileContents. rewrite H, String.eqb_refl. cbn.
  rewrite <- app_assoc. reflexivity.
Qed.

(** One call of [saveSolution] for a supported platform: it returns, the
    file at the path has the code, and the requests are an existence
    check followed by a create, or by a read of the hash and an update
    that carries it. *)
Lemma saveSolution_ideal (platform problemId code language path : string) (s : Service (gmap (string * string * string) RemoteFile)) :
  getFilePath platform problemId language = inr path ->
  saveSolution platform problemId code language s =
  (Return tt,
   with_world s
     (<[(owner s, repo s, path) := stored sha_of (base64 code)]> (world s))
     (ReqGetContent (owner s) (repo s) path ::
      match world s !! (owner s, repo s, path) with
      | None =>
          [ReqPutContent (owner s) (repo s) path
             (generateCommitMessage platform problemId false) (base64 code) None]
      | Some f =>
          [ReqGetContent (owner s) (repo s) path;
           ReqPutContent (owner s) (repo s) path
             (generateCommitMessage platform problemId true) (base64 code)
             (Some (file_sha f))]
      end)).
Proof.
  intros Hp. unfold saveSolution. rewrite Hp.
  unfold mbind, prog_bind, bind. rewrite checkFileExists_ideal.
  unfold try_catch.
  destruct (world s !! (owner s, repo s, path)) as [f|] eqn:E.
  - rewrite bool_decide_eq_true_2 by eauto.
    rewrite (updateFile_ideal _ _ _ f) by exact E.
    unfold with_world. cbn. rewrite <- app_assoc. reflexivity.
  - rewrite bool_decide_eq_false_2 by (intros [? ?]; discriminate).
    rewrite createFile_ideal by exact E.
    unfold with_world. cbn. rewrite <- app_assoc. reflexivity.
Qed.

End SaveSolution.

Section SaveSolutionClaims.
Import Text Slug GitHub Codes Remote.

(** C2. Over a remote that answers, two calls of [saveSolution] with the
    same arguments for a platform that has a folder both return; after
    them the remote holds the code at the path
    [{platform}/{sanitizedProblemId}.{extension}] and differs from the
    remote before at this path only; the second call finds the file,
    reads its hash and sends an update that carries it.  When the path
    was free, the first call sends a create without hash and the remote
    has one file more, also after the second call. *)
Theorem C2_save_twice (login : string) (sha_of : string -> string)
    (platform problemId code language : string)
    (s : Service (gmap (string * string * string) RemoteFile)) :
  toLowerCase platform ∈ supported ->
  exists s1 s2,
    saveSolution (client := ideal login sha_of)
      platform problemId code language s = (Return tt, s1) /\
    saveSolution (client := ideal login sha_of)
      platform problemId code language s1 = (Return tt, s2) /\
    world s1 !! (owner s, repo s, solutionPath platform problemId language)
      = Some {| file_content := code; file_sha := sha_of code |} /\
    world s2 = world s1 /\
    (forall k, k <> (owner s, repo s, solutionPath platform problemId language) ->
               world s2 !! k = world s !! k) /\
    sent s2 =
      (sent s1 ++
       [ReqGetContent (owner s) (repo s) (solutionPath platform problemId language);
        ReqGetContent (owner s) (repo s) (solutionPath platform problemId language);
        ReqPutContent (owner s) (repo s) (solutionPath platform problemId language)
          (generateCommitMessage platform problemId true) (base64 code)
          (Some (sha_of code))])%list /\
    (world s !! (owner s, repo s, solutionPath platform problemId language) = None ->
       sent s1 =
         (sent s ++
          [ReqGetContent (owner s) (repo s) (solutionPath platform problemId language);
           ReqPutContent (owner s) (repo s) (solutionPath platform problemId language)
             (generateCommitMessage platform problemId false) (base64 code) None])%list /\
       size (world s2) = S (size (world s))).
Proof.
  intros Hs.
  pose proof (getFilePath_supported platform problemId language Hs) as Hp.
  fold (solutionPath platform problemId language) in Hp.
  set (path := solutionPath platform problemId language) in *.
  pose proof (saveSolution_ideal login sha_of platform problemId code language
                path s Hp) as H1.
  set (s1 := with_world s _ _) in H1.
  pose proof (saveSolution_ideal login sha_of platform problemId code language
                path s1 Hp) as H2.
  assert (Hl : world s1 !! (owner s, repo s, path)
               = Some (stored sha_of (base64 code))).
  { subst s1. cbn. apply lookup_insert_eq. }
  change (owner s1) with (owner s) in H2. change (repo s1) with (repo s) in H2.
  rewrite Hl in H2.
  set (s2 := with_world s1 _ _) in H2.
  exists s1, s2. split; [exact H1|]. split; [exact H2|].
  split; [exact Hl|]. split; [|split; [|split]].
  - subst s2 s1. cbn. apply insert_insert_eq.
  - intros k Hk. subst s2 s1. cbn. rewrite insert_insert_eq.
    apply lookup_insert_ne. congruence.
  - reflexivity.
  - intros Hnone. split.
    + subst s1. cbn. now rewrite Hnone.
    + subst s2 s1. cbn. rewrite insert_insert_eq.
      now apply map_size_insert_None.
Qed.

(** Two saves of the same LeetCode solution into an empty repository. *)
Lemma C2_save_twice_witness :
  toLowerCase "leetcode" ∈ supported /\
  exists s1 s2,
    saveSolution (client := ideal "octocat" (fun c => "sha1:" +:+ c))
      "leetcode" "Two Sum! (Easy)" "print(1)" "python" fresh = (Return tt, s1) /\
    saveSolution (client := ideal "octocat" (fun c => "sha1:" +:+ c))
      "leetcode" "Two Sum! (Easy)" "print(1)" "python" s1 = (Return tt, s2) /\
    world s2 = {[ ("octocat", "solutions", "leetcode/two-sum-easy.py") :=
                  {| file_content := "print(1)"; file_sha := "sha1:print(1)" |} ]}.
Proof.
  assert (Hs : toLowerCase "leetcode" ∈ supported) by (vm_compute; constructor).
  split; [exact Hs|].
  destruct (C2_save_twice "octocat" (fun c => "sha1:" +:+ c)
              "leetcode" "Two Sum! (Easy)" "print(1)" "python" fresh Hs)
    as (s1 & s2 & H1 & H2 & Hl & Hw & Hk & _).
  exists s1, s2. split; [exact H1|]. split; [exact H2|].
  rewrite Hw. apply map_eq. intros k.
  destruct (decide (k = ("octocat", "solutions", "leetcode/two-sum-easy.py")))
    as [->|Hne].
  - rewrite lookup_singleton_eq. exact Hl.
  - rewrite lookup_singleton_ne by congruence.
    rewrite <- Hw, (Hk k Hne). reflexivity.
Defined.

End SaveSolutionClaims.

(** ** The content script *)

Section ContentFacts.
Import Text Slug Dom Content.




(** The success test holds only on the three platforms. *)
Lemma isSuccessful_supported platform page :
  ContentFull.isSuccessfulSubmission platform page = true ->
  platform ∈ Codes.supported.
Proof.
  unfold ContentFull.isSuccessfulSubmission, Codes.supported.
  destruct (String.eqb_spec platform "leetcode") as [->|_]; [set_solver|].
  destruct (String.eqb_spec platform "codeforces") as [->|_]; [set_solver|].
  destruct (String.eqb_spec platform "codechef") as [->|_]; [set_solver|].
  discriminate.
Qed.

Lemma orString_truthy s fallback :
  truthy fallback = true -> truthy (orString s fallback) = true.
Proof.
  intros H. unfold orString. destruct s as [t|]; [|assumption].
  destruct (truthy t) eqn:E; assumption.
Qed.

(** On the three platforms the try block yields a record with its three
    required fields, or an exception. *)
Lemma extractFields_fields platform page data :
  platform ∈ Codes.supported ->
  ContentFull.extractFields platform page = inr data ->
  is_Some (problemId data) /\ is_Some (code data) /\ is_Some (language data).
Proof.
  unfold ContentFull.extractFields, Codes.supported.
  intros Hs.
  destruct (String.eqb_spec platform "leetcode") as [_|H1].
  { destruct (ContentFull.extractLeetCodeCode page); [discriminate|].
    intros [= <-]. simpl. eauto. }
  destruct (String.eqb_spec platform "codeforces") as [_|H2].
  { destruct (ContentFull.extractCodeforceCode page); [discriminate|].
    destruct (ContentFull.extractCodeforceLanguage page); [discriminate|].
    intros [= <-]. simpl. eauto. }
  destruct (String.eqb_spec platform "codechef") as [_|H3].
  { destruct (ContentFull.extractCodechefCode page); [discriminate|].
    destruct (ContentFull.extractCodechefLanguage page); [discriminate|].
    intros [= <-]. simpl. eauto. }
  exfalso.
  apply elem_of_cons in Hs as [->|Hs]; [contradiction|].
  apply elem_of_cons in Hs as [->|Hs]; [contradiction|].
  apply list_elem_of_singleton in Hs. contradiction.
Qed.

(** On the three platforms [extractSubmissionData] always returns: what
    the try block built, or the record of fallbacks. *)
Lemma extractSubmissionData_total platform page :
  platform ∈ Codes.supported ->
  exists data,
    ContentFull.extractSubmissionData platform page = inr data /\
    (ContentFull.extractFields platform page = inr data \/
     (exists e, ContentFull.extractFields platform page = inl e) /\
     data = ContentFull.withFallbacks page (justPlatform platform)).
Proof.
  intros Hs. unfold ContentFull.extractSubmissionData.
  destruct (ContentFull.extractFields platform page) as [e|data] eqn:E.
  - eexists. split; [reflexivity|]. right. eauto.
  - destruct (extractFields_fields _ _ _ Hs E) as (_ & [c Hc] & _).
    exists data. unfold logSubmission. rewrite Hc. auto.
Qed.

End ContentFacts.

Section ContentClaims.
Import Text Slug Dom Content.




(** C4 (as stated, refuted). On a LeetCode page with the success marker
    and a title but no editor, every strategy for the code fails, and the
    observer still sends a record: the code is a placeholder, and the
    problem id is not the one its extractor finds on this page. *)
Lemma C4_counterexample :
  ContentFull.extractLeetCodeCode ContentFull.no_editor_page
    = inl (Error "No code content found") /\
  ContentFull.extractLeetCodeProblemId ContentFull.no_editor_page = "1-two-sum" /\
  ContentFull.detector ContentFull.no_editor_page [ContentFull.no_editor_page]
    = [ NEW_SUBMISSION
          {| platform := "leetcode";
             problemId := Some "unknown-1736071200000";
             code := Some "// Code extraction failed";
             language := Some "unknown";
             difficulty := None; title := None |} ] /\
  ContentFull.detector ContentFull.no_editor_page [ContentFull.no_editor_page]
    <> [].
Proof. vm_compute. repeat split; congruence. Qed.

(** C4 (amended). In the content script with fallback strategies a record
    is never aborted: whenever the success test holds the observer sends
    a record with a problem id, a code and a language; when the try block
    throws (on LeetCode: exactly when every strategy for the code fails)
    the code of the record is the placeholder; when the code is found on
    LeetCode the record carries what each extractor returns, whatever the
    optional difficulty and title are.  In the basic content script a
    failing problem id, code or language aborts the record and nothing is
    sent. *)
Theorem C4_extraction_fallbacks :
  (forall loaded page,
      ContentFull.isSuccessfulSubmission (detectPlatform loaded) page = true ->
      exists data,
        ContentFull.detector loaded [page] = [NEW_SUBMISSION data] /\
        is_Some (problemId data) /\ is_Some (code data) /\
        is_Some (language data)) /\
  (forall platform page e,
      platform ∈ Codes.supported ->
      ContentFull.extractFields platform page = inl e ->
      exists data,
        ContentFull.extractSubmissionData platform page = inr data /\
        code data = Some "// Code extraction failed") /\
  (forall page e,
      ContentFull.extractLeetCodeCode page = inl e <->
      ContentFull.extractFields "leetcode" page = inl e) /\
  (forall page c,
      ContentFull.extractLeetCodeCode page = inr c ->
      ContentFull.extractSubmissionData "leetcode" page =
      inr {| platform := "leetcode";
             problemId := Some (ContentFull.extractLeetCodeProblemId page);
             code := Some c;
             language := Some (ContentFull.extractLeetCodeLanguage page);
             difficulty := ContentFull.extractLeetCodeDifficulty page;
             title := ContentFull.extractLeetCodeTitle page |}) /\
  (forall page e,
      ContentBasic.extractLeetCodeProblemId page = inl e \/
      ContentBasic.extractLeetCodeCode page = inl e \/
      ContentBasic.extractLeetCodeLanguage page = inl e ->
      onMutation (ContentBasic.isSuccessfulSubmission "leetcode")
        (ContentBasic.extractSubmissionData "leetcode") page = []).
Proof.
  split; [|split; [|split; [|split]]].
  - intros loaded page Hp.
    pose proof (isSuccessful_supported _ _ Hp) as Hs.
    destruct (extractSubmissionData_total (detectPlatform loaded) page Hs)
      as (data & Hd & Hor).
    exists data. split.
    + unfold ContentFull.detector. cbn [observe]. unfold onMutation.
      rewrite Hp, Hd. reflexivity.
    + destruct Hor as [Hf|[_ ->]].
      * exact (extractFields_fields _ _ _ Hs Hf).
      * simpl. eauto.
  - intros platform page e Hs He.
    destruct (extractSubmissionData_total platform page Hs)
      as (data & Hd & [Hf|[_ ->]]); [congruence|].
    eexists. split; [exact Hd | reflexivity].
  - intros page e. unfold ContentFull.extractFields.
    change (String.eqb "leetcode" "leetcode") with true. cbv iota zeta.
    destruct (ContentFull.extractLeetCodeCode page);
      split; intros H; first [discriminate H | injection H as ->; reflexivity].
  - intros page c Hc. unfold ContentFull.extractSubmissionData,
      ContentFull.extractFields.
    change (String.eqb "leetcode" "leetcode") with true. cbv iota zeta.
    rewrite Hc. reflexivity.
  - intros page e H. unfold onMutation.
    destruct (ContentBasic.isSuccessfulSubmission "leetcode" page); [|reflexivity].
    unfold ContentBasic.extractSubmissionData, ContentBasic.leetcodeFields.
    change (String.eqb "leetcode" "leetcode") with true. cbv iota.
    destruct H as [H|[H|H]].
    + now rewrite H.
    + destruct (ContentBasic.extractLeetCodeProblemId page); [reflexivity|].
      now rewrite H.
    + destruct (ContentBasic.extractLeetCodeProblemId page); [reflexivity|].
      destruct (ContentBasic.extractLeetCodeCode page); [reflexivity|].
      now rewrite H.
Qed.

(** The page without editor: the try block throws and the record sent has
    the placeholder code. *)
Lemma C4_extraction_fallbacks_witness :
  "leetcode" ∈ Codes.supported /\
  ContentFull.extractFields "leetcode" ContentFull.no_editor_page
    = inl (Error "No code content found") /\
  exists data,
    ContentFull.extractSubmissionData "leetcode" ContentFull.no_editor_page
      = inr data /\
    code data = Some "// Code extraction failed".
Proof.
  assert (Hs : "leetcode" ∈ Codes.supported) by (vm_compute; constructor).
  assert (He : ContentFull.extractFields "leetcode" ContentFull.no_editor_page
               = inl (Error "No code content found")) by reflexivity.
  split; [exact Hs|]. split; [exact He|].
  exact (proj1 (proj2 C4_extraction_fallbacks) "leetcode"
           ContentFull.no_editor_page _ Hs He).
Defined.

(** C10. For every platform whose lower-cased name is not that of a
    folder, [saveSolution] throws the [GitHubError] with code
    [INVALID_PLATFORM] and leaves the service, the remote and the list of
    requests sent as they were: nothing is read or written.  This is the
    case of the platform ['unknown'], the only value [detectPlatform]
    yields besides the three folders. *)
Theorem C10_unsupported_platform :
  (forall W (client : GitHub.Octokit W) platform problemId code language
          (s : GitHub.Service W),
      toLowerCase platform ∉ Codes.supported ->
      GitHub.saveSolution platform problemId code language s =
      (GitHub.Throw (GitHub.ThrownGitHubError
         {| GitHub.message := "Unsupported platform: " +:+ platform;
            GitHub.code := "INVALID_PLATFORM" |}), s)) /\
  (forall page,
      detectPlatform page ∈ Codes.supported \/ detectPlatform page = "unknown") /\
  (toLowerCase "unknown" ∉ Codes.supported).
Proof.
  split; [|split].
  - intros W client platform problemId code language s H.
    now apply saveSolution_unsupported.
  - intros page. unfold detectPlatform, Codes.supported.
    destruct (includes "leetcode" (hostname page)); [left; set_solver|].
    destruct (includes "codeforces" (hostname page)); [left; set_solver|].
    destruct (includes "codechef" (hostname page)); [left; set_solver|].
    now right.
  - vm_compute. intros H.
    repeat (apply elem_of_cons in H as [H|H]; [discriminate|]).
    now apply elem_of_nil in H.
Qed.

(** A record of the platform ['unknown'] over the empty remote. *)
Lemma C10_unsupported_platform_witness :
  (toLowerCase "unknown" ∉ Codes.supported) /\
  GitHub.saveSolution (client := Remote.ideal "octocat" (fun c => c))
    "unknown" "two-sum" "print(1)" "python" Remote.fresh =
  (GitHub.Throw (GitHub.ThrownGitHubError
     {| GitHub.message := "Unsupported platform: unknown";
        GitHub.code := "INVALID_PLATFORM" |}), Remote.fresh).
Proof.
  split; [exact (proj2 (proj2 C10_unsupported_platform))|].
  exact (proj1 C10_unsupported_platform _ (Remote.ideal "octocat" (fun c => c))
           "unknown" "two-sum" "print(1)" "python" Remote.fresh
           (proj2 (proj2 C10_unsupported_platform))).
Defined.

End ContentClaims.

Section ErrorClaims.
Import Text Slug GitHub Codes Remote.

(** C9 (as stated, refuted). [saveSolution] for the platform ['unknown']
    throws a [GitHubError] whose code, [INVALID_PLATFORM], is not in the
    set of the specification; when the remote answers with a directory
    listing for the path, it throws one with the code [INVALID_RESPONSE],
    which is not in the set either. *)
Lemma C9_counterexample :
  fst (saveSolution (client := ideal "octocat" (fun c => c))
         "unknown" "two-sum" "print(1)" "python" fresh)
    = Throw (ThrownGitHubError
               {| message := "Unsupported platform: unknown";
                  code := "INVALID_PLATFORM" |}) /\
  ("INVALID_PLATFORM" ∉ listed) /\
  fst (saveSolution (client := directories)
         "leetcode" "two-sum" "print(1)" "python" over_directories)
    = Throw (ThrownGitHubError
               {| message := "Invalid file data received from GitHub";
                  code := "INVALID_RESPONSE" |}) /\
  ("INVALID_RESPONSE" ∉ listed) /\
  ~ throws (normalized listed)
      (saveSolution (client := ideal "octocat" (fun c => c))
         "unknown" "two-sum" "print(1)" "python").
Proof.
  assert (H1 : "INVALID_PLATFORM" ∉ listed).
  { unfold listed. intros H.
    repeat (apply elem_of_cons in H as [H|H]; [discriminate|]).
    now apply elem_of_nil in H. }
  assert (H2 : "INVALID_RESPONSE" ∉ listed).
  { unfold listed. intros H.
    repeat (apply elem_of_cons in H as [H|H]; [discriminate|]).
    now apply elem_of_nil in H. }
  split; [reflexivity|]. split; [exact H1|].
  split; [reflexivity|]. split; [exact H2|].
  intros H. specialize (H fresh). apply H1. exact H.
Qed.

(** C9 (amended). Whatever the transport answers or throws, every error
    thrown by a public operation of the service is a [GitHubError], never
    what the transport threw: the set-up operations and [verifyRepoAccess]
    throw codes of the set of the specification only; [saveSolution]
    throws these and, besides, [INVALID_PLATFORM] and [INVALID_RESPONSE];
    the constructor throws [AUTH_REQUIRED]. *)
Theorem C9_errors_normalized :
  forall W (client : Octokit W),
    (forall platform problemId code language,
        throws (normalized thrown)
          (saveSolution platform problemId code language)) /\
    (forall repoName description,
        throws (normalized listed)
          (GitHubV1.createRepositoryWithStructure repoName description)) /\
    (forall repoName isNew,
        throws (normalized listed) (GitHubV2.setupRepo repoName isNew)) /\
    throws (normalized listed) verifyRepoAccess /\
    (forall token o r (w : W) e,
        construct token o r w = inl e -> code e = "AUTH_REQUIRED") /\
    (forall c, c ∈ thrown <->
               c ∈ listed \/ c = "INVALID_PLATFORM" \/ c = "INVALID_RESPONSE").
Proof.
  intros W client. split; [|split; [|split; [|split; [|split]]]].
  - intros. apply throws_saveSolution.
  - intros. apply throws_createRepositoryWithStructure.
  - intros. apply throws_setupRepo.
  - apply throws_verifyRepoAccess.
  - intros token o r w e. unfold construct.
    destruct (truthy token); [discriminate|]. intros [= <-]. reflexivity.
  - intros c. unfold thrown. rewrite elem_of_app, elem_of_cons,
      list_elem_of_singleton. tauto.
Qed.

(** A service constructed without a token. *)
Lemma C9_errors_normalized_witness :
  construct "" "octocat" "solutions" (∅ : gmap (string * string * string) RemoteFile)
    = inl {| message := "Authentication token is required";
             code := "AUTH_REQUIRED" |} /\
  code {| message := "Authentication token is required";
          code := "AUTH_REQUIRED" |} = "AUTH_REQUIRED".
Proof.
  split; [reflexivity|].
  exact (proj1 (proj2 (proj2 (proj2 (proj2
           (C9_errors_normalized _ (ideal "octocat" (fun c => c)))))))
           "" "octocat" "solutions" ∅ _ eq_refl).
Defined.

End ErrorClaims.

Section SlugClaims.
Import Text Slug.

(** C5 (as stated, refuted). [sanitizeFileName] keeps the underscore,
    which the rule of the specification replaces by a hyphen. *)
Lemma C5_counterexample :
  sanitizeFileName "two_sum" = "two_sum" /\
  slugify_spec "two_sum" = "two-sum" /\
  sanitizeFileName "two_sum" <> slugify_spec "two_sum".
Proof. vm_compute. repeat split; congruence. Qed.

(** C5 (amended). The problem-id extractors of the content script slugify
    a title by the rule of the specification; [sanitizeFileName], which
    makes the file-name stem, follows the rule on every identifier without
    underscore (it keeps underscores, and replaces the other characters
    outside [a-z0-9-]), and leaves the slug of a title as it is, so that
    the stem of an extracted title is its slug by the rule; in particular
    it turns "Two Sum! (Easy)" into "two-sum-easy". *)
Theorem C5_slug_rule :
  (forall title, titleSlug title = slugify_spec title) /\
  (forall name,
      has_underscore name = false -> sanitizeFileName name = slugify_spec name) /\
  (forall title, sanitizeFileName (titleSlug title) = slugify_spec title) /\
  sanitizeFileName "Two Sum! (Easy)" = "two-sum-easy".
Proof.
  split; [exact titleSlug_spec|]. split; [|split; [|reflexivity]].
  - intros name H. rewrite <- titleSlug_spec. now apply sanitizeFileName_titleSlug.
  - intros title. rewrite <- titleSlug_spec. apply titleSlug_fixed.
Qed.

(** The identifier of the specification has no underscore. *)
Lemma C5_slug_rule_witness :
  has_underscore "Two Sum! (Easy)" = false /\
  sanitizeFileName "Two Sum! (Easy)" = slugify_spec "Two Sum! (Easy)".
Proof.
  split; [reflexivity|].
  exact (proj1 (proj2 C5_slug_rule) "Two Sum! (Easy)" eq_refl).
Defined.

End SlugClaims.

(** ** The shape of stems and paths *)

Section StemFacts.
Import Text Slug Stem.

Lemma file_chars_replace_each s : file_chars (replace_each is_file_char s) = true.
Proof.
  induction s as [|c s IH]; [reflexivity|].
  cbn [replace_each file_chars]. rewrite IH, andb_true_r.
  destruct (is_file_char c) eqn:E; [exact E | reflexivity].
Qed.

Lemma file_chars_tail c s : file_chars (String c s) = true -> file_chars s = true.
Proof. cbn [file_chars]. intros [_ H]%andb_true_iff. exact H. Qed.

(** Squeezing keeps the characters it finds and adds hyphens only. *)
Lemma file_chars_squeeze s :
  file_chars s = true -> file_chars (squeeze_hyphens s) = true.
Proof.
  unfold squeeze_hyphens. induction s as [|c s IH]; [reflexivity|].
  intros H. pose proof (file_chars_tail _ _ H) as Ht. specialize (IH Ht).
  cbn [file_chars] in H. apply andb_true_iff in H as [Hc _].
  rewrite replace_runs_cons. destruct (negb (is_hyphen c)).
  - cbn [file_chars]. now rewrite Hc, IH.
  - destruct s as [|c' s']; [reflexivity|].
    destruct (negb (is_hyphen c')); [|exact IH].
    cbn [file_chars]. rewrite IH. reflexivity.
Qed.

Lemma squeezed_squeeze s : squeezed (squeeze_hyphens s) = true.
Proof.
  unfold squeeze_hyphens. induction s as [|c s IH]; [reflexivity|].
  rewrite replace_runs_cons. destruct (is_hyphen c) eqn:Ec; cbn [negb].
  - destruct s as [|c' s']; [reflexivity|].
    destruct (is_hyphen c') eqn:Ec'; cbn [negb]; [exact IH|].
    revert IH. rewrite replace_runs_cons, Ec'. cbn [negb].
    set (r := replace_runs _ s'). intros IH.
    change (squeezed (String hyphen (String c' r)))
      with (negb (is_hyphen hyphen && is_hyphen c') && squeezed (String c' r)).
    rewrite IH, Ec'. reflexivity.
  - cbn [squeezed]. destruct (replace_runs _ s) eqn:Er; [reflexivity|].
    rewrite Ec. simpl. exact IH.
Qed.

Lemma no_lead_drop_while s : starts_with_hyphen (drop_while is_hyphen s) = false.
Proof.
  induction s as [|c s IH]; [reflexivity|].
  cbn [drop_while]. destruct (is_hyphen c) eqn:E; [exact IH | exact E].
Qed.

Lemma no_lead_drop_while_end s :
  starts_with_hyphen s = false ->
  starts_with_hyphen (drop_while_end is_hyphen s) = false.
Proof.
  intros H. pose proof (drop_while_end_cons is_hyphen s) as Hh.
  destruct (drop_while_end is_hyphen s) as [|d r]; [reflexivity|].
  destruct Hh as [s' ->]. exact H.
Qed.

Lemma no_trail_drop_while_end s :
  ends_with_hyphen (drop_while_end is_hyphen s) = false.
Proof.
  induction s as [|c s IH]; [reflexivity|].
  cbn [drop_while_end].
  destruct (drop_while_end is_hyphen s) as [|d r] eqn:E.
  - destruct (is_hyphen c) eqn:Ec; [reflexivity | exact Ec].
  - exact IH.
Qed.

(** [sanitizeFileName] is: lower-case, replace, squeeze, and trim the
    hyphens at both ends. *)
Lemma sanitizeFileName_trim name :
  sanitizeFileName name =
  trim_hyphens (squeeze_hyphens (replace_each is_file_char (toLowerCase name))).
Proof.
  unfold sanitizeFileName, trim_hyphens.
  pose proof (squeezed_squeeze (replace_each is_file_char (toLowerCase name))) as Hq.
  rewrite strip_last_squeezed by now apply strip_first_keeps_squeezed.
  now rewrite strip_first_squeezed.
Qed.

Lemma file_chars_drop_while p s :
  file_chars s = true -> file_chars (drop_while p s) = true.
Proof.
  induction s as [|c s IH]; [auto|].
  intros H. cbn [drop_while]. destruct (p c); [|exact H].
  apply IH. exact (file_chars_tail _ _ H).
Qed.

Lemma file_chars_drop_while_end p s :
  file_chars s = true -> file_chars (drop_while_end p s) = true.
Proof.
  induction s as [|c s IH]; [auto|].
  intros H. specialize (IH (file_chars_tail _ _ H)).
  cbn [file_chars] in H. apply andb_true_iff in H as [Hc _].
  cbn [drop_while_end]. destruct (drop_while_end p s) as [|d r].
  - destruct (p c); [reflexivity|]. cbn [file_chars]. now rewrite Hc.
  - cbn [file_chars] in *. now rewrite Hc, IH.
Qed.

Lemma sanitizeFileName_clean name : clean (sanitizeFileName name) = true.
Proof.
  rewrite sanitizeFileName_trim. unfold clean, trim_hyphens.
  set (u := squeeze_hyphens _).
  assert (Hf : file_chars u = true)
    by (apply file_chars_squeeze, file_chars_replace_each).
  assert (Hq : squeezed u = true) by apply squeezed_squeeze.
  rewrite file_chars_drop_while_end by now apply file_chars_drop_while.
  rewrite drop_while_end_squeezed by now apply drop_while_squeezed.
  rewrite no_lead_drop_while_end by apply no_lead_drop_while.
  rewrite no_trail_drop_while_end. reflexivity.
Qed.

Lemma lower_char_file c : is_file_char c = true -> lower_char c = c.
Proof. destruct c as [[] [] [] [] [] [] [] []]; vm_compute; congruence. Qed.

Lemma toLowerCase_file s : file_chars s = true -> toLowerCase s = s.
Proof.
  induction s as [|c s IH]; [reflexivity|].
  cbn [file_chars toLowerCase]. intros [Hc Hs]%andb_true_iff.
  now rewrite lower_char_file, IH.
Qed.

Lemma replace_each_file s :
  file_chars s = true -> replace_each is_file_char s = s.
Proof.
  induction s as [|c s IH]; [reflexivity|].
  cbn [file_chars replace_each]. intros [Hc Hs]%andb_true_iff.
  now rewrite Hc, IH.
Qed.

Lemma squeeze_squeezed s : squeezed s = true -> squeeze_hyphens s = s.
Proof.
  unfold squeeze_hyphens. induction s as [|c s IH]; [reflexivity|].
  intros Hq. specialize (IH (squeezed_tail _ _ Hq)).
  rewrite replace_runs_cons. destruct (is_hyphen c) eqn:Ec; cbn [negb].
  - rewrite (is_hyphen_eq c Ec) in *.
    destruct s as [|c' s']; [reflexivity|].
    cbn [squeezed] in Hq. apply andb_true_iff in Hq as [Hn _].
    destruct (is_hyphen c') eqn:Ec'; cbn [negb].
    + vm_compute in Hn. discriminate.
    + now rewrite IH.
  - now rewrite IH.
Qed.

Lemma drop_while_no_lead s :
  starts_with_hyphen s = false -> drop_while is_hyphen s = s.
Proof.
  destruct s as [|c s]; [reflexivity|]. cbn. intros ->. reflexivity.
Qed.

Lemma drop_while_end_no_trail s :
  ends_with_hyphen s = false -> drop_while_end is_hyphen s = s.
Proof.
  induction s as [|c s IH]; [reflexivity|].
  destruct s as [|d s'].
  - cbn. intros ->. reflexivity.
  - intros H. 
    change (drop_while_end is_hyphen (String c (String d s')))
      with (match drop_while_end is_hyphen (String d s') with
            | EmptyString => if is_hyphen c then EmptyString else String c EmptyString
            | x => String c x
            end).
    rewrite IH by exact H. reflexivity.
Qed.

(** A clean stem is left as it is. *)
Lemma sanitizeFileName_of_clean s : clean s = true -> sanitizeFileName s = s.
Proof.
  unfold clean. intros H.
  apply andb_true_iff in H as [H Ht]. apply andb_true_iff in H as [H Hl].
  apply andb_true_iff in H as [Hf Hq].
  apply negb_true_iff in Ht, Hl.
  rewrite sanitizeFileName_trim, toLowerCase_file, replace_each_file,
    squeeze_squeezed by assumption.
  unfold trim_hyphens. rewrite (drop_while_no_lead s Hl).
  now apply drop_while_end_no_trail.
Qed.

End StemFacts.

Section StemProperties.
Import Text Slug Stem GitHub.

Lemma count_char_app c s t :
  count_char c (s +:+ t) = (count_char c s + count_char c t)%nat.
Proof.
  induction s as [|d s IH]; [reflexivity|].
  simpl. rewrite IH. lia.
Qed.

Lemma count_char_file c s :
  is_file_char c = false -> file_chars s = true -> count_char c s = O.
Proof.
  intros Hc. induction s as [|d s IH]; [reflexivity|].
  cbn [file_chars count_char]. intros [Hd Hs]%andb_true_iff.
  rewrite (IH Hs). destruct (Ascii.eqb_spec d c) as [->|_]; [congruence | reflexivity].
Qed.

Lemma clean_file_chars s : clean s = true -> file_chars s = true.
Proof.
  unfold clean. intros H. repeat (apply andb_true_iff in H as [H _]). exact H.
Qed.

(** The extension is one of the nine, or a member that [langMap]
    inherits under the lower-cased name of the language. *)
Lemma getFileExtension_known language :
  getFileExtension language ∈ extensions \/
  (toLowerCase language, getFileExtension language) ∈ inherited.
Proof.
  unfold getFileExtension, langMap, inherited, extensions. cbn [assoc].
  repeat match goal with
         | |- context [String.eqb ?a ?b] =>
             destruct (String.eqb_spec a b) as [->|?]
         end;
    solve [ left; repeat (first [apply list_elem_of_here | apply list_elem_of_further])
          | right; repeat (first [apply list_elem_of_here | apply list_elem_of_further]) ].
Qed.

Lemma getFileExtension_no_slash_dot language :
  count_char "/"%char (getFileExtension language) = O /\
  count_char "."%char (getFileExtension language) = O.
Proof.
  destruct (getFileExtension_known language) as [He|He].
  - unfold extensions in He.
    repeat (apply elem_of_cons in He as [->|He]; [split; reflexivity|]).
    now apply elem_of_nil in He.
  - unfold inherited in He.
    repeat (apply elem_of_cons in He as [[= _ ->]|He]; [split; reflexivity|]).
    now apply elem_of_nil in He.
Qed.

(** A language named after a member of [Object.prototype]. *)
Example getFilePath_constructor :
  getFilePath "leetcode" "Two Sum" "Constructor" =
  inr "leetcode/two-sum.function Object() { [native code] }".
Proof. reflexivity. Qed.

Lemma sanitizeFileName_no_slash_dot name :
  count_char "/"%char (sanitizeFileName name) = O /\
  count_char "."%char (sanitizeFileName name) = O.
Proof.
  pose proof (sanitizeFileName_clean name) as H.
  split; apply count_char_file; try reflexivity; now apply clean_file_chars.
Qed.

(** X1. Whatever the problem identifier, the stem made by
    [sanitizeFileName] has characters of [[a-z0-9-_]] only, no two hyphens
    in a row and no hyphen at either end; in particular it has no slash
    and no dot. *)
Theorem X1_sanitizeFileName_clean (name : string) :
  clean (sanitizeFileName name) = true /\
  count_char "/"%char (sanitizeFileName name) = O /\
  count_char "."%char (sanitizeFileName name) = O.
Proof.
  split; [apply sanitizeFileName_clean | apply sanitizeFileName_no_slash_dot].
Qed.

(** X2. [sanitizeFileName] is idempotent, and the strings it leaves as
    they are are exactly the clean stems. *)
Theorem X2_sanitizeFileName_idempotent :
  (forall name,
      sanitizeFileName (sanitizeFileName name) = sanitizeFileName name) /\
  (forall s, sanitizeFileName s = s <-> clean s = true).
Proof.
  split.
  - intros name. apply sanitizeFileName_of_clean, sanitizeFileName_clean.
  - intros s. split.
    + intros <-. apply sanitizeFileName_clean.
    + apply sanitizeFileName_of_clean.
Qed.

(** X3. [getFilePath] either throws [INVALID_PLATFORM], for a platform
    whose lower-cased name is not a folder, or yields a path of the form
    folder/stem.extension with one of the three folders, the sanitised
    stem and an extension that is one of the nine or, for a language
    whose lower-cased name is [constructor] or [__proto__], the member
    that [langMap] inherits under that name, as the template literal
    prints it: in every case the path has exactly one slash and one dot,
    so the file lies directly in the folder of its platform, whatever
    the problem identifier and the language are. *)
Theorem X3_getFilePath_shape (platform problemId language : string) :
  match getFilePath platform problemId language with
  | inr path =>
      exists folder ext,
        folder ∈ Codes.supported /\
        (ext ∈ extensions \/ (toLowerCase language, ext) ∈ inherited) /\
        folder = toLowerCase platform /\ ext = getFileExtension language /\
        path = folder +:+ "/" +:+ sanitizeFileName problemId +:+ "." +:+ ext /\
        count_char "/"%char path = 1%nat /\
        count_char "."%char path = 1%nat
  | inl e =>
      code e = "INVALID_PLATFORM" /\ (toLowerCase platform ∉ Codes.supported)
  end.
Proof.
  destruct (decide (toLowerCase platform ∈ Codes.supported)) as [Hs|Hn].
  - rewrite (getFilePath_supported _ problemId language Hs).
    exists (toLowerCase platform), (getFileExtension language).
    pose proof (getFileExtension_known language) as He.
    destruct (sanitizeFileName_no_slash_dot problemId) as (Hsl & Hdot).
    split; [exact Hs|]. split; [exact He|].
    split; [reflexivity|]. split; [reflexivity|]. split; [reflexivity|].
    rewrite !count_char_app, Hsl, Hdot.
    assert (Hf : count_char "/"%char (toLowerCase platform) = O /\
                 count_char "."%char (toLowerCase platform) = O).
    { unfold Codes.supported in Hs.
      repeat (apply elem_of_cons in Hs as [->|Hs]; [split; reflexivity|]).
      now apply elem_of_nil in Hs. }
    pose proof (getFileExtension_no_slash_dot language) as Hx.
    destruct Hf as [-> ->], Hx as [-> ->]. split; reflexivity.
  - unfold getFilePath.
    destruct (String.eqb_spec (toLowerCase platform) "leetcode") as [E|_].
    { exfalso. apply Hn. rewrite E. set_solver. }
    destruct (String.eqb_spec (toLowerCase platform) "codeforces") as [E|_].
    { exfalso. apply Hn. rewrite E. set_solver. }
    destruct (String.eqb_spec (toLowerCase platform) "codechef") as [E|_].
    { exfalso. apply Hn. rewrite E. set_solver. }
    split; [reflexivity | exact Hn].
Qed.

End StemProperties.

(** ** The requests of the service, for any client *)

Section AnyClient.
Import Text Slug GitHub Codes Trace.
Context {W : Type} {client : Octokit W}.

Lemma after_after (s : Service W) w1 r1 w2 r2 :
  after (after s w1 r1) w2 r2 = after s w2 (r1 ++ r2)%list.
Proof. unfold after. cbn. now rewrite <- app_assoc. Qed.

(** [checkFileExists] sends one read: an answer is [true], a failure with
    status 404 is [false], any other failure is thrown, normalised. *)
Lemma checkFileExists_any (path : string) (s : Service W) :
  checkFileExists path s =
  let '(answer, w') := getContent (owner s) (repo s) path (world s) in
  let s' := after s w' [ReqGetContent (owner s) (repo s) path] in
  match answer with
  | inr _ => (Return true, s')
  | inl t =>
      if hasStatus 404 (ThrownTransport t) then (Return false, s')
      else (Throw (ThrownGitHubError (handleGitHubError (ThrownTransport t))), s')
  end.
Proof.
  unfold checkFileExists, try_catch, octokit_getContent, after.
  unfold mbind, prog_bind, bind, getOwner, getRepo, send.
  cbn -[hasStatus handleGitHubError].
  destruct (getContent (owner s) (repo s) path (world s)) as [[t|c] w'];
    [|reflexivity].
  destruct (hasStatus 404 (ThrownTransport t)); reflexivity.
Qed.

(** [createFile] sends one write without hash. *)
Lemma createFile_any (path content msg : string) (s : Service W) :
  createFile path content msg s =
  let '(answer, w') :=
    createOrUpdateFileContents (owner s) (repo s) path msg (base64 content) None
      (world s) in
  let s' := after s w'
              [ReqPutContent (owner s) (repo s) path msg (base64 content) None] in
  match answer with
  | inr _ => (Return tt, s')
  | inl t => (Throw (ThrownGitHubError (handleGitHubError (ThrownTransport t))), s')
  end.
Proof.
  unfold createFile, try_catch, octokit_createOrUpdateFileContents, after.
  unfold mbind, prog_bind, bind, getOwner, getRepo, send.
  cbn -[hasStatus handleGitHubError].
  destruct (createOrUpdateFileContents _ _ _ _ _ _ _) as [[t|[]] w']; reflexivity.
Qed.

(** [updateFile] reads the hash and sends one write that carries it. *)
Lemma updateFile_any (path content msg : string) (s : Service W) :
  updateFile path content msg s =
  let '(answer, w1) := getContent (owner s) (repo s) path (world s) in
  let read := ReqGetContent (owner s) (repo s) path in
  match answer with
  | inl t =>
      (Throw (ThrownGitHubError (handleGitHubError (ThrownTransport t))),
       after s w1 [read])
  | inr DirectoryListing =>
      (Throw (ThrownGitHubError
                {| message := "Invalid file data received from GitHub";
                   code := "INVALID_RESPONSE" |}),
       after s w1 [read])
  | inr (FileContent sha) =>
      let '(answer2, w2) :=
        createOrUpdateFileContents (owner s) (repo s) path msg (base64 content)
          (Some sha) w1 in
      let s' := after s w2
                  [read; ReqPutContent (owner s) (repo s) path msg
                           (base64 content) (Some sha)] in
      match answer2 with
      | inr _ => (Return tt, s')
      | inl t =>
          (Throw (ThrownGitHubError (handleGitHubError (ThrownTransport t))), s')
      end
  end.
Proof.
  unfold updateFile, try_catch, octokit_getContent,
    octokit_createOrUpdateFileContents, after.
  unfold mbind, prog_bind, bind, getOwner, getRepo, send.
  cbn -[hasStatus handleGitHubError].
  destruct (getContent (owner s) (repo s) path (world s)) as [[t|[sha|]] w1];
    try reflexivity.
  cbn -[handleGitHubError].
  destruct (createOrUpdateFileContents _ _ _ _ _ _ _) as [[t|[]] w2];
    cbn -[handleGitHubError]; rewrite <- app_assoc; reflexivity.
Qed.

(** Rethrowing through [handleGitHubError] leaves a [GitHubError] as it
    is. *)
Lemma rethrow_normalized {A} (m : Prog W A) (s : Service W) :
  (forall t, fst (m s) <> Throw (ThrownTransport t)) ->
  try_catch m (fun error => throw (ThrownGitHubError (handleGitHubError error))) s
  = m s.
Proof.
  intros H. unfold try_catch, throw.
  destruct (m s) as [[a|[g|t]] s'] eqn:E; try reflexivity.
  exfalso. apply (H t). reflexivity.
Qed.

End AnyClient.

Section ServiceProperties.
Import Text Slug GitHub Codes Trace.
Context {W : Type} {client : Octokit W}.

(** X4. For any client: when the existence check of [saveSolution] fails
    with anything but status 404, [saveSolution] throws that failure,
    normalised, and has sent the one read only: nothing is written. *)
Theorem X4_saveSolution_check_failure
    (platform problemId code language path : string) (s : Service W)
    (t : TransportError) (w' : W) :
  getFilePath platform problemId language = inr path ->
  getContent (owner s) (repo s) path (world s) = (inl t, w') ->
  hasStatus 404 (ThrownTransport t) = false ->
  saveSolution platform problemId code language s =
  (Throw (ThrownGitHubError (handleGitHubError (ThrownTransport t))),
   after s w' [ReqGetContent (owner s) (repo s) path]).
Proof.
  intros Hp Hg H404. unfold saveSolution. rewrite Hp.
  unfold mbind, prog_bind, bind. rewrite checkFileExists_any, Hg, H404.
  reflexivity.
Qed.

Ltac requests_done Hr Hw :=
  eexists;
  split; [cbn -[handleGitHubError]; rewrite <- app_assoc; reflexivity|];
  cbn -[targets];
  rewrite ?Hr, ?Hw;
  repeat split; auto; try lia; try (intros; discriminate).

(** The requests of one [saveSolution], for any client. *)
Lemma saveSolution_requests_any
    (platform problemId code language path : string) (s : Service W) :
  getFilePath platform problemId language = inr path ->
  exists new,
    let '(outcome, s') := saveSolution platform problemId code language s in
    sent s' = (sent s ++ ReqGetContent (owner s) (repo s) path :: new)%list /\
    forallb (targets (owner s) (repo s) path) new = true /\
    (length new <= 2)%nat /\
    (length (filter is_write new) <= 1)%nat /\
    (outcome = Return tt -> length (filter is_write new) = 1%nat) /\
    owner s' = owner s /\ repo s' = repo s.
Proof.
  intros Hp. unfold saveSolution. rewrite Hp.
  unfold mbind, prog_bind, bind. rewrite checkFileExists_any.
  assert (Hr : targets (owner s) (repo s) path
                 (ReqGetContent (owner s) (repo s) path) = true)
    by (unfold targets; now rewrite !String.eqb_refl).
  assert (Hw : forall m c h, targets (owner s) (repo s) path
                 (ReqPutContent (owner s) (repo s) path m c h) = true)
    by (intros; unfold targets; now rewrite !String.eqb_refl).
  destruct (getContent (owner s) (repo s) path (world s)) as [[t|c] w1] eqn:Hg.
  - destruct (hasStatus 404 (ThrownTransport t)).
    + unfold try_catch. rewrite createFile_any. cbn [owner repo world after].
      destruct (createOrUpdateFileContents _ _ _ _ _ _ _) as [[t'|[]] w2];
        requests_done Hr Hw.
    + exists []. cbn. repeat split; auto. discriminate.
  - unfold try_catch. rewrite updateFile_any. cbn [owner repo world after].
    destruct (getContent (owner s) (repo s) path w1) as [[t'|[sha|]] w2].
    + requests_done Hr Hw.
    + destruct (createOrUpdateFileContents _ _ _ _ _ _ _) as [[t''|[]] w3];
        requests_done Hr Hw.
    + requests_done Hr Hw.
Qed.

(** X5. For any client and any answers, the requests of one
    [saveSolution] all read or write the one file of the solution in the
    repository of the service; the first is a read, at most three are
    sent, at most one is a write, and exactly one when [saveSolution]
    returns.  The owner and the repository of the service stay. *)
Theorem X5_saveSolution_requests
    (platform problemId code language path : string) (s : Service W) :
  getFilePath platform problemId language = inr path ->
  exists new,
    let '(outcome, s') := saveSolution platform problemId code language s in
    sent s' = (sent s ++ ReqGetContent (owner s) (repo s) path :: new)%list /\
    forallb (targets (owner s) (repo s) path) new = true /\
    (length new <= 2)%nat /\
    (length (filter is_write new) <= 1)%nat /\
    (outcome = Return tt -> length (filter is_write new) = 1%nat) /\
    owner s' = owner s /\ repo s' = repo s.
Proof. apply saveSolution_requests_any. Qed.

End ServiceProperties.

(** A client that answers every request with status 401: the save of a
    LeetCode solution throws [UNAUTHORIZED] after one read. *)
Lemma X4_saveSolution_check_failure_witness :
  GitHub.getFilePath "LeetCode" "Two Sum" "python" = inr "leetcode/two-sum.py" /\
  GitHub.getContent (Octokit := Trace.failing 401) "octocat" "solutions"
    "leetcode/two-sum.py" tt = (inl (Remote.failure "Request failed" 401), tt) /\
  GitHub.hasStatus 404
    (GitHub.ThrownTransport (Remote.failure "Request failed" 401)) = false /\
  GitHub.saveSolution (client := Trace.failing 401)
    "LeetCode" "Two Sum" "print(1)" "python" Remote.over_directories =
  (GitHub.Throw (GitHub.ThrownGitHubError
     {| GitHub.message := "Request failed"; GitHub.code := "UNAUTHORIZED" |}),
   Trace.after Remote.over_directories tt
     [GitHub.ReqGetContent "octocat" "solutions" "leetcode/two-sum.py"]).
Proof.
  split; [reflexivity|]. split; [reflexivity|]. split; [reflexivity|].
  exact (X4_saveSolution_check_failure (client := Trace.failing 401)
           "LeetCode" "Two Sum" "print(1)" "python" "leetcode/two-sum.py"
           Remote.over_directories (Remote.failure "Request failed" 401) tt
           eq_refl eq_refl eq_refl).
Defined.

(** The requests of a save over the client whose paths are all
    directories. *)
Lemma X5_saveSolution_requests_witness :
  GitHub.getFilePath "LeetCode" "Two Sum" "python" = inr "leetcode/two-sum.py" /\
  exists new,
    let '(outcome, s') :=
      GitHub.saveSolution (client := Remote.directories)
        "LeetCode" "Two Sum" "print(1)" "python" Remote.over_directories in
    GitHub.sent s' =
      (GitHub.ReqGetContent "octocat" "solutions" "leetcode/two-sum.py" :: new) /\
    (length (filter Trace.is_write new) <= 1)%nat.
Proof.
  split; [reflexivity|].
  destruct (X5_saveSolution_requests (client := Remote.directories)
              "LeetCode" "Two Sum" "print(1)" "python" "leetcode/two-sum.py"
              Remote.over_directories eq_refl) as [new H].
  exists new.
  destruct (GitHub.saveSolution _ _ _ _ _) as [outcome s'].
  destruct H as (H1 & _ & _ & H2 & _). split; [exact H1|exact H2].
Defined.

(** ** Initialising the folders over the ideal remote *)

Section EnsureFacts.
Import Text GitHub Remote Ensure.
Context (login : string) (sha_of : string -> string).
Context {A : Type} (pathOf contentOf messageOf : A -> string).

#[local] Existing Instance the_client.

Lemma ensure_ideal (x : A) (s : Service (gmap (string * string * string) RemoteFile)) :
  (fileExists ← checkFileExists (client := the_client login sha_of) (pathOf x);
   if fileExists : bool then mret tt
   else createFile (client := the_client login sha_of) (pathOf x) (contentOf x) (messageOf x)) s =
  (Return tt,
   with_world s
     (ensure_file sha_of (owner s) (repo s) pathOf contentOf x (world s))
     (ensure_requests (owner s) (repo s) pathOf contentOf messageOf x (world s))).
Proof.
  unfold mbind, prog_bind, bind. rewrite checkFileExists_ideal.
  unfold ensure_file, ensure_requests.
  destruct (world s !! (owner s, repo s, pathOf x)) as [f|] eqn:E.
  - rewrite bool_decide_eq_true_2 by eauto. reflexivity.
  - rewrite bool_decide_eq_false_2 by (intros [? ?]; discriminate).
    rewrite createFile_ideal by exact E.
    unfold with_world. cbn. rewrite <- app_assoc. reflexivity.
Qed.

Lemma forEach_ensure_ideal (xs : list A) (s : Service (gmap (string * string * string) RemoteFile)) :
  forEach xs (fun x =>
    fileExists ← checkFileExists (client := the_client login sha_of) (pathOf x);
    if fileExists : bool then mret tt
    else createFile (client := the_client login sha_of) (pathOf x) (contentOf x) (messageOf x)) s =
  (Return tt,
   with_world s
     (ensured sha_of (owner s) (repo s) pathOf contentOf xs (world s))
     (requests sha_of (owner s) (repo s) pathOf contentOf messageOf xs (world s))).
Proof.
  revert s. induction xs as [|x xs IH]; intros s.
  - cbn. unfold with_world. rewrite app_nil_r. destruct s; reflexivity.
  - cbn [forEach]. unfold mbind at 1, prog_bind at 1, bind at 1.
    rewrite ensure_ideal, IH. unfold with_world. cbn.
    rewrite <- app_assoc. reflexivity.
Qed.

Section World.
Context (o r : string).

(** A file of the remote stays as it is. *)
Lemma ensured_keeps (xs : list A) (w : (gmap (string * string * string) RemoteFile)) k (f : RemoteFile) :
  w !! k = Some f -> ensured sha_of o r pathOf contentOf xs w !! k = Some f.
Proof.
  revert w. induction xs as [|x xs IH]; intros w H; [exact H|].
  cbn. apply IH. unfold ensure_file.
  destruct (w !! (o, r, pathOf x)) eqn:E; [exact H|].
  rewrite lookup_insert_ne; [exact H|]. intros <-. congruence.
Qed.

(** Each file made sure of is there afterwards. *)
Lemma ensured_has (xs : list A) (w : (gmap (string * string * string) RemoteFile)) (x : A) :
  x ∈ xs -> is_Some (ensured sha_of o r pathOf contentOf xs w !! (o, r, pathOf x)).
Proof.
  revert w. induction xs as [|y xs IH]; intros w H.
  - apply elem_of_nil in H. destruct H.
  - apply elem_of_cons in H. destruct H as [->|H]; [|apply IH, H].
    cbn. unfold ensure_file.
    destruct (w !! (o, r, pathOf y)) as [f|] eqn:E.
    + exists f. apply ensured_keeps, E.
    + eexists. apply ensured_keeps. apply lookup_insert_eq.
Qed.

(** A file that was not there is one of those made sure of, with its
    content. *)
Lemma ensured_new (xs : list A) (w : (gmap (string * string * string) RemoteFile)) k (f : RemoteFile) :
  w !! k = None ->
  ensured sha_of o r pathOf contentOf xs w !! k = Some f ->
  exists x, x ∈ xs /\ k = (o, r, pathOf x) /\
            f = stored sha_of (base64 (contentOf x)).
Proof.
  revert w. induction xs as [|x xs IH]; intros w Hn H.
  - cbn in H. congruence.
  - cbn in H. unfold ensure_file in H.
    destruct (w !! (o, r, pathOf x)) eqn:E.
    + destruct (IH w Hn H) as (y & Hy & ?). exists y. split; [|assumption].
      apply elem_of_cons. auto.
    + destruct (decide (k = (o, r, pathOf x))) as [->|Hne].
      * exists x. split; [apply elem_of_cons; auto|]. split; [reflexivity|].
        rewrite (ensured_keeps xs _ _ _ (lookup_insert_eq _ _ _)) in H.
        congruence.
      * destruct (IH (<[(o, r, pathOf x) := stored sha_of (base64 (contentOf x))]> w))
          as (y & Hy & ?); [rewrite lookup_insert_ne by congruence; exact Hn
                           |exact H|].
        exists y. split; [|assumption]. apply elem_of_cons. auto.
Qed.

(** When all files are there, nothing is written and each is read
    once. *)
Lemma ensured_fixed (xs : list A) (w : (gmap (string * string * string) RemoteFile)) :
  (forall x, x ∈ xs -> is_Some (w !! (o, r, pathOf x))) ->
  ensured sha_of o r pathOf contentOf xs w = w /\
  requests sha_of o r pathOf contentOf messageOf xs w =
    map (fun x => ReqGetContent o r (pathOf x)) xs.
Proof.
  induction xs as [|x xs IH]; intros H; [split; reflexivity|].
  cbn. unfold ensure_file, ensure_requests.
  destruct (H x) as [f Hf]; [apply elem_of_cons; auto|]. rewrite Hf.
  destruct IH as [IH1 IH2]; [intros y Hy; apply H, elem_of_cons; auto|].
  rewrite IH1, IH2. split; reflexivity.
Qed.

End World.

(** A method that makes sure of the files [xs]: what one run leaves, and
    what a second run does. *)
Lemma ensured_summary (xs : list A)
    (run : Prog (gmap (string * string * string) RemoteFile) unit)
    (s : Service (gmap (string * string * string) RemoteFile)) :
  (forall s0, run s0 =
     (Return tt,
      with_world s0
        (ensured sha_of (owner s0) (repo s0) pathOf contentOf xs (world s0))
        (requests sha_of (owner s0) (repo s0) pathOf contentOf messageOf xs
           (world s0)))) ->
  exists s1,
    run s = (Return tt, s1) /\
    owner s1 = owner s /\ repo s1 = repo s /\
    (forall x, x ∈ xs -> is_Some (world s1 !! (owner s, repo s, pathOf x))) /\
    (forall k f, world s !! k = Some f -> world s1 !! k = Some f) /\
    (forall k f, world s !! k = None -> world s1 !! k = Some f ->
       exists x, x ∈ xs /\ k = (owner s, repo s, pathOf x) /\
                 f = stored sha_of (base64 (contentOf x))) /\
    run s1 =
      (Return tt,
       with_world s1 (world s1)
         (map (fun x => ReqGetContent (owner s) (repo s) (pathOf x)) xs)).
Proof.
  intros Hrun. eexists. split; [apply Hrun|]. cbn.
  split; [reflexivity|]. split; [reflexivity|].
  split; [intros x Hx; apply ensured_has, Hx|].
  split; [intros k f; apply ensured_keeps|].
  split; [intros k f; apply ensured_new|].
  rewrite Hrun. cbn.
  destruct (ensured_fixed (owner s) (repo s) xs
              (ensured sha_of (owner s) (repo s) pathOf contentOf xs (world s)))
    as [E1 E2]; [intros x Hx; apply ensured_has, Hx|].
  unfold with_world. cbn. rewrite E1, E2. reflexivity.
Qed.

End EnsureFacts.

Section FolderProperties.
Import Text GitHub Remote Ensure.
Context (login : string) (sha_of : string -> string).

Lemma bind_assoc {W A B C} (m : Prog W A) (k1 : A -> Prog W B)
    (k2 : B -> Prog W C) (s : Service W) :
  bind (bind m k1) k2 s = bind m (fun a => bind (k1 a) k2) s.
Proof. unfold bind. destruct (m s) as [[a|e] s']; reflexivity. Qed.

Lemma initializeFolders_v2_ideal (s : Service (gmap (string * string * string) RemoteFile)) :
  GitHubV2.initializeFolders (client := ideal login sha_of) s =
  (Return tt,
   with_world s
     (ensured sha_of (owner s) (repo s)
        (fun folder => folder +:+ "/.gitkeep") (fun _ => EmptyString)
        GitHubV2.folders (world s))
     (requests sha_of (owner s) (repo s)
        (fun folder => folder +:+ "/.gitkeep") (fun _ => EmptyString)
        (fun folder => "Initialize " +:+ folder +:+ " folder")
        GitHubV2.folders (world s))).
Proof.
  exact (forEach_ensure_ideal login sha_of
           (fun folder => folder +:+ "/.gitkeep") (fun _ => EmptyString)
           (fun folder => "Initialize " +:+ folder +:+ " folder")
           GitHubV2.folders s).
Qed.

Lemma initializeFolders_v1_ideal (s : Service (gmap (string * string * string) RemoteFile)) :
  GitHubV1.initializeFolders (client := ideal login sha_of) s =
  (Return tt,
   with_world s
     (ensured sha_of (owner s) (repo s) (fun x => fst (fst x)) (fun x => snd (fst x))
        readmes (world s))
     (requests sha_of (owner s) (repo s) (fun x => fst (fst x))
        (fun x => snd (fst x)) snd readmes (world s))).
Proof.
  unfold GitHubV1.initializeFolders, try_catch.
  match goal with |- match ?m s with _ => _ end = _ =>
    assert (E : m s =
      forEach readmes (fun x =>
        fileExists ← checkFileExists (client := ideal login sha_of) (fst (fst x));
        if fileExists : bool then mret tt
        else createFile (client := ideal login sha_of) (fst (fst x))
               (snd (fst x)) (snd x)) s)
  end.
  { symmetry. etransitivity; [apply bind_assoc|reflexivity]. }
  rewrite E.
  pose proof (forEach_ensure_ideal login sha_of
                (fun x => fst (fst x)) (fun x => snd (fst x)) snd readmes s) as F.
  unfold the_client in F. rewrite F. reflexivity.
Qed.

(** X6. Over a remote that answers, [initializeFolders] of the second
    version returns and keeps the target of the service; afterwards each
    folder has its [.gitkeep]; the files that were there are as they
    were, and a file that is new is the empty [.gitkeep] of a folder.  A
    second run sends one read per folder and writes nothing. *)
Theorem X6_initializeFolders_gitkeep
    (s : Service (gmap (string * string * string) RemoteFile)) :
  exists s1,
    GitHubV2.initializeFolders (client := ideal login sha_of) s = (Return tt, s1) /\
    owner s1 = owner s /\ repo s1 = repo s /\
    (forall folder, folder ∈ GitHubV2.folders ->
       is_Some (world s1 !! (owner s, repo s, folder +:+ "/.gitkeep"))) /\
    (forall k f, world s !! k = Some f -> world s1 !! k = Some f) /\
    (forall k f, world s !! k = None -> world s1 !! k = Some f ->
       exists folder, folder ∈ GitHubV2.folders /\
         k = (owner s, repo s, folder +:+ "/.gitkeep") /\
         f = stored sha_of (base64 EmptyString)) /\
    GitHubV2.initializeFolders (client := ideal login sha_of) s1 =
      (Return tt,
       with_world s1 (world s1)
         (map (fun folder => ReqGetContent (owner s) (repo s) (folder +:+ "/.gitkeep"))
              GitHubV2.folders)).
Proof.
  exact (ensured_summary sha_of
           (fun folder => folder +:+ "/.gitkeep") (fun _ => EmptyString)
           (fun folder => "Initialize " +:+ folder +:+ " folder")
           GitHubV2.folders _ s initializeFolders_v2_ideal).
Qed.

(** X7. Over a remote that answers, [initializeFolders] of the first
    version returns and keeps the target of the service; afterwards the
    README of the repository and the README of each folder are there; the
    files that were there are as they were (an existing README is not
    overwritten), and a file that is new is one of these READMEs with its
    generated text.  A second run sends four reads and writes nothing. *)
Theorem X7_initializeFolders_readmes
    (s : Service (gmap (string * string * string) RemoteFile)) :
  exists s1,
    GitHubV1.initializeFolders (client := ideal login sha_of) s = (Return tt, s1) /\
    owner s1 = owner s /\ repo s1 = repo s /\
    (forall x, x ∈ readmes ->
       is_Some (world s1 !! (owner s, repo s, fst (fst x)))) /\
    (forall k f, world s !! k = Some f -> world s1 !! k = Some f) /\
    (forall k f, world s !! k = None -> world s1 !! k = Some f ->
       exists x, x ∈ readmes /\ k = (owner s, repo s, fst (fst x)) /\
                 f = stored sha_of (base64 (snd (fst x)))) /\
    GitHubV1.initializeFolders (client := ideal login sha_of) s1 =
      (Return tt,
       with_world s1 (world s1)
         [ReqGetContent (owner s) (repo s) "README.md";
          ReqGetContent (owner s) (repo s) "leetcode/README.md";
          ReqGetContent (owner s) (repo s) "codeforces/README.md";
          ReqGetContent (owner s) (repo s) "codechef/README.md"]).
Proof.
  exact (ensured_summary sha_of
           (fun x => fst (fst x)) (fun x => snd (fst x)) snd
           readmes _ s initializeFolders_v1_ideal).
Qed.

End FolderProperties.

(** ** Setting up the repository, for any client *)

Section TargetFacts.
Import Text GitHub Trace Target.
Context {W : Type} {client : Octokit W}.

Lemma keeps_ret {A} (a : A) : keeps (W:=W) (mret a).
Proof. intros s. split; reflexivity. Qed.

Lemma keeps_throw {A} e : keeps (W:=W) (A:=A) (throw e).
Proof. intros s. split; reflexivity. Qed.

Lemma keeps_bind {A B} (m : Prog W A) (k : A -> Prog W B) :
  keeps m -> (forall a, keeps (k a)) -> keeps (m ≫= k).
Proof.
  intros Hm Hk s. specialize (Hm s).
  unfold mbind, prog_bind, bind. destruct (m s) as [[a|e] s']; cbn in *.
  - destruct (Hk a s') as [H1 H2]. destruct Hm as [H3 H4]. split; congruence.
  - exact Hm.
Qed.

Lemma keeps_try_catch {A} (m : Prog W A) handler :
  keeps m -> (forall e, keeps (handler e)) -> keeps (try_catch m handler).
Proof.
  intros Hm Hh s. specialize (Hm s).
  unfold try_catch. destruct (m s) as [[a|e] s']; cbn in *.
  - exact Hm.
  - destruct (Hh e s') as [H1 H2]. destruct Hm as [H3 H4]. split; congruence.
Qed.

Lemma keeps_send {A} req (act : W -> (TransportError + A) * W) :
  keeps (send req act).
Proof.
  intros s. unfold send. destruct (act (world s)) as [[t|a] w']; split; reflexivity.
Qed.

Lemma keeps_getOwner : keeps (W:=W) getOwner.
Proof. intros s. split; reflexivity. Qed.

Lemma keeps_getRepo : keeps (W:=W) getRepo.
Proof. intros s. split; reflexivity. Qed.

Lemma keeps_rethrow {A} (m : Prog W A) :
  keeps m ->
  keeps (try_catch m (fun error => throw (ThrownGitHubError (handleGitHubError error)))).
Proof. intros H. apply keeps_try_catch; [exact H|]. intros e. apply keeps_throw. Qed.

Lemma keeps_checkFileExists (path : string) : keeps (checkFileExists path).
Proof.
  apply keeps_try_catch.
  - apply keeps_bind; [|intros; apply keeps_ret].
    apply keeps_bind; [apply keeps_getOwner|]. intros o.
    apply keeps_bind; [apply keeps_getRepo|]. intros r. apply keeps_send.
  - intros e. destruct (hasStatus 404 e); [apply keeps_ret|apply keeps_throw].
Qed.

Lemma keeps_put (path msg : string) content sha :
  keeps (octokit_createOrUpdateFileContents path msg content sha).
Proof.
  apply keeps_bind; [apply keeps_getOwner|]. intros o.
  apply keeps_bind; [apply keeps_getRepo|]. intros r. apply keeps_send.
Qed.

Lemma keeps_createFile (path content msg : string) :
  keeps (createFile path content msg).
Proof. apply keeps_rethrow, keeps_put. Qed.

Lemma keeps_forEach {A} (xs : list A) (body : A -> Prog W unit) :
  (forall x, keeps (body x)) -> keeps (forEach xs body).
Proof.
  intros H. induction xs as [|x xs IH]; [apply keeps_ret|].
  cbn [forEach]. apply keeps_bind; [apply H|]. intros _. exact IH.
Qed.

Lemma keeps_ensure (path content msg : string) :
  keeps (exists_ ← checkFileExists path;
         if exists_ : bool then mret tt else createFile path content msg).
Proof.
  apply keeps_bind; [apply keeps_checkFileExists|].
  intros [|]; [apply keeps_ret|apply keeps_createFile].
Qed.

Lemma keeps_initializeFolders_v1 : keeps GitHubV1.initializeFolders.
Proof.
  apply keeps_rethrow.
  apply keeps_bind; [apply keeps_checkFileExists|]. intros b.
  apply keeps_bind.
  - destruct b; [apply keeps_ret|apply keeps_createFile].
  - intros _. apply keeps_forEach. intros x. apply keeps_ensure.
Qed.

Lemma keeps_initializeFolders_v2 : keeps GitHubV2.initializeFolders.
Proof. apply keeps_forEach. intros x. apply keeps_ensure. Qed.

(** [verifyRepoAccess] sends one read of the repository of the service:
    its answer is the push permission, [false] when there is none. *)
Lemma verifyRepoAccess_any (s : Service W) :
  verifyRepoAccess s =
  let '(answer, w') := reposGet (owner s) (repo s) (world s) in
  let s' := after s w' [ReqGetRepo (owner s) (repo s)] in
  match answer with
  | inr data =>
      (Return (match can_push data with Some b => b | None => false end), s')
  | inl t => (Throw (ThrownGitHubError (handleGitHubError (ThrownTransport t))), s')
  end.
Proof.
  unfold verifyRepoAccess, try_catch, octokit_get, after.
  unfold mbind, prog_bind, bind, getOwner, getRepo, send.
  cbn -[hasStatus handleGitHubError].
  destruct (reposGet (owner s) (repo s) (world s)) as [[t|data] w']; reflexivity.
Qed.

End TargetFacts.

Section SetupProperties.
Import Text GitHub Codes Trace Target.
Context {W : Type} {client : Octokit W}.

(** X8. For any client: [setupRepo(repoName, false)] reads the repository
    the service was constructed for (not [repoName]); when the answer
    grants no push permission it throws [PERMISSION_ERROR] and has sent
    this one request, so no folder is initialised. *)
Theorem X8_setupRepo_no_permission (repoName : string) (s : Service W)
    (data : RepoData) (w' : W) :
  reposGet (owner s) (repo s) (world s) = (inr data, w') ->
  can_push data <> Some true ->
  GitHubV2.setupRepo repoName false s =
  (Throw (ThrownGitHubError
            {| message := "Insufficient permissions for repository";
               code := "PERMISSION_ERROR" |}),
   after s w' [ReqGetRepo (owner s) (repo s)]).
Proof.
  intros Hg Hp. unfold GitHubV2.setupRepo, try_catch.
  unfold mbind, prog_bind, bind. rewrite verifyRepoAccess_any, Hg.
  destruct (can_push data) as [[|]|]; try reflexivity. congruence.
Qed.

(** X9. For any client: when the creation request of
    [setupRepo(repoName, true)] fails with status 422, [setupRepo] throws
    [REPO_EXISTS] and has sent this one request: the existing repository
    is neither read nor written. *)
Theorem X9_setupRepo_repo_exists (repoName : string) (s : Service W)
    (t : TransportError) (w' : W) :
  createForAuthenticatedUser repoName true
    "My coding solutions repository managed by PushUp" (world s) = (inl t, w') ->
  hasStatus 422 (ThrownTransport t) = true ->
  GitHubV2.setupRepo repoName true s =
  (Throw (ThrownGitHubError
            {| message := "Repository already exists"; code := "REPO_EXISTS" |}),
   after s w' [ReqCreateRepo repoName true
                 "My coding solutions repository managed by PushUp"]).
Proof.
  intros Hc H422. unfold GitHubV2.setupRepo, GitHubV2.createNewRepo, try_catch.
  unfold mbind, prog_bind, bind, octokit_createForAuthenticatedUser, send.
  rewrite Hc, H422. reflexivity.
Qed.

(** X10. For any client: when the creation request of
    [createRepositoryWithStructure] fails with status 422, the repository
    [repoName] of the owner the service was constructed for is read.  If
    this fails, [REPO_ACCESS_ERROR] is thrown after the two requests.  If
    it answers with an owner, the service targets the repository of the
    answer, initialises its folders, and returns its address, or throws
    what the initialisation throws. *)
Theorem X10_createRepository_adopts_existing (repoName : string)
    (description : option string) (s : Service W) (t : TransportError) (w1 : W) :
  let text :=
    match description with
    | Some d => if truthy d then d else GitHubV1.defaultDescription
    | None => GitHubV1.defaultDescription
    end in
  let requests := [ReqCreateRepo repoName false text; ReqGetRepo (owner s) repoName] in
  createForAuthenticatedUser repoName false text (world s) = (inl t, w1) ->
  hasStatus 422 (ThrownTransport t) = true ->
  GitHubV1.createRepositoryWithStructure repoName description s =
  match reposGet (owner s) repoName w1 with
  | (inl _, w2) =>
      (Throw (GitHubV1.repoAccessError
                "Repository already exists and cannot be accessed. Please choose a different name or check permissions."),
       after s w2 requests)
  | (inr data, w2) =>
      match repo_owner data with
      | None =>
          (Throw (GitHubV1.repoAccessError "Failed to access repository"),
           after s w2 requests)
      | Some login =>
          match GitHubV1.initializeFolders
                  {| owner := login; repo := repo_name data; world := w2;
                     sent := (sent s ++ requests)%list |} with
          | (Return _, s') =>
              (Return {| GitHubV1.success := true;
                         GitHubV1.repoUrl := html_url data;
                         GitHubV1.result_owner := login;
                         GitHubV1.result_repo := repo_name data |}, s')
          | (Throw e, s') => (Throw e, s')
          end
      end
  end.
Proof.
  intros text requests Hc H422.
  unfold GitHubV1.createRepositoryWithStructure.
  unfold try_catch at 1. unfold mbind at 1, prog_bind at 1, bind at 1.
  unfold try_catch at 1, octokit_createForAuthenticatedUser at 1, send at 1.
  fold text. rewrite Hc, H422.
  unfold try_catch at 1, mbind at 1, prog_bind at 1, bind at 1, getOwner at 1.
  unfold mbind at 1, prog_bind at 1, bind at 1, octokit_get at 1, send at 1.
  cbn [owner repo world sent].
  destruct (reposGet (owner s) repoName w1) as [[t2|data] w2].
  - unfold after, requests. rewrite <- app_assoc. reflexivity.
  - cbn [mret prog_ret ret]. destruct data as [[login|] name url push].
    + unfold mbind, prog_bind, bind, setTarget, getOwner, getRepo.
      cbn -[GitHubV1.initializeFolders handleGitHubError].
      rewrite <- app_assoc. cbn [app].
      pose proof (keeps_initializeFolders_v1
                    {| owner := login; repo := name; world := w2;
                       sent := (sent s ++ requests)%list |}) as [Ho Hr].
      pose proof (throws_initializeFolders_v1
                    {| owner := login; repo := name; world := w2;
                       sent := (sent s ++ requests)%list |}) as Ht.
      unfold requests in *.
      destruct (GitHubV1.initializeFolders _) as [[[]|e] s']; cbn in *.
      * rewrite Ho, Hr. reflexivity.
      * destruct e as [g|t3]; [reflexivity|destruct Ht].
    + cbn. unfold after, requests. rewrite <- app_assoc. reflexivity.
Qed.

End SetupProperties.

(** A repository that grants no push permission. *)
Lemma X8_setupRepo_no_permission_witness :
  GitHub.reposGet (Octokit := Trace.read_only) "octocat" "solutions" tt =
    (inr {| GitHub.repo_owner := Some "octocat"; GitHub.repo_name := "solutions";
            GitHub.html_url := "https://github.com/octocat/solutions";
            GitHub.can_push := Some false |}, tt) /\
  Some false <> Some true /\
  GitHubV2.setupRepo (client := Trace.read_only) "other" false
    Remote.over_directories =
  (GitHub.Throw (GitHub.ThrownGitHubError
     {| GitHub.message := "Insufficient permissions for repository";
        GitHub.code := "PERMISSION_ERROR" |}),
   Trace.after Remote.over_directories tt
     [GitHub.ReqGetRepo "octocat" "solutions"]).
Proof.
  split; [reflexivity|]. split; [discriminate|].
  refine (X8_setupRepo_no_permission (client := Trace.read_only) "other"
            Remote.over_directories _ tt eq_refl _).
  discriminate.
Defined.

(** A name that is taken. *)
Lemma X9_setupRepo_repo_exists_witness :
  GitHub.createForAuthenticatedUser (Octokit := Trace.name_taken) "solutions" true
    "My coding solutions repository managed by PushUp" tt =
    (inl (Remote.failure "name already exists on this account" 422), tt) /\
  GitHub.hasStatus 422
    (GitHub.ThrownTransport
       (Remote.failure "name already exists on this account" 422)) = true /\
  GitHubV2.setupRepo (client := Trace.name_taken) "solutions" true
    Remote.over_directories =
  (GitHub.Throw (GitHub.ThrownGitHubError
     {| GitHub.message := "Repository already exists";
        GitHub.code := "REPO_EXISTS" |}),
   Trace.after Remote.over_directories tt
     [GitHub.ReqCreateRepo "solutions" true
        "My coding solutions repository managed by PushUp"]).
Proof.
  split; [reflexivity|]. split; [reflexivity|].
  exact (X9_setupRepo_repo_exists (client := Trace.name_taken) "solutions"
           Remote.over_directories _ tt eq_refl eq_refl).
Defined.

(** A name that is taken, in a repository that cannot be read. *)
Lemma X10_createRepository_adopts_existing_witness :
  GitHub.createForAuthenticatedUser (Octokit := Trace.name_taken) "solutions" false
    GitHubV1.defaultDescription tt =
    (inl (Remote.failure "name already exists on this account" 422), tt) /\
  GitHub.hasStatus 422
    (GitHub.ThrownTransport
       (Remote.failure "name already exists on this account" 422)) = true /\
  GitHubV1.createRepositoryWithStructure (client := Trace.name_taken) "solutions"
    None Remote.over_directories =
  (GitHub.Throw (GitHubV1.repoAccessError
     "Repository already exists and cannot be accessed. Please choose a different name or check permissions."),
   Trace.after Remote.over_directories tt
     [GitHub.ReqCreateRepo "solutions" false GitHubV1.defaultDescription;
      GitHub.ReqGetRepo "octocat" "solutions"]).
Proof.
  split; [reflexivity|]. split; [reflexivity|].
  exact (X10_createRepository_adopts_existing (client := Trace.name_taken)
           "solutions" None Remote.over_directories _ tt eq_refl eq_refl).
Defined.

(** ** Runs of streak updates *)

Section RunFacts.
Import Text JsDate Store Streak Run.



End RunFacts.

Section AchievementExact.
Import Text JsDate Store Streak.

Lemma has_add_other (u : list string) (x y : string) :
  x <> y -> JsSet.has (JsSet.add u y) x = JsSet.has u x.
Proof.
  intros Hne. unfold JsSet.has. apply bool_decide_ext.
  rewrite JsSet_add_elem. split; [intros [H|H]; [exact H|contradiction]|auto].
Qed.

(** The loop of [checkAchievements] over a table without repeated ids:
    it appends the achievements that are locked and satisfied, in the
    order of the table. *)
Lemma checkOne_fold_filter k (l : list Achievement) : forall u0 n0,
  NoDup (map id l) ->
  snd (fold_left (checkOne k) l (u0, n0)) =
  (n0 ++ List.filter (fun a => negb (JsSet.has u0 (id a)) && condition a k) l)%list.
Proof.
  induction l as [|a l IH]; intros u0 n0 Hnd; cbn [fold_left List.filter].
  - now rewrite app_nil_r.
  - cbn [map] in Hnd. apply NoDup_cons in Hnd as [Ha Hnd].
    unfold checkOne at 2.
    destruct (negb (JsSet.has u0 (id a)) && condition a k) eqn:E.
    + rewrite IH by assumption. rewrite <- app_assoc. cbn [app]. do 2 f_equal.
      apply List.filter_ext_in. intros b Hb.
      rewrite has_add_other; [reflexivity|].
      intros Heq. apply Ha. rewrite <- Heq.
      apply list_elem_of_fmap. exists b. split; [reflexivity|].
      now apply list_elem_of_In.
    + now rewrite IH.
Qed.

Lemma has_of_array (l : list string) (x : string) :
  JsSet.has (JsSet.of_array l) x = JsSet.has l x.
Proof. unfold JsSet.has. apply bool_decide_ext, JsSet_of_array_elem. Qed.

Lemma checkAchievements_new k st :
  snd (checkAchievements k st) =
  List.filter
    (fun a => negb (JsSet.has (orNil (unlockedAchievements st)) (id a))
              && condition a k)
    achievements.
Proof.
  pose proof (checkOne_fold_filter k achievements
                (JsSet.of_array (orNil (unlockedAchievements st))) []
                achievements_ids_distinct) as H.
  unfold checkAchievements.
  destruct (fold_left _ _ _) as [u n]. cbn [snd] in H. subst n.
  cbn [app].
  assert (E : forall (l : list Achievement) (b : bool) (x y : Storage),
            snd (if b then (x, l) else (y, l)) = l)
    by (intros l [|] x y; reflexivity).
  rewrite E. apply List.filter_ext. intros a. now rewrite has_of_array.
Qed.

(** After [checkAchievements], every achievement the streak satisfies is
    unlocked. *)
Lemma checkAchievements_complete k st a :
  a ∈ achievements -> condition a k = true ->
  id a ∈ orNil (unlockedAchievements (fst (checkAchievements k st))).
Proof.
  intros Ha Hc.
  destruct (JsSet.has (orNil (unlockedAchievements st)) (id a)) eqn:Hh.
  - apply JsSet_has_true in Hh.
    now apply (proj1 (proj2 (checkAchievements_spec k st))).
  - apply (proj1 (checkAchievements_spec k st) a).
    rewrite checkAchievements_new. apply list_elem_of_In, filter_In.
    split; [now apply list_elem_of_In|]. now rewrite Hh, Hc.
Qed.

End AchievementExact.

Section StreakProperties.
Import Text JsDate Store Streak Run StreakMessage.


(** X12. [checkAchievements] returns exactly the achievements of the
    table that are satisfied by the streak and not yet unlocked, in the
    order of the table; afterwards every achievement the streak satisfies
    is unlocked; and when it returns none, the store is not written. *)
Theorem X12_checkAchievements_exact (k : Z) (st : Storage) :
  snd (checkAchievements k st) =
    List.filter
      (fun a => negb (JsSet.has (orNil (unlockedAchievements st)) (id a))
                && condition a k)
      achievements /\
  (forall a, a ∈ achievements -> condition a k = true ->
     id a ∈ orNil (unlockedAchievements (fst (checkAchievements k st)))) /\
  (snd (checkAchievements k st) = [] -> fst (checkAchievements k st) = st).
Proof.
  split; [apply checkAchievements_new|]. split.
  - apply checkAchievements_complete.
  - unfold checkAchievements.
    destruct (fold_left _ _ _) as [u n].
    destruct n as [|a n]; [reflexivity|]. cbn. discriminate.
Qed.

(** X13. The emoji of the streak message is the emoji of the last
    achievement of the table that the streak satisfies, and the sparkle
    when it satisfies none; so the emoji of [streak] differs from the one
    of [streak - 1] exactly when [streak] newly satisfies an
    achievement. *)
Theorem X13_getStreakEmoji_follows_achievements (k : Z) :
  getStreakEmoji k =
    List.last (map emoji (List.filter (fun a => condition a k) achievements)) "✨" /\
  (getStreakEmoji k <> getStreakEmoji (k - 1) <->
   exists a, a ∈ achievements /\
             condition a k = true /\ condition a (k - 1) = false).
Proof.
  unfold getStreakEmoji, achievements. cbn [List.filter condition].
  split.
  - destruct (Z.leb_spec 7 k), (Z.leb_spec 30 k), (Z.leb_spec 50 k),
      (Z.leb_spec 100 k); try lia; reflexivity.
  - split.
    + intros Hne.
      destruct (Z.leb_spec 100 k), (Z.leb_spec 100 (k - 1)),
        (Z.leb_spec 50 k), (Z.leb_spec 50 (k - 1)),
        (Z.leb_spec 30 k), (Z.leb_spec 30 (k - 1)),
        (Z.leb_spec 7 k), (Z.leb_spec 7 (k - 1));
        try lia; try (exfalso; apply Hne; reflexivity).
      * eexists. split; [apply list_elem_of_lookup_2 with 3%nat; reflexivity|].
        cbn. split; [apply Z.leb_le|apply Z.leb_gt]; lia.
      * eexists. split; [apply list_elem_of_lookup_2 with 2%nat; reflexivity|].
        cbn. split; [apply Z.leb_le|apply Z.leb_gt]; lia.
      * eexists. split; [apply list_elem_of_lookup_2 with 1%nat; reflexivity|].
        cbn. split; [apply Z.leb_le|apply Z.leb_gt]; lia.
      * eexists. split; [apply list_elem_of_lookup_2 with 0%nat; reflexivity|].
        cbn. split; [apply Z.leb_le|apply Z.leb_gt]; lia.
    + intros (a & Ha & Hk & Hk1).
      repeat (apply elem_of_cons in Ha as [->|Ha]);
        [..|now apply elem_of_nil in Ha];
        cbn in Hk, Hk1; apply Z.leb_le in Hk; apply Z.leb_gt in Hk1;
        destruct (Z.leb_spec 100 k), (Z.leb_spec 100 (k - 1)),
          (Z.leb_spec 50 k), (Z.leb_spec 50 (k - 1)),
          (Z.leb_spec 30 k), (Z.leb_spec 30 (k - 1)),
          (Z.leb_spec 7 k), (Z.leb_spec 7 (k - 1));
        try lia; discriminate.
Qed.

End StreakProperties.


(** ** The counters of the store *)

Section CounterFacts.
Import Text JsDate Store Daily Counters.
Context {host : Host}.

Lemma sumOf_acc f (l : list DailySubmissionData) : forall a,
  fold_left (fun sum day => sum + f day) l a = a + sumOf f l.
Proof.
  unfold sumOf. induction l as [|b l IH]; intros a; cbn [fold_left]; [lia|].
  rewrite (IH (a + f b)), (IH (0 + f b)). lia.
Qed.

Lemma sumOf_cons f b (l : list DailySubmissionData) :
  sumOf f (b :: l) = f b + sumOf f l.
Proof. unfold sumOf at 1. cbn [fold_left]. rewrite sumOf_acc. lia. Qed.

Lemma sumOf_app f (l1 l2 : list DailySubmissionData) :
  sumOf f (l1 ++ l2)%list = sumOf f l1 + sumOf f l2.
Proof.
  induction l1 as [|b l1 IH]; [reflexivity|].
  cbn [app]. rewrite !sumOf_cons, IH. lia.
Qed.

Lemma sumOf_filter f (p : DailySubmissionData -> bool) (l : list DailySubmissionData) :
  Forall (fun b => 0 <= f b) l -> sumOf f (List.filter p l) <= sumOf f l.
Proof.
  induction 1 as [|b l Hb _ IH]; [reflexivity|].
  cbn [List.filter]. destruct (p b); rewrite ?sumOf_cons; lia.
Qed.

Lemma sumOf_alter f (g : DailySubmissionData -> DailySubmissionData)
    (l : list DailySubmissionData) : forall (i : nat) b,
  l !! i = Some b -> sumOf f (alter g i l) = sumOf f l + f (g b) - f b.
Proof.
  induction l as [|c l IH]; intros [|i] b H; try discriminate.
  - injection H as ->. cbn [alter list_alter]. rewrite !sumOf_cons. lia.
  - cbn [alter list_alter]. rewrite !sumOf_cons.
    change (list_alter g i l) with (alter g i l). rewrite (IH i b H). lia.
Qed.

Lemma Forall_List_filter (P : DailySubmissionData -> Prop)
    (p : DailySubmissionData -> bool) (l : list DailySubmissionData) :
  Forall P l -> Forall P (List.filter p l).
Proof.
  induction 1 as [|b l Hb _ IH]; [constructor|].
  cbn [List.filter]. destruct (p b); [constructor|]; assumption.
Qed.

Lemma Forall_alter_bucket (P : DailySubmissionData -> Prop)
    (g : DailySubmissionData -> DailySubmissionData)
    (l : list DailySubmissionData) : forall (i : nat),
  (forall j b, l !! j = Some b -> j <> i -> P b) ->
  (forall b, l !! i = Some b -> P (g b)) ->
  Forall P (alter g i l).
Proof.
  intros i Ho Hi. apply Forall_lookup_2. intros j b Hj.
  destruct (decide (j = i)) as [->|Hne].
  - rewrite list_lookup_alter_eq in Hj.
    destruct (l !! i) as [b0|] eqn:E; [|discriminate].
    injection Hj as <-. now apply Hi.
  - rewrite list_lookup_alter_ne in Hj by congruence. eapply Ho; eauto.
Qed.

(** The bucket of today is in the array at the position returned, and it
    is the only new one. *)
Lemma withToday_lookup today (l : list DailySubmissionData) :
  let '(l1, i) := withToday today l in
  exists b0, l1 !! i = Some b0 /\
    (l1 = l \/
     l1 = (l ++ [freshBucket today])%list /\ b0 = freshBucket today /\
     i = length l).
Proof.
  unfold withToday. destruct (findToday today l) as [i|] eqn:E.
  - destruct (findToday_Some _ _ _ E) as (b & Hb & _). eauto.
  - exists (freshBucket today). split; [|auto].
    rewrite lookup_app_r by lia. now rewrite Nat.sub_diag.
Qed.

Lemma isDifficulty_range d o : 0 <= isDifficulty d o <= 1.
Proof. unfold isDifficulty. destruct (bool_decide _); lia. Qed.

Lemma isDifficulty_sum o :
  isDifficulty easy o + isDifficulty medium o + isDifficulty hard o <= 1.
Proof. destruct o as [[| |]|]; vm_compute; discriminate. Qed.

Lemma bump_counted o b :
  0 <= submissions b ->
  0 <= p_easy (problems b) -> 0 <= p_medium (problems b) ->
  0 <= p_hard (problems b) ->
  p_easy (problems b) + p_medium (problems b) + p_hard (problems b)
    <= submissions b ->
  bucket_counted (bump o b).
Proof.
  intros. unfold bucket_counted, bump. destruct o as [[| |]|]; cbn; lia.
Qed.

Lemma bump_easy o b :
  p_easy (problems (bump o b)) = p_easy (problems b) + isDifficulty easy o.
Proof. destruct o as [[| |]|]; cbn; vm_compute (isDifficulty _ _); lia. Qed.

Lemma bump_medium o b :
  p_medium (problems (bump o b)) = p_medium (problems b) + isDifficulty medium o.
Proof. destruct o as [[| |]|]; cbn; vm_compute (isDifficulty _ _); lia. Qed.

Lemma bump_hard o b :
  p_hard (problems (bump o b)) = p_hard (problems b) + isDifficulty hard o.
Proof. destruct o as [[| |]|]; cbn; vm_compute (isDifficulty _ _); lia. Qed.

Lemma counted_weaken (l : list DailySubmissionData) :
  Forall bucket_counted l ->
  Forall (fun b => 0 <= submissions b) l /\
  Forall (fun b => 0 <= p_easy (problems b)) l /\
  Forall (fun b => 0 <= p_medium (problems b)) l /\
  Forall (fun b => 0 <= p_hard (problems b)) l.
Proof.
  intros H. repeat split; eapply Forall_impl; try exact H;
    intros b (? & ? & ? & ? & ?); cbn; lia.
Qed.

Lemma updateDailySubmissions_totals data now later st :
  let st' := updateDailySubmissions data now later st in
  totalSolved st' = Some (or0 (totalSolved st) + 1) /\
  easyCount st' = Some (or0 (easyCount st) + isDifficulty easy (difficulty data)) /\
  mediumCount st' =
    Some (or0 (mediumCount st) + isDifficulty medium (difficulty data)) /\
  hardCount st' = Some (or0 (hardCount st) + isDifficulty hard (difficulty data)) /\
  lastSubmissionDate st' = Some (isoDate now).
Proof.
  unfold updateDailySubmissions. destruct (withToday _ _) as [l1 i].
  repeat split; reflexivity.
Qed.

(** [updateDailySubmissions] keeps the counters in agreement with the
    buckets. *)
Lemma updateDailySubmissions_counted data now later st :
  counted st -> counted (updateDailySubmissions data now later st).
Proof.
  intros (Hall & Ht & He & Hm & Hh & Hs).
  pose proof (updateDailySubmissions_totals data now later st)
    as (T0 & T1 & T2 & T3 & _).
  unfold counted. rewrite T0, T1, T2, T3. cbn [or0].
  rewrite buckets_updateDailySubmissions.
  pose proof (withToday_lookup (isoDate now) (buckets st)) as Hw.
  destruct (withToday _ _) as [l1 i]. cbn [fst snd].
  destruct Hw as (b0 & Hi & Hl1).
  assert (Hsum : forall f, f (freshBucket (isoDate now)) = 0 ->
                   sumOf f l1 = sumOf f (buckets st)).
  { intros f Hf. destruct Hl1 as [->|(-> & _ & _)]; [reflexivity|].
    rewrite sumOf_app, sumOf_cons, Hf. unfold sumOf. cbn. lia. }
  assert (Hb0 : 0 <= submissions b0 /\
                0 <= p_easy (problems b0) /\ 0 <= p_medium (problems b0) /\
                0 <= p_hard (problems b0) /\
                p_easy (problems b0) + p_medium (problems b0) + p_hard (problems b0)
                  <= submissions b0).
  { destruct Hl1 as [->|(_ & -> & _)]; [|cbn; lia].
    apply (Forall_lookup_1 _ _ _ _ Hall) in Hi.
    destruct Hi as (? & ? & ? & ? & ?). lia. }
  assert (Hall2 : Forall bucket_counted (alter (bump (difficulty data)) i l1)).
  { apply Forall_alter_bucket.
    - intros j b Hj Hne. destruct Hl1 as [->|(-> & _ & ->)].
      + apply (Forall_lookup_1 _ _ _ _ Hall Hj).
      + destruct (decide (j < length (buckets st))%nat) as [Hlt|Hge].
        * rewrite lookup_app_l in Hj by exact Hlt.
          apply (Forall_lookup_1 _ _ _ _ Hall Hj).
        * apply lookup_lt_Some in Hj. rewrite length_app in Hj. cbn in Hj. lia.
    - intros b Hb. rewrite Hi in Hb. injection Hb as <-.
      destruct Hb0 as (? & ? & ? & ? & ?). now apply bump_counted. }
  pose proof (counted_weaken _ Hall2) as (W0 & W1 & W2 & W3).
  unfold totalSubmissions in *.
  split; [now apply Forall_List_filter|].
  pose proof (isDifficulty_sum (difficulty data)).
  pose proof (isDifficulty_range easy (difficulty data)).
  pose proof (isDifficulty_range medium (difficulty data)).
  pose proof (isDifficulty_range hard (difficulty data)).
  pose proof (sumOf_filter submissions (withinYear later) _ W0) as F0.
  pose proof (sumOf_filter (fun b => p_easy (problems b)) (withinYear later) _ W1) as F1.
  pose proof (sumOf_filter (fun b => p_medium (problems b)) (withinYear later) _ W2) as F2.
  pose proof (sumOf_filter (fun b => p_hard (problems b)) (withinYear later) _ W3) as F3.
  rewrite (sumOf_alter _ _ _ _ _ Hi), Hsum in F0 by reflexivity.
  rewrite (sumOf_alter _ _ _ _ _ Hi), Hsum, bump_easy in F1 by reflexivity.
  rewrite (sumOf_alter _ _ _ _ _ Hi), Hsum, bump_medium in F2 by reflexivity.
  rewrite (sumOf_alter _ _ _ _ _ Hi), Hsum, bump_hard in F3 by reflexivity.
  cbn [bump submissions] in F0.
  repeat split; lia.
Qed.

End CounterFacts.

Section CounterProperties.
Import Text JsDate Store Daily Counters.
Context {host : Host}.

Lemma checkAchievements_daily_fields k st :
  let st' := fst (Streak.checkAchievements k st) in
  dailySubmissions st' = dailySubmissions st /\
  totalSolved st' = totalSolved st /\ easyCount st' = easyCount st /\
  mediumCount st' = mediumCount st /\ hardCount st' = hardCount st.
Proof.
  unfold Streak.checkAchievements.
  destruct (fold_left _ _ _) as [u n].
  destruct (0 <? Z.of_nat (length n)); cbn; auto.
Qed.

Lemma updateStreak_daily_fields now later st :
  let st' := fst (Streak.updateStreak now later st) in
  dailySubmissions st' = dailySubmissions st /\
  totalSolved st' = totalSolved st /\ easyCount st' = easyCount st /\
  mediumCount st' = mediumCount st /\ hardCount st' = hardCount st.
Proof.
  unfold Streak.updateStreak.
  destruct (bool_decide _); [cbn; auto|].
  match goal with
  | |- context [Streak.checkAchievements ?k ?s] =>
      pose proof (checkAchievements_daily_fields k s) as H;
      destruct (Streak.checkAchievements k s) as [st2 newA]
  end.
  cbn in *. exact H.
Qed.

Lemma counted_fields st st' :
  dailySubmissions st' = dailySubmissions st /\
  totalSolved st' = totalSolved st /\ easyCount st' = easyCount st /\
  mediumCount st' = mediumCount st /\ hardCount st' = hardCount st ->
  counted st -> counted st'.
Proof.
  intros (E0 & E1 & E2 & E3 & E4). unfold counted, buckets.
  now rewrite E0, E1, E2, E3, E4.
Qed.

Lemma step_counted st st' :
  Background.step st st' -> counted st -> counted st'.
Proof.
  intros [now later|k|data now later] H.
  - eapply counted_fields; [apply updateStreak_daily_fields|exact H].
  - eapply counted_fields; [apply checkAchievements_daily_fields|exact H].
  - now apply updateDailySubmissions_counted.
Qed.

Lemma empty_counted : counted Store.empty.
Proof.
  unfold counted, buckets, totalSubmissions, sumOf. cbn.
  repeat split; (constructor || lia).
Qed.

Lemma elem_of_alter_other (g : DailySubmissionData -> DailySubmissionData)
    (l : list DailySubmissionData) b : forall (i : nat),
  b ∈ l -> l !! i <> Some b -> b ∈ alter g i l.
Proof.
  induction l as [|c l IH]; intros i Hb Hi; [now apply elem_of_nil in Hb|].
  apply elem_of_cons in Hb. destruct i as [|i]; cbn [alter list_alter].
  - destruct Hb as [->|Hb]; [now exfalso; apply Hi|].
    apply elem_of_cons. auto.
  - destruct Hb as [->|Hb]; [apply elem_of_cons; auto|].
    apply elem_of_cons. right. apply IH; assumption.
Qed.

(** X14. In every store the background script can reach from the empty
    one, each bucket counts at least one submission and its difficulty
    counters count no more than the bucket; the total the calendar shows
    (the sum over the buckets) is at most the counter [totalSolved], the
    difficulty sums over the buckets are at most the difficulty counters,
    and these add up to at most [totalSolved]. *)
Theorem X14_counters_agree (st : Storage) :
  Background.reachable Store.empty st ->
  (forall b, b ∈ buckets st ->
     1 <= submissions b /\
     0 <= p_easy (problems b) /\ 0 <= p_medium (problems b) /\
     0 <= p_hard (problems b) /\
     p_easy (problems b) + p_medium (problems b) + p_hard (problems b)
       <= submissions b) /\
  totalSubmissions (buckets st) <= or0 (totalSolved st) /\
  sumOf (fun b => p_easy (problems b)) (buckets st) <= or0 (easyCount st) /\
  sumOf (fun b => p_medium (problems b)) (buckets st) <= or0 (mediumCount st) /\
  sumOf (fun b => p_hard (problems b)) (buckets st) <= or0 (hardCount st) /\
  or0 (easyCount st) + or0 (mediumCount st) + or0 (hardCount st)
    <= or0 (totalSolved st).
Proof.
  intros Hr.
  assert (H : counted st).
  { induction Hr as [|st1 st2 _ IH Hstep]; [apply empty_counted|].
    eapply step_counted; eauto. }
  destruct H as (Hall & H). split; [|exact H].
  intros b Hb. apply (proj1 (Forall_forall _ _) Hall b Hb).
Qed.

(** X15. The window of the buckets kept by [updateDailySubmissions] at
    the clock readings [now], for the event date, and [later], for the
    cut: a bucket of another date is kept exactly when [new Date] takes
    its date, for a time that is not before the clock reading [later]
    moved 365 days of local time back.  For a date of the form
    [YYYY-MM-DD]: in a zone of fixed offset that is exactly when the date
    is a day at most 364 days before the day of [later], or the day 365
    days before it when [later] is midnight to the millisecond; in a zone
    whose offsets differ by less than a day, a bucket dated at most 363
    days before the day of [later] is kept, and a kept bucket is dated at
    most 365 days before the day of [now]. *)
Theorem X15_retention_window (data : SubmissionData) (now later : Z)
    (st : Storage) (b : DailySubmissionData) :
  b ∈ buckets st -> date b <> isoDate now ->
  (b ∈ buckets (updateDailySubmissions data now later st) <->
   exists t, parseDate (date b) = Some t /\ setDateBack 365 later <= t) /\
  (forall offset day,
      constantOffset offset -> parseDay (date b) = Some day ->
      (b ∈ buckets (updateDailySubmissions data now later st) <->
       later / ms_per_day - 364 <= day \/
       day = later / ms_per_day - 365 /\ later mod ms_per_day = 0)) /\
  (forall day,
      tame -> now <= later -> parseDay (date b) = Some day ->
      (later / ms_per_day - 363 <= day ->
       b ∈ buckets (updateDailySubmissions data now later st)) /\
      (b ∈ buckets (updateDailySubmissions data now later st) ->
       now / ms_per_day - 365 <= day)).
Proof.
  intros Hb Hne.
  assert (Hkept : b ∈ buckets (updateDailySubmissions data now later st) <->
                  withinYear later b = true).
  { rewrite buckets_updateDailySubmissions.
    pose proof (withToday_spec (isoDate now) (buckets st)) as Hw.
    destruct (withToday _ _) as [l1 i]. cbn [fst snd].
    destruct Hw as ((b0 & Hi & Hd0 & _) & _ & Hkeep & _).
    rewrite bucket_of_filter.
    assert (Hin : b ∈ alter (bump (difficulty data)) i l1).
    { apply elem_of_alter_other; [now apply Hkeep|].
      rewrite Hi. intros [= ->]. now apply Hne. }
    tauto. }
  split; [|split].
  - rewrite Hkept. split; [apply withinYear_parsed|].
    intros (t & Ht & Hle). unfold withinYear. rewrite Ht. now apply Z.leb_le.
  - intros offset day Hc Hp. rewrite Hkept.
    unfold withinYear, parseDate. rewrite Hp, Z.leb_le.
    rewrite (setDateBack_constant offset) by exact Hc.
    unfold ms_per_day. Z.div_mod_to_equations. lia.
  - intros day Ht Hl Hp. rewrite Hkept. split.
    + intros Hd. unfold withinYear, parseDate. rewrite Hp. apply Z.leb_le.
      pose proof (setDateBack_tame 365 later Ht) as Hc.
      unfold ms_per_day in *. Z.div_mod_to_equations. lia.
    + intros Hw. now apply (withinYear_day now later b).
Qed.

End CounterProperties.

(** The store after one submission. *)
Lemma X14_counters_agree_witness :
  Background.reachable (host := JsDate.utc) Store.empty
    (Daily.updateDailySubmissions (host := JsDate.utc) Daily.two_sum
       1736071200000 1736071200001 Store.empty) /\
  Counters.totalSubmissions
    (Daily.buckets
       (Daily.updateDailySubmissions (host := JsDate.utc) Daily.two_sum
          1736071200000 1736071200001 Store.empty))
  <= Store.or0
       (Store.totalSolved
          (Daily.updateDailySubmissions (host := JsDate.utc) Daily.two_sum
             1736071200000 1736071200001 Store.empty)).
Proof.
  assert (H : Background.reachable (host := JsDate.utc) Store.empty
                (Daily.updateDailySubmissions (host := JsDate.utc) Daily.two_sum
                   1736071200000 1736071200001 Store.empty)).
  { eapply Background.reach_step; [apply Background.reach_refl|].
    apply Background.step_updateDailySubmissions. }
  split; [exact H|].
  exact (proj1 (proj2 (X14_counters_agree (host := JsDate.utc) _ H))).
Defined.

(** The bucket of 2023-12-31 at midnight 365 days later, in a zone of
    fixed offset: it is kept. *)
Lemma X15_retention_window_witness :
  {| Store.date := "2023-12-31"; Store.submissions := 2;
     Store.problems :=
       {| Store.p_easy := 1; Store.p_medium := 1; Store.p_hard := 0 |} |}
    ∈ Daily.buckets Daily.stale_store /\
  "2023-12-31" <> JsDate.isoDate (20087 * JsDate.ms_per_day) /\
  {| Store.date := "2023-12-31"; Store.submissions := 2;
     Store.problems :=
       {| Store.p_easy := 1; Store.p_medium := 1; Store.p_hard := 0 |} |}
    ∈ Daily.buckets
        (Daily.updateDailySubmissions (host := JsDate.utc) Daily.two_sum
           (20087 * JsDate.ms_per_day) (20087 * JsDate.ms_per_day)
           Daily.stale_store).
Proof.
  assert (H1 : {| Store.date := "2023-12-31"; Store.submissions := 2;
                  Store.problems :=
                    {| Store.p_easy := 1; Store.p_medium := 1;
                       Store.p_hard := 0 |} |}
                 ∈ Daily.buckets Daily.stale_store)
    by (apply list_elem_of_singleton; reflexivity).
  assert (H2 : "2023-12-31" <> JsDate.isoDate (20087 * JsDate.ms_per_day))
    by (vm_compute; discriminate).
  split; [exact H1|]. split; [exact H2|].
  apply (proj1 (proj2 (X15_retention_window (host := JsDate.utc) Daily.two_sum
                         (20087 * JsDate.ms_per_day) (20087 * JsDate.ms_per_day)
                         Daily.stale_store _ H1 H2))
           0 19722 (constantOffset_fixedOffset 0) eq_refl).
  right. split; reflexivity.
Defined.

(** ** The background script *)

Section WorkerFacts.
Import Text JsDate Store GitHub Codes Trace Worker.
Context {host : Host} {W : Type} {client : Octokit W}.

(** [updateStreak] leaves the day of its clock reading as the last push
    date. *)
Lemma updateStreak_lastPushDate now later st :
  lastPushDate (fst (Streak.updateStreak now later st)) = Some (isoDate now).
Proof.
  destruct (decide (lastPushDate st = Some (isoDate now))) as [E|E].
  - rewrite updateStreak_same_day by exact E. exact E.
  - apply (updateStreak_new_day now later st E).
Qed.

Lemma checkAchievements_lastSubmissionDate k st :
  lastSubmissionDate (fst (Streak.checkAchievements k st)) = lastSubmissionDate st.
Proof.
  unfold Streak.checkAchievements.
  destruct (fold_left _ _ _) as [u n].
  destruct (0 <? Z.of_nat (length n)); reflexivity.
Qed.

Lemma updateStreak_lastSubmissionDate now later st :
  lastSubmissionDate (fst (Streak.updateStreak now later st))
  = lastSubmissionDate st.
Proof.
  unfold Streak.updateStreak.
  destruct (bool_decide _); [reflexivity|].
  match goal with
  | |- context [Streak.checkAchievements ?k ?s] =>
      pose proof (checkAchievements_lastSubmissionDate k s) as H;
      destruct (Streak.checkAchievements k s) as [st2 newA]
  end.
  cbn in *. exact H.
Qed.

(** The requests of one [saveSolution] for any arguments: at most one
    write, and exactly one when it returns. *)
Lemma saveSolution_writes (platform problemId code language : string)
    (s : Service W) :
  exists new,
    let '(outcome, s') := saveSolution platform problemId code language s in
    sent s' = (sent s ++ new)%list /\
    (length (filter is_write new) <= 1)%nat /\
    (outcome = Return tt -> length (filter is_write new) = 1%nat) /\
    owner s' = owner s /\ repo s' = repo s.
Proof.
  destruct (getFilePath platform problemId language) as [e|path] eqn:Hp.
  - exists []. unfold saveSolution. rewrite Hp. cbn.
    rewrite app_nil_r. repeat split; auto. discriminate.
  - destruct (saveSolution_requests_any platform problemId code language path s Hp)
      as [new H].
    exists (ReqGetContent (owner s) (repo s) path :: new).
    destruct (saveSolution _ _ _ _ s) as [outcome s'].
    destruct H as (H1 & _ & _ & H2 & H3 & H4 & H5).
    rewrite filter_cons_False by (cbn; auto).
    repeat split; assumption.
Qed.

End WorkerFacts.

Section WorkerProperties.
Import Text JsDate Store GitHub Codes Trace Worker.
Context {host : Host} {W : Type} {client : Octokit W}.

(** X16. For any client, [handleNewSubmission] counts a submission only
    when it was saved.  When it throws, the store is as before and the
    error is an [Error] with a message, never what the transport threw;
    with a service, one failure notification is shown and the message
    is [GitHub Error: <message> (<code>)] for a code the service throws.
    When it returns, exactly one write was sent, [totalSolved] is one
    more, the last submission date and the last push date are the days
    of the clock readings, and the first new notification is the one of
    the saved solution. *)
Theorem X16_counted_only_if_saved (data : Daily.SubmissionData)
    (now1 later1 now2 later2 : Z) (bg : State W) :
  let '(result, bg') := handleNewSubmission data now1 later1 now2 later2 bg in
  match result with
  | inl f =>
      storage bg' = storage bg /\
      exists msg, f = Failed msg /\
        match githubService bg with
        | None => bg' = bg
        | Some _ =>
            shown bg' = (shown bg ++ [failedNotification data])%list /\
            exists e, code e ∈ thrown /\
              msg = "GitHub Error: " +:+ message e +:+ " (" +:+ code e +:+ ")"
        end
  | inr _ =>
      (exists new, requests bg' = (requests bg ++ new)%list /\
                   length (filter is_write new) = 1%nat) /\
      or0 (totalSolved (storage bg')) = or0 (totalSolved (storage bg)) + 1 /\
      lastSubmissionDate (storage bg') = Some (isoDate now1) /\
      lastPushDate (storage bg') = Some (isoDate now2) /\
      exists streak rest,
        shown bg' = (shown bg ++ savedNotification streak data :: rest)%list
  end.
Proof.
  unfold handleNewSubmission.
  destruct (githubService bg) as [[o r]|] eqn:Hs.
  2:{ split; [reflexivity|]. eexists. split; reflexivity. }
  pose proof (throws_saveSolution (Daily.platform data) (Daily.problemId data)
                (Daily.code data) (Daily.language data)
                {| owner := o; repo := r; world := remote bg;
                   sent := requests bg |}) as Ht.
  destruct (saveSolution_writes (Daily.platform data) (Daily.problemId data)
              (Daily.code data) (Daily.language data)
              {| owner := o; repo := r; world := remote bg;
                 sent := requests bg |}) as [new Hnew].
  destruct (saveSolution _ _ _ _ _) as [[[]|e] service]; cbn [fst] in Ht.
  - destruct Hnew as (Hsent & _ & Hone & _).
    pose proof (updateStreak_lastPushDate now2 later2
                  (Daily.updateDailySubmissions data now1 later1 (storage bg)))
      as Hl.
    pose proof (updateStreak_daily_fields now2 later2
                  (Daily.updateDailySubmissions data now1 later1 (storage bg)))
      as (_ & Hts & _).
    pose proof (updateDailySubmissions_streak_fields data now1 later1 (storage bg))
      as Hsf.
    pose proof (updateDailySubmissions_totals data now1 later1 (storage bg))
      as (T0 & _ & _ & _ & T4).
    destruct (Streak.updateStreak now2 later2 _) as [st2 [streak newA]] eqn:Eu.
    cbn [fst snd storage requests shown] in *.
    split; [exists new; split; [exact Hsent|now apply Hone]|].
    rewrite Hts, T0. split; [reflexivity|].
    split; [|split; [exact Hl|eauto]].
    assert (Hd : lastSubmissionDate st2 =
                 lastSubmissionDate
                   (Daily.updateDailySubmissions data now1 later1 (storage bg))).
    { change st2 with (fst (st2, (streak, newA))). rewrite <- Eu.
      apply updateStreak_lastSubmissionDate. }
    now rewrite Hd.
  - destruct e as [g|t]; [|destruct Ht].
    cbn [storage shown]. split; [reflexivity|].
    eexists. split; [reflexivity|].
    split; [reflexivity|]. exists g. split; [exact Ht|reflexivity].
Qed.

(** X17. While there is no service, the listener changes nothing: every
    submission is answered with the failure of the missing service and a
    configuration with an empty token is not answered at all; no request
    is sent, the store is not written and nothing is shown. *)
Theorem X17_unconfigured_listener (ms : list Message) (bg : State W) :
  githubService bg = None ->
  Forall (fun m => match m with
                   | NEW_SUBMISSION _ _ _ _ _ => True
                   | GITHUB_CONFIG_UPDATED token _ _ => token = EmptyString
                   end) ms ->
  onMessages ms bg =
  (map (fun m => match m with
                 | NEW_SUBMISSION _ _ _ _ _ =>
                     Failure_ (Some "GitHub service not initialized. Please check your settings.")
                 | GITHUB_CONFIG_UPDATED _ _ _ => NoReply
                 end) ms,
   bg).
Proof.
  intros Hs Hms. induction Hms as [|m ms Hm _ IH]; [reflexivity|].
  cbn [onMessages map].
  destruct m as [data now1 later1 now2 later2|token o r].
  - unfold onMessage, handleNewSubmission. rewrite Hs. cbn.
    now rewrite IH.
  - subst token. cbn. now rewrite IH.
Qed.

(** X18. The daily check reminds exactly when notifications are on and
    the last push date is not the day of the clock reading; after an
    [updateStreak] it stays silent for the rest of that day. *)
Theorem X18_daily_reminder (notifications : bool) (now : Z) (st : Storage) :
  (handleDailyCheck notifications now st <> [] <->
   notifications = true /\ lastPushDate st <> Some (isoDate now)) /\
  (forall pushed later, pushed / ms_per_day = now / ms_per_day ->
     handleDailyCheck notifications now
       (fst (Streak.updateStreak pushed later st)) = []).
Proof.
  assert (Hiff : forall st0,
            handleDailyCheck notifications now st0 <> [] <->
            notifications = true /\ lastPushDate st0 <> Some (isoDate now)).
  { intros st0. unfold handleDailyCheck, Streak.getStreakStats.
    cbn [Streak.sd_lastPushDate Streak.sd_streak].
    destruct notifications; cbn [andb].
    2:{ split; [intros H; now contradiction H|intros [H _]; discriminate]. }
    destruct (lastPushDate st0) as [d|].
    - destruct (String.eqb_spec d (isoDate now)) as [->|Hne]; cbn [negb].
      + split; [intros H; now contradiction H|intros [_ H]; now contradiction H].
      + split; [intros _; split; [reflexivity|congruence]|discriminate].
    - destruct (String.eqb_spec EmptyString (isoDate now)) as [E|Hne]; cbn [negb].
      + symmetry in E. now apply isoDay_nonempty in E.
      + split; [intros _; split; [reflexivity|discriminate]|discriminate]. }
  split; [apply Hiff|].
  intros pushed later Hday.
  destruct (handleDailyCheck notifications now
              (fst (Streak.updateStreak pushed later st)))
    as [|n l] eqn:E; [reflexivity|].
  exfalso.
  assert (Hne : handleDailyCheck notifications now
                  (fst (Streak.updateStreak pushed later st)) <> [])
    by (rewrite E; discriminate).
  apply Hiff in Hne as [_ Hne]. apply Hne.
  rewrite updateStreak_lastPushDate. unfold isoDate. now rewrite Hday.
Qed.

End WorkerProperties.

Section FirstSubmission.
Import Text JsDate Store GitHub Codes Remote Worker.
Context {host : Host}.

Lemma updateDailySubmissions_first data now later st :
  tame -> prompt now later ->
  dailySubmissions st = None ->
  first_day <= now / ms_per_day <= last_day ->
  Daily.buckets (Daily.updateDailySubmissions data now later st) =
  [Daily.bump (Daily.difficulty data) (Daily.freshBucket (isoDate now))].
Proof.
  intros Htame Hp Hn Hr. rewrite buckets_updateDailySubmissions.
  unfold Daily.buckets. rewrite Hn. cbn [orNil].
  change (Daily.withToday (isoDate now) [])
    with ([Daily.freshBucket (isoDate now)], O).
  cbn [fst snd alter list_alter List.filter].
  rewrite (withinYear_today now later);
    [reflexivity|exact Htame|exact Hp|exact Hr|reflexivity].
Qed.

Lemma updateDailySubmissions_unlocked data now later st :
  unlockedAchievements (Daily.updateDailySubmissions data now later st)
  = unlockedAchievements st.
Proof.
  unfold Daily.updateDailySubmissions. destruct (Daily.withToday _ _) as [l1 i].
  reflexivity.
Qed.

Lemma updateStreak_first now later st :
  lastPushDate st = None -> unlockedAchievements st = None ->
  Streak.updateStreak now later st =
  (setStreak 1 (isoDate now) (Z.max 1 (or0 (longestStreak st))) st, (1, [])).
Proof.
  intros Hl Hu. unfold Streak.updateStreak.
  rewrite bool_decide_eq_false_2 by (rewrite Hl; discriminate).
  rewrite Hl. unfold Streak.checkAchievements.
  cbn [unlockedAchievements setStreak]. rewrite Hu. reflexivity.
Qed.

(** X19. The first submission: from the script as installed, over a
    remote that answers, a configuration with a token followed by a
    submission for a platform with a folder are both answered with
    success; the requests are the existence check and the creation of
    the file of the solution in the configured repository, which is then
    the only file of the remote; the store has one bucket, of the day of
    the submission, with the submission counted, a streak of one, and the
    one notification shown is the one of the saved solution.  The host is
    one whose zone offsets differ by less than a day, and the cut of the
    buckets is taken less than a day after the date of the submission. *)
Theorem X19_first_submission (login : string) (sha_of : string -> string)
    (token o r : string) (data : Daily.SubmissionData)
    (now1 later1 now2 later2 : Z) :
  tame -> prompt now1 later1 ->
  truthy token = true ->
  toLowerCase (Daily.platform data) ∈ supported ->
  first_day <= now1 / ms_per_day <= last_day ->
  exists bg',
    onMessages (client := ideal login sha_of)
      [GITHUB_CONFIG_UPDATED token o r;
       NEW_SUBMISSION data now1 later1 now2 later2] installed
    = ([Success; Success], bg') /\
    githubService bg' = Some (o, r) /\
    requests bg' =
      [ReqGetContent o r
         (solutionPath (Daily.platform data) (Daily.problemId data)
            (Daily.language data));
       ReqPutContent o r
         (solutionPath (Daily.platform data) (Daily.problemId data)
            (Daily.language data))
         (generateCommitMessage (Daily.platform data) (Daily.problemId data) false)
         (base64 (Daily.code data)) None] /\
    remote bg' =
      {[ (o, r, solutionPath (Daily.platform data) (Daily.problemId data)
                  (Daily.language data)) :=
         {| file_content := Daily.code data;
            file_sha := sha_of (Daily.code data) |} ]} /\
    Daily.buckets (storage bg') =
      [Daily.bump (Daily.difficulty data) (Daily.freshBucket (isoDate now1))] /\
    totalSolved (storage bg') = Some 1 /\
    streak (storage bg') = Some 1 /\
    longestStreak (storage bg') = Some 1 /\
    lastPushDate (storage bg') = Some (isoDate now2) /\
    shown bg' = [savedNotification 1 data].
Proof.
  intros Htame Hp Ht Hs Hr.
  cbn [onMessages onMessage]. unfold construct. rewrite Ht.
  cbn [owner repo remote requests storage shown installed].
  unfold handleNewSubmission. cbn [githubService remote requests storage shown].
  pose proof (saveSolution_ideal login sha_of
                (Daily.platform data) (Daily.problemId data) (Daily.code data)
                (Daily.language data) _
                {| owner := o; repo := r; world := ∅; sent := [] |}
                (getFilePath_supported _ _ _ Hs)) as Hsave.
  unfold the_client in Hsave. rewrite Hsave. clear Hsave.
  cbn [owner repo world sent with_world app].
  rewrite lookup_empty.
  assert (Hl : lastPushDate
                 (Daily.updateDailySubmissions data now1 later1 Store.empty)
               = None)
    by apply (updateDailySubmissions_streak_fields data now1 later1 Store.empty).
  assert (Hg : longestStreak
                 (Daily.updateDailySubmissions data now1 later1 Store.empty)
               = None)
    by apply (updateDailySubmissions_streak_fields data now1 later1 Store.empty).
  assert (Hu : unlockedAchievements
                 (Daily.updateDailySubmissions data now1 later1 Store.empty) = None)
    by apply updateDailySubmissions_unlocked.
  rewrite (updateStreak_first now2 later2 _ Hl Hu), Hg.
  eexists. split; [reflexivity|].
  cbn [githubService requests remote storage shown app map].
  split; [reflexivity|]. split; [reflexivity|].
  split; [reflexivity|].
  split; [apply (updateDailySubmissions_first data now1 later1 Store.empty
                   Htame Hp eq_refl Hr)|].
  split; [apply (updateDailySubmissions_totals data now1 later1 Store.empty)|].
  repeat split; reflexivity.
Qed.

End FirstSubmission.

(** A submission before any configuration, and a configuration without
    token. *)
Lemma X17_unconfigured_listener_witness :
  Worker.githubService Worker.installed = None /\
  Worker.onMessages (host := JsDate.utc)
    (client := Remote.ideal "octocat" (fun c => c))
    [Worker.NEW_SUBMISSION Daily.two_sum 1736071200000 1736071200001
       1736071200002 1736071200003;
     Worker.GITHUB_CONFIG_UPDATED "" "octocat" "solutions"]
    Worker.installed =
  ([Worker.Failure_
      (Some "GitHub service not initialized. Please check your settings.");
    Worker.NoReply],
   Worker.installed).
Proof.
  split; [reflexivity|].
  refine (X17_unconfigured_listener (host := JsDate.utc)
            (client := Remote.ideal "octocat" (fun c => c))
            [Worker.NEW_SUBMISSION Daily.two_sum 1736071200000 1736071200001
               1736071200002 1736071200003;
             Worker.GITHUB_CONFIG_UPDATED "" "octocat" "solutions"]
            Worker.installed eq_refl _).
  repeat constructor.
Defined.

(** The first submission of a Java solution of Two Sum. *)
Lemma X19_first_submission_witness :
  JsDate.tame (host := JsDate.utc) /\
  JsDate.prompt 1736071200000 1736071200001 /\
  Text.truthy "token" = true /\
  Text.toLowerCase (Daily.platform Daily.two_sum) ∈ Codes.supported /\
  JsDate.first_day <= 1736071200000 / JsDate.ms_per_day <= JsDate.last_day /\
  exists bg',
    Worker.onMessages (host := JsDate.utc)
      (client := Remote.ideal "octocat" (fun c => c))
      [Worker.GITHUB_CONFIG_UPDATED "token" "octocat" "solutions";
       Worker.NEW_SUBMISSION Daily.two_sum 1736071200000 1736071200001
         1736071200002 1736071200003]
      Worker.installed = ([Worker.Success; Worker.Success], bg') /\
    Worker.remote bg' =
      {[ ("octocat", "solutions", "leetcode/two-sum.java") :=
         {| Remote.file_content := "class Solution {}";
            Remote.file_sha := "class Solution {}" |} ]} /\
    Store.totalSolved (Worker.storage bg') = Some 1.
Proof.
  assert (H0 : JsDate.tame (host := JsDate.utc)) by apply tame_fixedOffset.
  assert (H0' : JsDate.prompt 1736071200000 1736071200001)
    by apply prompt_next.
  assert (H1 : Text.truthy "token" = true) by reflexivity.
  assert (H2 : Text.toLowerCase (Daily.platform Daily.two_sum) ∈ Codes.supported)
    by (vm_compute; constructor).
  assert (H3 : JsDate.first_day <= 1736071200000 / JsDate.ms_per_day
               <= JsDate.last_day)
    by (vm_compute; split; discriminate).
  split; [exact H0|]. split; [exact H0'|].
  split; [exact H1|]. split; [exact H2|]. split; [exact H3|].
  destruct (X19_first_submission (host := JsDate.utc) "octocat" (fun c => c)
              "token" "octocat" "solutions" Daily.two_sum
              1736071200000 1736071200001 1736071200002 1736071200003
              H0 H0' H1 H2 H3)
    as (bg' & E & _ & _ & Hw & _ & Ht & _).
  exists bg'. split; [exact E|]. split; [exact Hw|exact Ht].
Defined.

(** ** The problem ids of the content script as file stems *)

Section IdFacts.
Import Text Slug Stem Chars Dom Content.

Lemma take_while_all p s : all_chars p (take_while p s) = true.
Proof.
  induction s as [|c s IH]; [reflexivity|].
  cbn [take_while]. destruct (p c) eqn:E; [|reflexivity].
  cbn [all_chars]. now rewrite E, IH.
Qed.

Lemma match_after_all lit cls s g :
  match_after lit cls s = Some g -> all_chars cls g = true /\ g <> EmptyString.
Proof.
  induction s as [|c s IH]; cbn [match_after].
  - destruct (drop_prefix lit EmptyString) as [rest|]; [|discriminate].
    pose proof (take_while_all cls rest) as Ha.
    destruct (take_while cls rest) as [|d r]; [discriminate|].
    intros [= <-]. split; [exact Ha|discriminate].
  - destruct (drop_prefix lit (String c s)) as [rest|].
    + pose proof (take_while_all cls rest) as Ha.
      destruct (take_while cls rest) as [|d r]; [exact IH|].
      intros [= <-]. split; [exact Ha|discriminate].
    + exact IH.
Qed.

Lemma lower_upper_or_digit c :
  ContentFull.is_upper_or_digit c = true -> is_slug_char (lower_char c) = true.
Proof. destruct c as [[] [] [] [] [] [] [] []]; vm_compute; congruence. Qed.

Lemma toLowerCase_upper_or_digit s :
  all_chars ContentFull.is_upper_or_digit s = true ->
  all_chars is_slug_char (toLowerCase s) = true.
Proof.
  induction s as [|c s IH]; [reflexivity|].
  cbn [all_chars toLowerCase]. intros [Hc Hs]%andb_true_iff.
  now rewrite lower_upper_or_digit, IH.
Qed.

Lemma digit_slug c : is_digit c = true -> is_slug_char c = true.
Proof. unfold is_slug_char. intros ->. apply orb_true_r. Qed.

Lemma all_chars_impl (p q : ascii -> bool) s :
  (forall c, p c = true -> q c = true) ->
  all_chars p s = true -> all_chars q s = true.
Proof.
  intros H. induction s as [|c s IH]; [reflexivity|].
  cbn [all_chars]. intros [Hc Hs]%andb_true_iff. now rewrite (H c Hc), IH.
Qed.

Lemma slug_file c : is_slug_char c = true -> is_file_char c = true.
Proof. destruct c as [[] [] [] [] [] [] [] []]; vm_compute; congruence. Qed.

Lemma slug_only_squeezed s : all_chars is_slug_char s = true -> squeezed s = true.
Proof.
  induction s as [|c s IH]; [reflexivity|].
  cbn [all_chars]. intros [Hc Hs]%andb_true_iff.
  change (squeezed (String c s))
    with (match s with
          | EmptyString => true
          | String c' _ => negb (is_hyphen c && is_hyphen c') && squeezed s
          end).
  destruct s as [|c' s']; [reflexivity|].
  rewrite (is_slug_not_hyphen c Hc), (IH Hs). reflexivity.
Qed.

Lemma slug_only_no_trail s :
  all_chars is_slug_char s = true -> ends_with_hyphen s = false.
Proof.
  induction s as [|c s IH]; [reflexivity|].
  cbn [all_chars]. intros [Hc Hs]%andb_true_iff.
  destruct s as [|c' s']; [exact (is_slug_not_hyphen c Hc)|].
  exact (IH Hs).
Qed.

(** A string of letters and digits is a clean stem. *)
Lemma slug_only_clean s : all_chars is_slug_char s = true -> clean s = true.
Proof.
  intros H. unfold clean.
  assert (Hf : file_chars s = true).
  { clear -H. induction s as [|c s IH]; [reflexivity|].
    cbn [all_chars] in H. apply andb_true_iff in H as [Hc Hs].
    cbn [file_chars]. now rewrite (slug_file c Hc), IH. }
  rewrite Hf, (slug_only_squeezed s H), (slug_only_no_trail s H).
  destruct s as [|c s]; [reflexivity|].
  cbn [all_chars] in H. apply andb_true_iff in H as [Hc _].
  cbn [starts_with_hyphen]. now rewrite (is_slug_not_hyphen c Hc).
Qed.

(** So is a string of letters and digits after [unknown-]. *)
Lemma unknown_clean s :
  all_chars is_slug_char s = true -> s <> EmptyString ->
  clean ("unknown-" +:+ s) = true.
Proof.
  intros H Hne. destruct s as [|c s]; [contradiction|].
  pose proof (slug_only_clean _ H) as Hc. unfold clean in *.
  apply andb_true_iff in Hc as [Hc Ht]. apply andb_true_iff in Hc as [Hc Hl].
  apply andb_true_iff in Hc as [Hf Hq].
  cbn [all_chars] in H. apply andb_true_iff in H as [Hs _].
  change ("unknown-" +:+ String c s)
    with (String "u" (String "n" (String "k" (String "n"
            (String "o" (String "w" (String "n" (String "-" (String c s))))))))).
  change (ends_with_hyphen (String "u" (String "n" (String "k" (String "n"
            (String "o" (String "w" (String "n" (String "-" (String c s))))))))))
    with (ends_with_hyphen (String c s)).
  rewrite Ht.
  change (file_chars (String "u" (String "n" (String "k" (String "n"
            (String "o" (String "w" (String "n" (String "-" (String c s))))))))))
    with (file_chars (String c s)).
  rewrite Hf.
  change (squeezed (String "u" (String "n" (String "k" (String "n"
            (String "o" (String "w" (String "n" (String "-" (String c s))))))))))
    with (negb (is_hyphen "-" && is_hyphen c) && squeezed (String c s)).
  rewrite Hq, (is_slug_not_hyphen c Hs). reflexivity.
Qed.

Lemma pretty_N_char_digit d : is_digit (pretty_N_char d) = true.
Proof.
  destruct d as [|p]; [reflexivity|].
  do 4 (destruct p as [p|p|]; try reflexivity).
Qed.

Lemma pretty_N_go_digits x : forall s,
  all_chars is_digit s = true ->
  all_chars is_digit (pretty_N_go x s) = true /\
  (s <> EmptyString \/ (0 < x)%N -> pretty_N_go x s <> EmptyString).
Proof.
  induction (N.lt_wf_0 x) as [x _ IH]. intros s Hs.
  destruct (decide (0 < x)%N) as [Hx|Hx].
  - rewrite pretty_N_go_step by exact Hx.
    destruct (IH (x `div` 10)%N (N.div_lt x 10 Hx eq_refl)
                (String (pretty_N_char (x `mod` 10)) s)) as [H1 H2].
    { cbn [all_chars]. now rewrite pretty_N_char_digit, Hs. }
    split; [exact H1|]. intros _. apply H2. left. discriminate.
  - assert (x = 0%N) as -> by lia. rewrite pretty_N_go_0.
    split; [exact Hs|]. intros [H|H]; [exact H|lia].
Qed.

(** The decimal digits of a number that is not negative. *)
Lemma numberToString_digits n :
  0 <= n ->
  all_chars is_digit (numberToString n) = true /\ numberToString n <> EmptyString.
Proof.
  intros Hn. unfold numberToString, pretty, pretty_Z.
  destruct n as [|p|p]; [split; [reflexivity|discriminate]| |lia].
  unfold pretty, pretty_positive, pretty, pretty_N.
  destruct (decide (N.pos p = 0%N)) as [E|_]; [discriminate|].
  destruct (pretty_N_go_digits (N.pos p) EmptyString eq_refl) as [H1 H2].
  split; [exact H1|]. apply H2. right. reflexivity.
Qed.

Lemma titleSlug_clean title : clean (titleSlug title) = true.
Proof.
  rewrite <- (proj2 (titleSlug_fixed title)). apply sanitizeFileName_clean.
Qed.

Lemma problemIdFrom_clean marker titleSelector page :
  clean (ContentFull.problemIdFrom marker titleSelector page) = true.
Proof.
  unfold ContentFull.problemIdFrom.
  destruct (match_after marker _ (href page)) as [g|] eqn:E.
  - apply match_after_all in E as [Ha _].
    apply slug_only_clean, toLowerCase_upper_or_digit, Ha.
  - destruct (option_map textContent (querySelector page titleSelector)) as [t|];
      [|reflexivity].
    destruct (truthy t); [apply titleSlug_clean|reflexivity].
Qed.

(** The problem id of every record the extraction builds is a clean
    stem. *)
Lemma extractFields_clean platform page data :
  platform ∈ Codes.supported ->
  ContentFull.extractFields platform page = inr data ->
  Content.platform data = platform /\
  exists pid lang, problemId data = Some pid /\ language data = Some lang /\
                   clean pid = true.
Proof.
  unfold ContentFull.extractFields, Codes.supported. intros Hs.
  destruct (String.eqb_spec platform "leetcode") as [_|H1].
  { destruct (ContentFull.extractLeetCodeCode page); [discriminate|].
    intros [= <-]. cbn. split; [reflexivity|]. eexists _, _.
    split; [reflexivity|]. split; [reflexivity|]. apply titleSlug_clean. }
  destruct (String.eqb_spec platform "codeforces") as [_|H2].
  { destruct (ContentFull.extractCodeforceCode page); [discriminate|].
    destruct (ContentFull.extractCodeforceLanguage page); [discriminate|].
    intros [= <-]. cbn. split; [reflexivity|]. eexists _, _.
    split; [reflexivity|]. split; [reflexivity|]. apply problemIdFrom_clean. }
  destruct (String.eqb_spec platform "codechef") as [_|H3].
  { destruct (ContentFull.extractCodechefCode page); [discriminate|].
    destruct (ContentFull.extractCodechefLanguage page); [discriminate|].
    intros [= <-]. cbn. split; [reflexivity|]. eexists _, _.
    split; [reflexivity|]. split; [reflexivity|]. apply problemIdFrom_clean. }
  exfalso.
  repeat (apply elem_of_cons in Hs as [->|Hs]; [congruence|]).
  now apply elem_of_nil in Hs.
Qed.

Lemma hyphen_space_keep c :
  is_slug_char (lower_char (if is_hyphen c then " "%char else c)) =
  is_slug_char (lower_char c) /\
  (is_slug_char (lower_char c) = true ->
   lower_char (if is_hyphen c then " "%char else c) = lower_char c).
Proof.
  destruct c as [[] [] [] [] [] [] [] []]; vm_compute;
    (split; [reflexivity|intros H; (reflexivity || discriminate H)]).
Qed.

(** Hyphens and spaces make the same slug. *)
Lemma titleSlug_hyphensToSpaces s : titleSlug (hyphensToSpaces s) = titleSlug s.
Proof.
  unfold titleSlug. f_equal.
  induction s as [|c s IH]; [reflexivity|].
  cbn [hyphensToSpaces toLowerCase]. rewrite !replace_runs_cons.
  destruct (hyphen_space_keep c) as [Hk Hc]. rewrite Hk.
  destruct (is_slug_char (lower_char c)) eqn:E.
  - now rewrite Hc, IH.
  - destruct s as [|c' s']; [reflexivity|].
    cbn [hyphensToSpaces toLowerCase] in *.
    destruct (hyphen_space_keep c') as [Hk' _]. rewrite Hk'.
    now rewrite IH.
Qed.

End IdFacts.

Section ContentProperties.
Import Text Slug Stem Chars Dom Content GitHub.

(** X20. The problem id of a record is the stem of its file: for a
    platform with a folder and a clock that is not negative, every
    record the extraction of the content script returns, also the one
    built from the fallbacks, carries a problem id that
    [sanitizeFileName] leaves as it is; so [getFilePath] puts the
    solution at [<platform>/<problemId>.<extension>]. *)
Theorem X20_problem_id_is_the_stem (platform : string) (page : Page)
    (data : SubmissionData) :
  platform ∈ Codes.supported ->
  0 <= now page ->
  ContentFull.extractSubmissionData platform page = inr data ->
  exists pid lang,
    problemId data = Some pid /\ language data = Some lang /\
    sanitizeFileName pid = pid /\
    getFilePath (Content.platform data) pid lang =
      inr (platform +:+ "/" +:+ pid +:+ "." +:+ getFileExtension lang).
Proof.
  intros Hs Hn He.
  assert (Hlow : toLowerCase platform = platform).
  { unfold Codes.supported in Hs.
    repeat (apply elem_of_cons in Hs as [->|Hs]; [reflexivity|]).
    now apply elem_of_nil in Hs. }
  assert (H : Content.platform data = platform /\
              exists pid lang, problemId data = Some pid /\
                language data = Some lang /\ clean pid = true).
  { destruct (extractSubmissionData_total platform page Hs)
      as (data' & He' & [Hf|[_ ->]]).
    - rewrite He in He'. injection He' as <-.
      now apply (extractFields_clean platform page).
    - rewrite He in He'. injection He' as ->.
      cbn. split; [reflexivity|]. eexists _, _.
      split; [reflexivity|]. split; [reflexivity|].
      destruct (numberToString_digits (now page) Hn) as [Hd Hne].
      apply unknown_clean; [|exact Hne].
      apply (all_chars_impl is_digit); [apply digit_slug|exact Hd]. }
  destruct H as (Hp & pid & lang & H1 & H2 & Hc).
  exists pid, lang. split; [exact H1|]. split; [exact H2|].
  pose proof (sanitizeFileName_of_clean pid Hc) as Hfix.
  split; [exact Hfix|].
  rewrite Hp, getFilePath_supported by now rewrite Hlow.
  now rewrite Hlow, Hfix.
Qed.

(** X21. Whatever the first content script takes for a successful
    submission, the script with fallback strategies does too. *)
Theorem X21_success_tests_nested (platform : string) (page : Page) :
  ContentBasic.isSuccessfulSubmission platform page = true ->
  ContentFull.isSuccessfulSubmission platform page = true.
Proof.
  unfold ContentBasic.isSuccessfulSubmission, ContentFull.isSuccessfulSubmission.
  destruct (String.eqb platform "leetcode").
  { intros ->. reflexivity. }
  destruct (String.eqb platform "codeforces").
  { intros ->. reflexivity. }
  destruct (String.eqb platform "codechef").
  { intros ->. reflexivity. }
  discriminate.
Qed.

(** X22. The address as the source of the problem id: when no title is
    found on a LeetCode page whose address has [/problems/<name>], the
    problem id is the slug of [<name>], although its hyphens were turned
    into spaces first; when [<name>] is itself a slug, as in the
    addresses of LeetCode, the problem id is [<name>]. *)
Theorem X22_problem_id_from_address (page : Page) (name : string) :
  firstText page ContentFull.titleSelectors = None ->
  match_after "/problems/" ContentFull.not_slash (pathname page) = Some name ->
  ContentFull.extractLeetCodeProblemId page = titleSlug name /\
  (forall title, name = titleSlug title ->
     ContentFull.extractLeetCodeProblemId page = name).
Proof.
  intros Hf Hm.
  assert (E : ContentFull.extractLeetCodeProblemId page = titleSlug name).
  { unfold ContentFull.extractLeetCodeProblemId, ContentFull.leetCodeTitle.
    rewrite Hf, Hm. apply titleSlug_hyphensToSpaces. }
  split; [exact E|].
  intros title ->. rewrite E. apply titleSlug_fixed.
Qed.

End ContentProperties.

(** The record of the page of an accepted LeetCode submission. *)
Lemma X20_problem_id_is_the_stem_witness :
  "leetcode" ∈ Codes.supported /\
  0 <= Dom.now ContentFull.accepted_page /\
  exists data,
    ContentFull.extractSubmissionData "leetcode" ContentFull.accepted_page
      = inr data /\
    exists pid lang,
      Content.problemId data = Some pid /\ Content.language data = Some lang /\
      Slug.sanitizeFileName pid = pid /\
      GitHub.getFilePath (Content.platform data) pid lang =
        inr ("leetcode" +:+ "/" +:+ pid +:+ "." +:+ GitHub.getFileExtension lang).
Proof.
  assert (H1 : "leetcode" ∈ Codes.supported) by (vm_compute; constructor).
  assert (H2 : 0 <= Dom.now ContentFull.accepted_page) by (vm_compute; discriminate).
  split; [exact H1|]. split; [exact H2|].
  destruct (ContentFull.extractSubmissionData "leetcode" ContentFull.accepted_page)
    as [e|data] eqn:E; [vm_compute in E; discriminate|].
  exists data. split; [reflexivity|].
  exact (X20_problem_id_is_the_stem "leetcode" ContentFull.accepted_page data
           H1 H2 E).
Defined.

(** The success icon of LeetCode. *)
Lemma X21_success_tests_nested_witness :
  ContentBasic.isSuccessfulSubmission "leetcode" ContentFull.accepted_page = true /\
  ContentFull.isSuccessfulSubmission "leetcode" ContentFull.accepted_page = true.
Proof.
  assert (H : ContentBasic.isSuccessfulSubmission "leetcode"
                ContentFull.accepted_page = true) by reflexivity.
  split; [exact H|].
  exact (X21_success_tests_nested "leetcode" ContentFull.accepted_page H).
Defined.

(** The page of Two Sum without any title element. *)
Lemma X22_problem_id_from_address_witness :
  Dom.firstText
    {| Dom.hostname := "leetcode.com"; Dom.pathname := "/problems/two-sum/";
       Dom.href := "https://leetcode.com/problems/two-sum/";
       Dom.langParam := None; Dom.documentTitle := "LeetCode";
       Dom.innerText := "Accepted"; Dom.elements := []; Dom.now := 0 |}
    ContentFull.titleSelectors = None /\
  Text.match_after "/problems/" ContentFull.not_slash "/problems/two-sum/"
    = Some "two-sum" /\
  ContentFull.extractLeetCodeProblemId
    {| Dom.hostname := "leetcode.com"; Dom.pathname := "/problems/two-sum/";
       Dom.href := "https://leetcode.com/problems/two-sum/";
       Dom.langParam := None; Dom.documentTitle := "LeetCode";
       Dom.innerText := "Accepted"; Dom.elements := []; Dom.now := 0 |}
  = "two-sum".
Proof.
  split; [reflexivity|]. split; [reflexivity|].
  exact (proj2 (X22_problem_id_from_address
                  {| Dom.hostname := "leetcode.com";
                     Dom.pathname := "/problems/two-sum/";
                     Dom.href := "https://leetcode.com/problems/two-sum/";
                     Dom.langParam := None; Dom.documentTitle := "LeetCode";
                     Dom.innerText := "Accepted"; Dom.elements := [];
                     Dom.now := 0 |}
                  "two-sum" eq_refl eq_refl) "Two Sum" eq_refl).
Defined.

(** ** The pages of the extension *)

Section PageFacts.
Import Text JsDate Store Streak Pages.
Context {host : Host}.

(** The invariant behind the badges: every achievement the stored streak
    satisfies is unlocked. *)
Lemma updateStreak_unlocks now later st a :
  (forall b, b ∈ achievements -> condition b (or0 (streak st)) = true ->
             id b ∈ orNil (unlockedAchievements st)) ->
  a ∈ achievements ->
  condition a (or0 (streak (fst (updateStreak now later st)))) = true ->
  id a ∈ orNil (unlockedAchievements (fst (updateStreak now later st))).
Proof.
  intros Hinv Ha.
  destruct (decide (lastPushDate st = Some (isoDate now))) as [Hs|Hn].
  - rewrite updateStreak_same_day by exact Hs. cbn [fst]. now apply Hinv.
  - pose proof (updateStreak_new_day now later st Hn) as (Hst & _).
    rewrite Hst. cbn [or0]. intros Hc.
    unfold updateStreak. rewrite bool_decide_eq_false_2 by exact Hn.
    match goal with
    | |- context [checkAchievements ?k ?s] =>
        assert (Hk : k = nextStreak later st);
        [|pose proof (checkAchievements_complete k s a Ha) as Hcomp;
          destruct (checkAchievements k s) as [st2 newA]]
    end.
    + pose proof (updateStreak_new_day now later st Hn) as (_ & _ & _ & Hr).
      unfold updateStreak in Hr. rewrite bool_decide_eq_false_2 in Hr by exact Hn.
      match type of Hr with
      | context [checkAchievements ?k ?s] =>
          destruct (checkAchievements k s) as [st2 newA]
      end.
      exact Hr.
    + cbn [fst] in *. apply Hcomp. now rewrite Hk.
Qed.

Lemma step_unlocks st st' :
  Background.step st st' ->
  (forall b, b ∈ achievements -> condition b (or0 (streak st)) = true ->
             id b ∈ orNil (unlockedAchievements st)) ->
  forall a, a ∈ achievements -> condition a (or0 (streak st')) = true ->
            id a ∈ orNil (unlockedAchievements st').
Proof.
  intros [now later|k|data now later] Hinv a Ha Hc.
  - now apply updateStreak_unlocks.
  - pose proof (checkAchievements_streak_fields k st) as (Hs & _).
    cbv zeta in Hs. rewrite Hs in Hc.
    apply (proj1 (proj2 (checkAchievements_spec k st))). now apply Hinv.
  - pose proof (updateDailySubmissions_streak_fields data now later st)
      as (Hs & _ & _ & Hu).
    cbv zeta in Hs, Hu. rewrite Hs in Hc. rewrite Hu. now apply Hinv.
Qed.

Lemma reachable_unlocks st :
  Background.reachable Store.empty st ->
  forall a, a ∈ achievements -> condition a (or0 (streak st)) = true ->
            id a ∈ orNil (unlockedAchievements st).
Proof.
  induction 1 as [|st1 st2 _ IH Hstep].
  - intros a Ha. repeat (apply elem_of_cons in Ha as [->|Ha]; [discriminate|]).
    now apply elem_of_nil in Ha.
  - now apply (step_unlocks st1 st2).
Qed.

Lemma maxStreakLoop_bound (l : list DailySubmissionData) : forall m c,
  0 <= c ->
  maxStreakLoop l m c <= Z.max m (c + activeDays l).
Proof.
  unfold activeDays.
  induction l as [|d l IH]; intros m c Hc; cbn [maxStreakLoop List.filter].
  - cbn. lia.
  - destruct (0 <? submissions d).
    + specialize (IH (Z.max m (c + 1)) (c + 1) ltac:(lia)).
      cbn [length]. lia.
    + specialize (IH m 0 ltac:(lia)). lia.
Qed.

Lemma maxStreakLoop_all (l : list DailySubmissionData) : forall m c,
  Forall (fun d => 0 < submissions d) l ->
  maxStreakLoop l m c =
  match l with [] => m | _ => Z.max m (c + Z.of_nat (length l)) end.
Proof.
  induction l as [|d l IH]; intros m c Hall; [reflexivity|].
  apply Forall_cons in Hall as [Hd Hall]. cbn [maxStreakLoop].
  apply Z.ltb_lt in Hd. rewrite Hd, (IH _ _ Hall).
  destruct l as [|d' l']; cbn [length]; lia.
Qed.

Lemma List_filter_perm_length (p : DailySubmissionData -> bool)
    (l l' : list DailySubmissionData) :
  l ≡ₚ l' -> length (List.filter p l) = length (List.filter p l').
Proof.
  induction 1 as [|x l l' _ IH|x y l|l l' l'' _ IH1 _ IH2]; cbn [List.filter].
  - reflexivity.
  - destruct (p x); cbn [length]; congruence.
  - destruct (p x), (p y); reflexivity.
  - congruence.
Qed.

End PageFacts.

Section PageProperties.
Import Text JsDate Store Streak Pages.
Context {host : Host}.

(** X23. The badges of the achievements page against the achievements
    of the background script: in every store the background script can
    reach from the empty one, a streak badge that is shown as earned
    belongs to an achievement that is unlocked.  In every store, the
    30-day badge is earned only with the 7-day badge, and the badge
    [easy10] only with the badge [hard5]: both count [totalSolved]. *)
Theorem X23_badges_and_achievements (st : Storage) :
  (Background.reachable Store.empty st ->
   (isEarned "streak7" st = true ->
    "streak-7" ∈ orNil (unlockedAchievements st)) /\
   (isEarned "streak30" st = true ->
    "streak-30" ∈ orNil (unlockedAchievements st))) /\
  (isEarned "streak30" st = true -> isEarned "streak7" st = true) /\
  (isEarned "easy10" st = true -> isEarned "hard5" st = true).
Proof.
  split; [|split].
  - intros Hr. split; intros He.
    + apply (reachable_unlocks st Hr
               {| id := "streak-7"; title := "1 Week Streak";
                  message := "🔥 You've been coding for 7 days straight!";
                  emoji := "🔥"; condition := fun streak => 7 <=? streak |}).
      * apply list_elem_of_lookup_2 with 0%nat. reflexivity.
      * exact He.
    + apply (reachable_unlocks st Hr
               {| id := "streak-30"; title := "1 Month Streak";
                  message := "💎 Amazing! A whole month of continuous coding!";
                  emoji := "💎"; condition := fun streak => 30 <=? streak |}).
      * apply list_elem_of_lookup_2 with 1%nat. reflexivity.
      * exact He.
  - unfold isEarned, earnedBadges. cbn. rewrite !Z.leb_le. lia.
  - unfold isEarned, earnedBadges. cbn. rewrite !Z.leb_le. lia.
Qed.

(** X24. The maximal streak of the month on the settings page counts
    entries, not days in a row: whatever order the sort leaves, it is at
    most the number of active days, and it is the number of entries when
    every entry has a submission.  So for the buckets of a store the
    background script can reach, the maximal streak of any selection of
    buckets is their number, whether their dates are consecutive or
    not. *)
Theorem X24_month_streak_counts_entries
    (monthData sortedData : list DailySubmissionData) :
  sortedData ≡ₚ monthData ->
  calculateMaxStreak sortedData <= activeDays monthData /\
  (Forall (fun d => 0 < submissions d) monthData ->
   calculateMaxStreak sortedData = Z.of_nat (length monthData)) /\
  (forall st inMonth,
     Background.reachable Store.empty st ->
     monthData = List.filter inMonth (Daily.buckets st) ->
     calculateMaxStreak sortedData = Z.of_nat (length monthData)).
Proof.
  intros Hp.
  assert (Hall : Forall (fun d => 0 < submissions d) monthData ->
                 calculateMaxStreak sortedData = Z.of_nat (length monthData)).
  { intros Hall. rewrite <- Hp in Hall.
    unfold calculateMaxStreak. rewrite (maxStreakLoop_all _ _ _ Hall).
    rewrite <- (Permutation_length Hp).
    destruct sortedData; cbn [length]; lia. }
  split; [|split; [exact Hall|]].
  - pose proof (maxStreakLoop_bound sortedData 0 0 ltac:(lia)) as H.
    unfold calculateMaxStreak.
    assert (E : activeDays sortedData = activeDays monthData).
    { unfold activeDays. f_equal. now apply List_filter_perm_length. }
    rewrite <- E. unfold activeDays in *. lia.
  - intros st inMonth Hr ->. apply Hall.
    apply Forall_List_filter.
    assert (Hc : Counters.counted st).
    { clear -Hr. induction Hr as [|st1 st2 _ IH Hstep]; [apply empty_counted|].
      eapply step_counted; eauto. }
    destruct Hc as (Hb & _). eapply Forall_impl; [exact Hb|].
    intros b (H1 & _). cbn. lia.
Qed.

(** X25. The path does not depend on case: arguments that agree after
    lower-casing get the same path from [getFilePath], or both none. *)
Theorem X25_getFilePath_ignores_case
    (platform platform' problemId problemId' language language' : string) :
  toLowerCase platform = toLowerCase platform' ->
  toLowerCase problemId = toLowerCase problemId' ->
  toLowerCase language = toLowerCase language' ->
  match GitHub.getFilePath platform problemId language,
        GitHub.getFilePath platform' problemId' language' with
  | inr path, inr path' => path = path'
  | inl e, inl e' => GitHub.code e = GitHub.code e'
  | _, _ => False
  end.
Proof.
  intros Hp Hi Hl.
  unfold GitHub.getFilePath, GitHub.getFileExtension, Slug.sanitizeFileName.
  rewrite Hp, Hi, Hl.
  destruct (String.eqb (toLowerCase platform') "leetcode"); [reflexivity|].
  destruct (String.eqb (toLowerCase platform') "codeforces"); [reflexivity|].
  destruct (String.eqb (toLowerCase platform') "codechef"); reflexivity.
Qed.

(** X26. The button [+1 Manual Boost] of the popup against the
    background script, when the popup shows the stored values: it adds
    one to the stored streak and to [easy] and leaves the longest
    streak, the last push date, the unlocked achievements and
    [totalSolved] as they are.  So from a store whose streak is its
    longest streak, the longest streak is below the streak afterwards;
    and a push on another day than the last push date, when that date is
    the one [updateStreak] takes for yesterday, continues from the
    boosted streak. *)
Theorem X26_manual_boost (st : Storage) (now later : Z) :
  let boosted := manualBoost (or0 (streak st)) (or0 (easyCount st)) st in
  or0 (streak st) = or0 (longestStreak st) ->
  lastPushDate st = Some (isoDate (setDateBack 1 later)) ->
  lastPushDate st <> Some (isoDate now) ->
  ~ streak_bounded boosted /\
  unlockedAchievements boosted = unlockedAchievements st /\
  totalSolved boosted = totalSolved st /\
  or0 (easyCount boosted) = or0 (easyCount st) + 1 /\
  streak (fst (updateStreak now later boosted)) = Some (or0 (streak st) + 2).
Proof.
  intros boosted He Hl Hn.
  split; [unfold streak_bounded, boosted; cbn; lia|].
  split; [reflexivity|]. split; [reflexivity|]. split; [reflexivity|].
  pose proof (updateStreak_new_day now later boosted Hn) as (Hs & _).
  rewrite Hs. f_equal. unfold nextStreak, boosted.
  cbn [lastPushDate streak manualBoost or0].
  rewrite bool_decide_eq_true_2 by exact Hl. lia.
Qed.

End PageProperties.

(** After a week of pushes the 7-day badge is earned and the achievement
    unlocked. *)
Lemma X23_badges_and_achievements_witness :
  Background.reachable (host := JsDate.utc) Store.empty Pages.week /\
  Pages.isEarned "streak7" Pages.week = true /\
  "streak-7" ∈ Store.orNil (Store.unlockedAchievements Pages.week).
Proof.
  assert (Hr : Background.reachable (host := JsDate.utc) Store.empty Pages.week).
  { unfold Pages.week, Run.updateStreaks. cbn [map fold_left].
    repeat (eapply Background.reach_step; [|apply Background.step_updateStreak]).
    apply Background.reach_refl. }
  assert (He : Pages.isEarned "streak7" Pages.week = true) by (vm_compute; reflexivity).
  split; [exact Hr|]. split; [exact He|].
  exact (proj1 (proj1 (X23_badges_and_achievements (host := JsDate.utc)
                         Pages.week) Hr) He).
Defined.

(** Two buckets a week apart count as a streak of two. *)
Lemma X24_month_streak_counts_entries_witness :
  [ {| Store.date := "2025-01-08"; Store.submissions := 1;
       Store.problems := {| Store.p_easy := 0; Store.p_medium := 0; Store.p_hard := 0 |} |};
    {| Store.date := "2025-01-01"; Store.submissions := 2;
       Store.problems := {| Store.p_easy := 0; Store.p_medium := 0; Store.p_hard := 0 |} |} ]
  ≡ₚ
  [ {| Store.date := "2025-01-01"; Store.submissions := 2;
       Store.problems := {| Store.p_easy := 0; Store.p_medium := 0; Store.p_hard := 0 |} |};
    {| Store.date := "2025-01-08"; Store.submissions := 1;
       Store.problems := {| Store.p_easy := 0; Store.p_medium := 0; Store.p_hard := 0 |} |} ] /\
  Pages.calculateMaxStreak
    [ {| Store.date := "2025-01-08"; Store.submissions := 1;
         Store.problems := {| Store.p_easy := 0; Store.p_medium := 0; Store.p_hard := 0 |} |};
      {| Store.date := "2025-01-01"; Store.submissions := 2;
         Store.problems := {| Store.p_easy := 0; Store.p_medium := 0; Store.p_hard := 0 |} |} ]
  = 2.
Proof.
  assert (Hp :
    [ {| Store.date := "2025-01-08"; Store.submissions := 1;
         Store.problems := {| Store.p_easy := 0; Store.p_medium := 0; Store.p_hard := 0 |} |};
      {| Store.date := "2025-01-01"; Store.submissions := 2;
         Store.problems := {| Store.p_easy := 0; Store.p_medium := 0; Store.p_hard := 0 |} |} ]
    ≡ₚ
    [ {| Store.date := "2025-01-01"; Store.submissions := 2;
         Store.problems := {| Store.p_easy := 0; Store.p_medium := 0; Store.p_hard := 0 |} |};
      {| Store.date := "2025-01-08"; Store.submissions := 1;
         Store.problems := {| Store.p_easy := 0; Store.p_medium := 0; Store.p_hard := 0 |} |} ])
    by apply perm_swap.
  split; [exact Hp|].
  apply (proj1 (proj2 (X24_month_streak_counts_entries (host := JsDate.utc)
                         _ _ Hp))).
  repeat constructor.
Defined.

(** [LeetCode] and [leetcode], [Two Sum] and [two sum], [Python] and
    [python]. *)
Lemma X25_getFilePath_ignores_case_witness :
  Text.toLowerCase "LeetCode" = Text.toLowerCase "leetcode" /\
  Text.toLowerCase "Two Sum" = Text.toLowerCase "two sum" /\
  Text.toLowerCase "Python" = Text.toLowerCase "python" /\
  GitHub.getFilePath "LeetCode" "Two Sum" "Python" =
  GitHub.getFilePath "leetcode" "two sum" "python".
Proof.
  split; [reflexivity|]. split; [reflexivity|]. split; [reflexivity|].
  pose proof (X25_getFilePath_ignores_case
                "LeetCode" "leetcode" "Two Sum" "two sum" "Python" "python"
                eq_refl eq_refl eq_refl) as H.
  destruct (GitHub.getFilePath "LeetCode" "Two Sum" "Python") as [e|p] eqn:E1;
    [discriminate E1|].
  destruct (GitHub.getFilePath "leetcode" "two sum" "python") as [e'|p'] eqn:E2;
    [discriminate E2|].
  now rewrite H.
Defined.

(** A boost on 2025-01-01 of a store with a streak of 3, its longest,
    and a push on the next day. *)
Lemma X26_manual_boost_witness :
  Store.or0 (Store.streak (Store.setStreak 3 "2025-01-01" 3 Store.empty)) =
  Store.or0 (Store.longestStreak (Store.setStreak 3 "2025-01-01" 3 Store.empty)) /\
  Store.lastPushDate (Store.setStreak 3 "2025-01-01" 3 Store.empty) =
  Some (JsDate.isoDate
          (JsDate.setDateBack (host := JsDate.utc) 1
             (20090 * JsDate.ms_per_day + 1))) /\
  Store.lastPushDate (Store.setStreak 3 "2025-01-01" 3 Store.empty) <>
  Some (JsDate.isoDate (20090 * JsDate.ms_per_day)) /\
  Store.streak
    (fst (Streak.updateStreak (host := JsDate.utc)
            (20090 * JsDate.ms_per_day) (20090 * JsDate.ms_per_day + 1)
            (Pages.manualBoost 3 0 (Store.setStreak 3 "2025-01-01" 3 Store.empty))))
  = Some 5.
Proof.
  assert (H1 : Store.or0 (Store.streak (Store.setStreak 3 "2025-01-01" 3 Store.empty)) =
               Store.or0 (Store.longestStreak
                            (Store.setStreak 3 "2025-01-01" 3 Store.empty)))
    by reflexivity.
  assert (H2 : Store.lastPushDate (Store.setStreak 3 "2025-01-01" 3 Store.empty) =
               Some (JsDate.isoDate
                       (JsDate.setDateBack (host := JsDate.utc) 1
                          (20090 * JsDate.ms_per_day + 1))))
    by reflexivity.
  assert (H3 : Store.lastPushDate (Store.setStreak 3 "2025-01-01" 3 Store.empty) <>
               Some (JsDate.isoDate (20090 * JsDate.ms_per_day)))
    by (vm_compute; discriminate).
  split; [exact H1|]. split; [exact H2|]. split; [exact H3|].
  exact (proj2 (proj2 (proj2 (proj2
           (X26_manual_boost (host := JsDate.utc)
              (Store.setStreak 3 "2025-01-01" 3 Store.empty)
              (20090 * JsDate.ms_per_day) (20090 * JsDate.ms_per_day + 1)
              H1 H2 H3))))).
Defined.

(** ** When two solutions share a file *)

Section PathFacts.
Import Text Slug Stem GitHub.

(** A string without dot before a dot is found again. *)
Lemma split_at_dot (a a' b b' : string) :
  count_char "."%char a = O -> count_char "."%char a' = O ->
  a +:+ "." +:+ b = a' +:+ "." +:+ b' -> a = a' /\ b = b'.
Proof.
  revert a'. induction a as [|c a IH]; intros [|c' a'] Ha Ha' E.
  - simpl in E. injection E as E. auto.
  - simpl in E. injection E as Ec E. subst c'.
    cbn [count_char] in Ha'. rewrite Ascii.eqb_refl in Ha'. discriminate.
  - simpl in E. injection E as Ec E. subst c.
    cbn [count_char] in Ha. rewrite Ascii.eqb_refl in Ha. discriminate.
  - simpl in E. injection E as Ec E. subst c'.
    cbn [count_char] in Ha, Ha'.
    destruct (Ascii.eqb c "."); [discriminate|].
    destruct (IH a' Ha Ha' E) as [-> ->]. auto.
Qed.

End PathFacts.

Section PathProperties.
Import Text Slug Stem GitHub.

(** X27. Two solutions share a file exactly when they agree on the
    folder, the stem and the extension: the paths [getFilePath] returns
    are equal if and only if the lower-cased platforms, the sanitised
    problem ids and the extensions of the languages are. *)
Theorem X27_paths_collide_on_stems
    (platform platform' problemId problemId' language language' path path' : string) :
  getFilePath platform problemId language = inr path ->
  getFilePath platform' problemId' language' = inr path' ->
  (path = path' <->
   toLowerCase platform = toLowerCase platform' /\
   sanitizeFileName problemId = sanitizeFileName problemId' /\
   getFileExtension language = getFileExtension language').
Proof.
  intros H H'.
  pose proof (sanitizeFileName_no_slash_dot problemId) as [_ Hd].
  pose proof (sanitizeFileName_no_slash_dot problemId') as [_ Hd'].
  unfold getFilePath in H, H'.
  destruct (String.eqb_spec (toLowerCase platform) "leetcode") as [E1|_];
    [|destruct (String.eqb_spec (toLowerCase platform) "codeforces") as [E1|_];
      [|destruct (String.eqb_spec (toLowerCase platform) "codechef") as [E1|_];
        [|discriminate]]];
    (destruct (String.eqb_spec (toLowerCase platform') "leetcode") as [E2|_];
     [|destruct (String.eqb_spec (toLowerCase platform') "codeforces") as [E2|_];
       [|destruct (String.eqb_spec (toLowerCase platform') "codechef") as [E2|_];
         [|discriminate]]]);
    injection H as <-; injection H' as <-; rewrite E1, E2;
    (split;
     [intros E; simpl in E; try discriminate E;
      repeat (injection E as E);
      destruct (split_at_dot _ _ _ _ Hd Hd' E) as [-> ->]; auto
     |intros (Ef & -> & ->); try discriminate Ef; reflexivity]).
Qed.

End PathProperties.

(** [Two Sum!] and [two-sum] on LeetCode, in Python. *)
Lemma X27_paths_collide_on_stems_witness :
  GitHub.getFilePath "LeetCode" "Two Sum!" "Python" = inr "leetcode/two-sum.py" /\
  GitHub.getFilePath "leetcode" "two-sum" "python" = inr "leetcode/two-sum.py" /\
  Slug.sanitizeFileName "Two Sum!" = Slug.sanitizeFileName "two-sum".
Proof.
  split; [reflexivity|]. split; [reflexivity|].
  exact (proj1 (proj2 (proj1 (X27_paths_collide_on_stems
                  "LeetCode" "leetcode" "Two Sum!" "two-sum" "Python" "python"
                  "leetcode/two-sum.py" "leetcode/two-sum.py" eq_refl eq_refl)
                  eq_refl))).
Defined.
